(** * Todos agent: the webhook processing pipeline

    A shallow embedding of parts of the repository and the properties its
    specification states about them:

    - [agent_lock]      (agent_lock.py): the working / cooldown guard;
    - [google_calendar] (google_calendar.py): merging busy intervals,
      subtracting them from a range, clipping to Activity Hours;
    - [task_processor]  (task_processor.py): the priority gate, the change
      analysis, the event handlers and the router;
    - [webhook_server]  (webhook_server.py): the Todoist webhook in front of
      the router, the recent events, the task id of a URL;
    - [master_agent]    (master_agent.py): the labels that the scheduling
      tool sets.

    Conventions of the embedding.
    - [time.time()] returns seconds since the epoch as a float; clock
      readings are exact rationals here ([Q]), so float rounding is not
      modelled.  One guard operation reads the clock at one instant [now]:
      its body holds the mutex and has no suspension point.
    - A Python exception is a value of [exn]; a call that may raise returns
      an [outcome].
    - An f-string is kept as its template (a constructor) applied to the
      values it interpolates, so no text rendering is modelled. *)

From stdpp Require Import gmap strings list sorting.
From Stdlib Require Import Ascii ZArith QArith Lia Lqa.

Local Open Scope Z_scope.
Set Warnings "-clear-no-such-hyp".

(** ** Python values shared by the modules *)

(** The exceptions the modelled code raises or catches; all of them are
    subclasses of [Exception], which is what the handlers catch. *)
Inductive exn :=
| Exception (msg : string)
| TypeError (msg : string)
| ValueError (msg : string)
| AttributeError (msg : string).

Inductive outcome (A : Type) :=
| Returns (a : A)
| Raises (e : exn).
Arguments Returns {A} a.
Arguments Raises {A} e.

(** [str(e)] *)
Definition exn_str (e : exn) : string :=
  match e with
  | Exception m | TypeError m | ValueError m | AttributeError m => m
  end.

(** ** agent_lock.py *)
Module agent_lock.

(** The attributes of [class AgentLock] but the asyncio mutex, which only
    makes each operation atomic. *)
Record AgentLock := mkAgentLock {
  _is_agent_working : bool;
  _is_cooldown : bool;
  _agent_start_time : option Q;
  _cooldown_start_time : option Q;
  _current_task_id : option string;
  _timeout_seconds : Q;
  _cooldown_seconds : Q
}.

(** [AgentLock.__init__] *)
Definition init : AgentLock :=
  {| _is_agent_working := false;
     _is_cooldown := false;
     _agent_start_time := None;
     _cooldown_start_time := None;
     _current_task_id := None;
     _timeout_seconds := 300;
     _cooldown_seconds := 3 |}.

(** [x > y] on clock values. *)
Definition Qgtb (x y : Q) : bool := negb (Qle_bool x y).

(** [start and (time.time() - start) > limit]: a start time that is [None]
    or [0.0] is falsy, and the comparison is then not evaluated. *)
Definition elapsed_exceeds (now : Q) (start : option Q) (limit : Q) : bool :=
  match start with
  | None => false
  | Some t => if Qeq_bool t 0 then false else Qgtb (now - t) limit
  end.

Definition set_acquired (now : Q) (task_id : option string) (self : AgentLock) : AgentLock :=
  {| _is_agent_working := true;
     _is_cooldown := false;
     _agent_start_time := Some now;
     _cooldown_start_time := None;
     _current_task_id := task_id;
     _timeout_seconds := _timeout_seconds self;
     _cooldown_seconds := _cooldown_seconds self |}.

(** The branch "Cooldown expired, fully release" of [acquire_agent_lock] and
    of [is_agent_working]. *)
Definition clear_cooldown (self : AgentLock) : AgentLock :=
  {| _is_agent_working := _is_agent_working self;
     _is_cooldown := false;
     _agent_start_time := _agent_start_time self;
     _cooldown_start_time := None;
     _current_task_id := None;
     _timeout_seconds := _timeout_seconds self;
     _cooldown_seconds := _cooldown_seconds self |}.

(** The branch "AGENT LOCK TIMEOUT: Forcing release" / "AGENT LOCK EXPIRED". *)
Definition force_release (self : AgentLock) : AgentLock :=
  {| _is_agent_working := false;
     _is_cooldown := false;
     _agent_start_time := _agent_start_time self;
     _cooldown_start_time := _cooldown_start_time self;
     _current_task_id := None;
     _timeout_seconds := _timeout_seconds self;
     _cooldown_seconds := _cooldown_seconds self |}.

Definition set_cooldown (now : Q) (self : AgentLock) : AgentLock :=
  {| _is_agent_working := false;
     _is_cooldown := true;
     _agent_start_time := _agent_start_time self;
     _cooldown_start_time := Some now;
     _current_task_id := _current_task_id self;
     _timeout_seconds := _timeout_seconds self;
     _cooldown_seconds := _cooldown_seconds self |}.

(** Second half of [acquire_agent_lock]: "Check if another agent is already
    working", then "Acquire the lock". *)
Definition acquire_after_cooldown (now : Q) (task_id : option string) (self : AgentLock)
  : outcome bool * AgentLock :=
  if _is_agent_working self then
    if elapsed_exceeds now (_agent_start_time self) (_timeout_seconds self)
    then (Returns true, set_acquired now task_id (force_release self))
    else (Returns false, self)
  else (Returns true, set_acquired now task_id self).

(** [AgentLock.acquire_agent_lock].  In the "still in cooldown" branch the
    remaining time is computed for the message; with no cooldown start time
    that subtraction raises. *)
Definition acquire_agent_lock (now : Q) (task_id : option string) (self : AgentLock)
  : outcome bool * AgentLock :=
  if _is_cooldown self then
    if elapsed_exceeds now (_cooldown_start_time self) (_cooldown_seconds self)
    then acquire_after_cooldown now task_id (clear_cooldown self)
    else match _cooldown_start_time self with
         | None => (Raises (TypeError "unsupported operand type(s) for -: 'float' and 'NoneType'"), self)
         | Some _ => (Returns false, self)
         end
  else acquire_after_cooldown now task_id self.

(** [AgentLock.release_agent_lock]: a release by another task than the
    holder, while the guard is working, only prints a warning. *)
Definition release_agent_lock (now : Q) (task_id : option string) (self : AgentLock) : AgentLock :=
  if bool_decide (_current_task_id self = task_id) || negb (_is_agent_working self)
  then set_cooldown now self
  else self.

(** [AgentLock.is_agent_working] *)
Definition is_agent_working (now : Q) (self : AgentLock) : bool * AgentLock :=
  if _is_agent_working self && elapsed_exceeds now (_agent_start_time self) (_timeout_seconds self)
  then (false, force_release self)
  else if _is_cooldown self && elapsed_exceeds now (_cooldown_start_time self) (_cooldown_seconds self)
  then (false, clear_cooldown self)
  else (_is_agent_working self || _is_cooldown self, self).

(** The dict [get_status] returns; the two ISO renderings of the start
    times are kept as the start times themselves. *)
Record status := mkStatus {
  is_locked : bool;
  status_is_agent_working : bool;
  status_is_cooldown : bool;
  current_task_id : option string;
  agent_start_time : option Q;
  agent_elapsed_seconds : option Q;
  cooldown_start_time : option Q;
  cooldown_elapsed_seconds : option Q;
  cooldown_remaining_seconds : option Q
}.

(** A start time that is [None] or [0.0] is falsy: its keys are not added. *)
Definition truthy_time (start : option Q) : option Q :=
  match start with
  | None => None
  | Some t => if Qeq_bool t 0 then None else Some t
  end.

Definition Qmax (x y : Q) : Q := if Qle_bool x y then y else x.

(** [AgentLock.get_status]: it reads the attributes and writes none, so the
    guard after the call is the guard before it. *)
Definition get_status (now : Q) (self : AgentLock) : status :=
  {| is_locked := _is_agent_working self || _is_cooldown self;
     status_is_agent_working := _is_agent_working self;
     status_is_cooldown := _is_cooldown self;
     current_task_id := _current_task_id self;
     agent_start_time := truthy_time (_agent_start_time self);
     agent_elapsed_seconds :=
       (fun t => now - t)%Q <$> truthy_time (_agent_start_time self);
     cooldown_start_time := truthy_time (_cooldown_start_time self);
     cooldown_elapsed_seconds :=
       (fun t => now - t)%Q <$> truthy_time (_cooldown_start_time self);
     cooldown_remaining_seconds :=
       (fun t => Qmax 0 (_cooldown_seconds self - (now - t)))%Q
         <$> truthy_time (_cooldown_start_time self) |}.

(** One guard operation, with the clock reading at which it runs. *)
Inductive op :=
| Acquire (now : Q) (task_id : option string)
| Release (now : Q) (task_id : option string)
| IsAgentWorking (now : Q)
| GetStatus (now : Q).

Definition op_time (o : op) : Q :=
  match o with
  | Acquire now _ | Release now _ | IsAgentWorking now | GetStatus now => now
  end.

Definition step (self : AgentLock) (o : op) : AgentLock :=
  match o with
  | Acquire now task_id => snd (acquire_agent_lock now task_id self)
  | Release now task_id => release_agent_lock now task_id self
  | IsAgentWorking now => snd (is_agent_working now self)
  | GetStatus _ => self
  end.

(** The guard after a sequence of operations. *)
Definition run (ops : list op) (self : AgentLock) : AgentLock :=
  fold_left step ops self.

(** The three states of the specification, read off the two flags. *)
Inductive phase := Idle | Working | Cooldown.

Definition in_phase (self : AgentLock) (p : phase) : Prop :=
  match p with
  | Idle => _is_agent_working self = false ∧ _is_cooldown self = false
  | Working => _is_agent_working self = true ∧ _is_cooldown self = false
  | Cooldown => _is_agent_working self = false ∧ _is_cooldown self = true
  end.

(** A guard the process can be in: the global instance after some
    operations.  The clock is past the epoch, so no reading is [0.0]. *)
Definition reachable (self : AgentLock) : Prop :=
  ∃ ops, Forall (fun o => (0 < op_time o)%Q) ops ∧ self = run ops init.

(** The two flags are never set together. *)
Definition exclusive (g : AgentLock) : Prop :=
  _is_agent_working g && _is_cooldown g = false.

(** What every guard of the process satisfies: the flags exclude each
    other, a set flag comes with a start time that is a clock reading, and
    the two limits are those of [__init__]. *)
Record guard_ok (g : AgentLock) : Prop := {
  ok_exclusive : exclusive g;
  ok_working : _is_agent_working g = true →
               ∃ t, _agent_start_time g = Some t ∧ ¬ (t == 0)%Q;
  ok_cooldown : _is_cooldown g = true →
                ∃ t, _cooldown_start_time g = Some t ∧ ¬ (t == 0)%Q;
  ok_timeout : _timeout_seconds g = 300%Q;
  ok_cooldown_seconds : _cooldown_seconds g = 3%Q
}.

(** An idle guard has no holder on record. *)
Definition idle_unheld (g : AgentLock) : Prop :=
  _is_agent_working g = false → _is_cooldown g = false → _current_task_id g = None.

End agent_lock.

(** ** google_calendar.py *)
Module google_calendar.

(** A datetime is an instant: microseconds since 1970-01-01 00:00 UTC (the
    resolution of Python's [datetime]).  Aware datetimes are compared by
    instant, whatever their offsets, and the round trip through [isoformat]
    and [isoparse] keeps the instant. *)
Definition datetime := Z.

(** The configured timezone, [pytz.timezone(_get_timezone())]: the UTC
    offset, in microseconds, that [astimezone(israel_tz)] finds in force at
    an instant. *)
Definition timezone := datetime → Z.

(** The reading of a clock: microseconds since 1970-01-01 00:00 on that
    clock.  An aware datetime with UTC offset [o] at the instant [t] reads
    [t + o]; [replace], [weekday] and [strftime] read and write the clock,
    and keep the [tzinfo], hence the offset, of the datetime they are applied
    to. *)
Definition wall_clock := Z.

(** The clock of the zone itself at an instant, as [astimezone(israel_tz)]
    shows it. *)
Definition local_time (utcoffset : timezone) (t : datetime) : wall_clock :=
  t + utcoffset t.

(** A busy or free interval: the tuple [(start_dt, end_dt)], or the dict with
    the keys ['start'] and ['end']. *)
Definition interval := (datetime * datetime)%type.

(** The order of [busy_intervals.sort()]: tuples compare lexicographically. *)
Definition tuple_le (a b : interval) : Prop :=
  a.1 < b.1 ∨ (a.1 = b.1 ∧ a.2 ≤ b.2).

#[global] Instance tuple_le_dec : RelDecision tuple_le.
Proof. intros a b. unfold tuple_le. apply _. Defined.

(** One turn of the merging loop of [get_free_intervals]. *)
Definition merge_step (merged : list interval) (iv : interval) : list interval :=
  match last merged with
  | None => merged ++ [iv]
  | Some last =>
      if bool_decide (iv.1 ≤ last.2)
      then <[pred (length merged) := (last.1, Z.max last.2 iv.2)]> merged
      else merged ++ [iv]
  end.

(** [busy_intervals.sort()] followed by the merging loop. *)
Definition merge_busy (busy_intervals : list interval) : list interval :=
  fold_left merge_step (merge_sort tuple_le busy_intervals) [].

(** One turn of the subtraction loop: the state is [(free_intervals, current)]. *)
Definition free_step (st : list interval * datetime) (busy : interval)
  : list interval * datetime :=
  ((if bool_decide (st.2 < busy.1) then st.1 ++ [(st.2, busy.1)] else st.1),
   Z.max st.2 busy.2).

(** The subtraction loop and the final gap. *)
Definition subtract_busy (interval_start interval_end : datetime) (merged : list interval)
  : list interval :=
  let st := fold_left free_step merged ([], interval_start) in
  if bool_decide (st.2 < interval_end) then st.1 ++ [(st.2, interval_end)] else st.1.

(** [get_free_intervals], from the normalised bounds and the busy intervals
    fetched from the accounts (the fetch is the calendar-read capability). *)
Definition get_free_intervals (interval_start interval_end : datetime)
    (busy_intervals : list interval) : list interval :=
  subtract_busy interval_start interval_end (merge_busy busy_intervals).

(** The subtraction in the words of the specification: walk the busy
    intervals in order with a cursor, emit the gap before each one, move the
    cursor to the maximum of the cursor and the busy end, and emit the final
    gap up to the end when it is positive. *)
Fixpoint walk_gaps (cursor interval_end : datetime) (busy : list interval) : list interval :=
  match busy with
  | [] => if bool_decide (cursor < interval_end) then [(cursor, interval_end)] else []
  | b :: rest =>
      (if bool_decide (cursor < b.1) then [(cursor, b.1)] else [])
        ++ walk_gaps (Z.max cursor b.2) interval_end rest
  end.

(** Membership of an instant in a half-open interval. *)
Definition contains (t : datetime) (iv : interval) : bool :=
  bool_decide (iv.1 ≤ t) && bool_decide (t < iv.2).

(** How many intervals of a list hold the instant. *)
Definition cover_count (t : datetime) (ivs : list interval) : nat :=
  length (filter (fun iv => contains t iv = true) ivs).

(** *** Activity Hours *)

Definition us_per_day : Z := 86400000000.

(** [dt.replace(hour=0, minute=0, second=0, microsecond=0)] *)
Definition day_start (dt : wall_clock) : wall_clock := dt `div` us_per_day * us_per_day.

(** [dt.replace(hour=h, minute=m, second=0, microsecond=0)] *)
Definition replace_hm (dt : wall_clock) (h m : Z) : wall_clock :=
  day_start dt + (h * 3600 + m * 60) * 1000000.

(** [dt.replace(hour=23, minute=59, second=59, microsecond=999999)] *)
Definition end_of_day (dt : wall_clock) : wall_clock := day_start dt + (us_per_day - 1).

(** [(dt + timedelta(days=1)).replace(hour=0, minute=0, second=0, microsecond=0)]:
    the sum of an aware datetime and a [timedelta] moves the clock and keeps
    the [tzinfo]. *)
Definition next_midnight (dt : wall_clock) : wall_clock := day_start (dt + us_per_day).

(** [dt.weekday()]: Monday is 0; 1970-01-01 was a Thursday. *)
Definition weekday (dt : wall_clock) : Z := (dt `div` us_per_day + 3) `mod` 7.

Definition day_names : list string :=
  ["monday"; "tuesday"; "wednesday"; "thursday"; "friday"; "saturday"; "sunday"].

(** [dt.strftime('%A').lower()] *)
Definition day_name (dt : wall_clock) : string :=
  default "monday" (day_names !! Z.to_nat (weekday dt)).

(** The result of [datetime.strptime(s, '%H:%M').time()]. *)
Record time := mkTime { hour : Z; minute : Z }.

(** One day's entry of the Activity Hours settings, with its ['start'] and
    ['end'] strings as [strptime] parses them. *)
Record day_hours := mkDayHours { dh_start : time; dh_end : time }.

(** What [strptime] with ['%H:%M'] can return. *)
Definition valid_time (t : time) : Prop := 0 ≤ hour t < 24 ∧ 0 ≤ minute t < 60.

(** The Activity Hours of one todo list: day name to hours; a day that is
    missing or [None] has no entry. *)
Abbreviation activity_hours_t := (gmap string day_hours).

(** The body of [while current_dt < end_dt] for one day.  Every datetime of
    the loop but [end_dt] is made from [start_dt] by [replace] and
    [+ timedelta], so it carries the UTC offset that [start_dt] got from
    [astimezone(israel_tz)]: [current_dt] and the datetimes made here are
    readings of the clock of that one offset.  [end_dt] enters only through
    [<] and [min], which compare instants, and is given as the reading of its
    instant on the same clock; so are the two ends of a segment. *)
Definition day_segment (activity_hours : activity_hours_t) (current_dt end_dt : wall_clock)
  : list interval :=
  let day_end := end_of_day current_dt in
  let interval_end_for_day := Z.min end_dt day_end in
  match activity_hours !! day_name current_dt with
  | Some day_hours =>
      let work_start_dt := replace_hm current_dt (hour (dh_start day_hours)) (minute (dh_start day_hours)) in
      let work_end_dt := replace_hm current_dt (hour (dh_end day_hours)) (minute (dh_end day_hours)) in
      let filtered_start := Z.max current_dt work_start_dt in
      let filtered_end := Z.min interval_end_for_day work_end_dt in
      if bool_decide (filtered_start < filtered_end) then [(filtered_start, filtered_end)] else []
  | None => []
  end.

(** "Split interval by days and filter each day": the [while] loop, with the
    number of turns left as fuel. *)
Fixpoint split_by_days (fuel : nat) (activity_hours : activity_hours_t)
    (current_dt end_dt : wall_clock) : list interval :=
  match fuel with
  | O => []
  | S fuel' =>
      if bool_decide (current_dt < end_dt)
      then day_segment activity_hours current_dt end_dt
             ++ split_by_days fuel' activity_hours (next_midnight current_dt) end_dt
      else []
  end.

(** The loop over one free interval; it runs at most once per day that the
    interval touches.  [start_dt.astimezone(israel_tz)] has the offset in
    force at the start of the interval, the loop runs on the clock of that
    offset, also when the offset of the zone changes before the interval
    ends, and [isoformat] writes the instants of the segments. *)
Definition filter_interval (utcoffset : timezone) (activity_hours : activity_hours_t)
    (iv : interval) : list interval :=
  let offset := utcoffset iv.1 in
  (fun seg : interval => (seg.1 - offset, seg.2 - offset))
    <$> split_by_days (Z.to_nat ((iv.2 - iv.1) `div` us_per_day + 2)) activity_hours
          (iv.1 + offset) (iv.2 + offset).

(** "Normal Activity Hours filtering" *)
Definition filter_by_activity_hours (utcoffset : timezone) (activity_hours : activity_hours_t)
    (free_intervals : list interval) : list interval :=
  flat_map (filter_interval utcoffset activity_hours) free_intervals.

(** "Filter out past intervals - only keep future intervals" *)
Definition future_intervals (current_time : datetime) (free_intervals : list interval)
  : list interval :=
  flat_map (fun iv : interval =>
    if bool_decide (iv.2 ≤ current_time) then []
    else
      let start_dt := if bool_decide (iv.1 < current_time) then current_time else iv.1 in
      if bool_decide (start_dt < iv.2) then [(start_dt, iv.2)] else [])
    free_intervals.

Definition has_any_activity_hours (activity_hours : activity_hours_t) : bool :=
  existsb (fun day => bool_decide (is_Some (activity_hours !! day))) day_names.

(** The note added to the heading of the formatted text. *)
Inductive restrictions_note :=
| Overridden
| No_activity_hours_enabled
| Filtered
| No_restrictions.

(** The choice of [intervals_to_format] in
    [get_filtered_free_intervals_for_list], from the future free intervals. *)
Definition intervals_to_format (utcoffset : timezone)
    (configured_activity_hours : gmap string (gmap string day_hours))
    (override_activity_hours : bool) (todos_list : string) (free_intervals : list interval)
  : list interval * restrictions_note :=
  if override_activity_hours then (free_intervals, Overridden)
  else match configured_activity_hours !! todos_list with
       | Some activity_hours =>
           if has_any_activity_hours activity_hours
           then (filter_by_activity_hours utcoffset activity_hours free_intervals, Filtered)
           else (free_intervals, No_activity_hours_enabled)
       | None => (free_intervals, No_restrictions)
       end.

(** [get_filtered_free_intervals_for_list] up to the rendering as text. *)
Definition get_filtered_free_intervals_for_list (utcoffset : timezone)
    (configured_activity_hours : gmap string (gmap string day_hours))
    (current_time interval_start interval_end : datetime) (busy_intervals : list interval)
    (todos_list : string) (override_activity_hours : bool)
  : list interval * restrictions_note :=
  intervals_to_format utcoffset configured_activity_hours override_activity_hours todos_list
    (future_intervals current_time
       (get_free_intervals interval_start interval_end busy_intervals)).

(** Time of day of a clock reading and the microseconds of a [time] within
    a day. *)
Definition time_of_day (dt : wall_clock) : Z := dt - day_start dt.
Definition time_us (t : time) : Z := (hour t * 3600 + minute t * 60) * 1000000.

(** The clock reading lies in the allowed window of its own weekday. *)
Definition in_activity_hours (activity_hours : activity_hours_t) (t : wall_clock) : Prop :=
  ∃ day_hours, activity_hours !! day_name t = Some day_hours
    ∧ time_us (dh_start day_hours) ≤ time_of_day t < time_us (dh_end day_hours).

(** Asia/Jerusalem, the zone of the settings, around the start of daylight
    saving time in 2025: UTC+2 until Friday 28 March, 02:00 on the clock
    (00:00 UTC), and UTC+3 from then on. *)
Definition us_per_hour : Z := 3600000000.
Definition dst_start_2025 : datetime := 1743120000000000.
Definition jerusalem_2025 : timezone := fun t =>
  if bool_decide (t < dst_start_2025) then 2 * us_per_hour else 3 * us_per_hour.

(** A zone whose offset never changes. *)
Definition fixed_offset (offset : Z) : timezone := fun _ => offset.

(** The merging loop as a recursion on the intervals still to come, with
    the last kept interval in hand. *)
Fixpoint merge_from (last : interval) (rest : list interval) : list interval :=
  match rest with
  | [] => [last]
  | iv :: rest' =>
      if bool_decide (iv.1 ≤ last.2)
      then merge_from (last.1, Z.max last.2 iv.2) rest'
      else last :: merge_from iv rest'
  end.

(** Intervals in chronological order with a gap between neighbours, all
    after [prev_end] when there is one. *)
Fixpoint separated (prev_end : option datetime) (l : list interval) : Prop :=
  match l with
  | [] => True
  | iv :: rest =>
      from_option (fun e => e < iv.1) True prev_end
      ∧ iv.1 ≤ iv.2
      ∧ separated (Some iv.2) rest
  end.

(** Some interval of the list holds the instant. *)
Definition covered (t : datetime) (ivs : list interval) : Prop :=
  ∃ iv, iv ∈ ivs ∧ contains t iv = true.

End google_calendar.

(** ** task_processor.py *)
Module task_processor.
Import agent_lock.

(** *** Task data *)

(** A JSON scalar inside the [due] and [duration] objects.  Scalars of
    different types are different values here (Python equates [True] and
    [1]). *)
Inductive scalar :=
| SNone
| SBool (b : bool)
| SInt (n : Z)
| SStr (s : string).

#[global] Instance scalar_eq_dec : EqDecision scalar.
Proof. solve_decision. Defined.

(** The task dict that [extract_task_data] builds from a Todoist event
    (also the shape of [old_item]), with the types of the Todoist schema.
    A field is [None] when the key is missing or holds [None]; the keys
    that the handlers read with a default are always present in the dicts
    the transport layer builds, so there the default never applies. *)
Record item := mkItem {
  event_name : option string;
  content : option string;
  id : option string;
  checked : option bool;
  description : option string;
  due : option (gmap string scalar);
  duration : option (gmap string scalar);
  labels : option (list string);
  priority : option Z;
  project_id : option string;
  section_id : option string;
  todos_list_override : option string
}.

(** [task_data]: the current item, and ["old_item"] when the event carries
    one (a dict then).  [cur] is
    [{k: v for k, v in task_data.items() if k != "old_item"}]. *)
Record task_data := mkTaskData {
  cur : item;
  old_item : option item
}.

(** A field value as [dict.get] returns it. *)
Inductive value :=
| VNone
| VBool (b : bool)
| VInt (n : Z)
| VStr (s : string)
| VList (l : list string)
| VDict (d : gmap string scalar).

#[global] Instance value_eq_dec : EqDecision value.
Proof. solve_decision. Defined.

Definition of_option {A} (f : A → value) (o : option A) : value :=
  match o with
  | Some a => f a
  | None => VNone
  end.

(** [data.get(field)] for the tracked fields. *)
Definition get (data : item) (field : string) : value :=
  if String.eqb field "content" then of_option VStr (content data)
  else if String.eqb field "due" then of_option VDict (due data)
  else if String.eqb field "duration" then of_option VDict (duration data)
  else if String.eqb field "priority" then of_option VInt (priority data)
  else if String.eqb field "labels" then of_option VList (labels data)
  else if String.eqb field "description" then of_option VStr (description data)
  else if String.eqb field "project_id" then of_option VStr (project_id data)
  else if String.eqb field "section_id" then of_option VStr (section_id data)
  else if String.eqb field "checked" then of_option VBool (checked data)
  else VNone.

(** Python truthiness. *)
Definition truthy_str (o : option string) : bool :=
  match o with
  | Some s => negb (String.eqb s "")
  | None => false
  end.

Definition truthy_scalar (v : scalar) : bool :=
  match v with
  | SNone => false
  | SBool b => b
  | SInt n => negb (n =? 0)
  | SStr s => negb (String.eqb s "")
  end.

Definition truthy_dict (o : option (gmap string scalar)) : bool :=
  match o with
  | Some d => negb (bool_decide (d = ∅))
  | None => false
  end.

(** *** has_manual_scheduled_label *)

Definition manual_scheduled_variants : list string :=
  ["Manual Scheduled"; "manual scheduled"; "Manual scheduled"; "manual_scheduled"; "ManualScheduled"].

Definition has_manual_scheduled_label (task_data : item) : bool :=
  match labels task_data with
  | None | Some [] => false
  | Some labels => existsb (fun label => bool_decide (label ∈ manual_scheduled_variants)) labels
  end.

(** *** analyze_task_changes *)

(** [priority_names.get(v, f"Priority {v}")] *)
Inductive priority_label :=
| Priority_name (name : string)
| Priority_other (v : option Z).

Definition priority_names (v : option Z) : priority_label :=
  match v with
  | Some 1 => Priority_name "Low"
  | Some 2 => Priority_name "Normal"
  | Some 3 => Priority_name "High"
  | Some 4 => Priority_name "Urgent"
  | _ => Priority_other v
  end.

(** The lines of [change_summary], one constructor per f-string. *)
Inductive summary_line :=
| Due_date_added (due_str : scalar)
| Due_date_removed
| Due_date_changed (old_str new_str : scalar)
| Duration_added (amount unit : scalar)
| Duration_removed
| Duration_changed (old_amount old_unit new_amount new_unit : scalar)
| Title_changed (old_value new_value : option string)
| Priority_changed (old_name new_name : priority_label)
| Labels_added (added_labels : gset string)
| Labels_removed (removed_labels : gset string)
| Description_added
| Description_removed
| Description_modified
| Task_completed
| Task_reopened
| Field_changed (field_description : string) (old_value new_value : value).

Record change_detail := mkDetail {
  old_value : value;
  new_value : value;
  detail_description : string
}.

(** The dict [changes] that [analyze_task_changes] fills and returns. *)
Record change_analysis := mkChanges {
  has_changes : bool;
  fields_changed : list string;
  change_details : gmap string change_detail;
  change_summary : list summary_line;
  significant_changes : list string
}.

Definition important_fields : list (string * string) :=
  [("content", "Task title/content");
   ("due", "Due date");
   ("duration", "Duration");
   ("priority", "Priority");
   ("labels", "Labels");
   ("description", "Description");
   ("project_id", "Project");
   ("section_id", "Section");
   ("checked", "Completion status")].

(** [d.get(key, default)] on a [due] or [duration] object. *)
Definition dict_get (d : gmap string scalar) (key : string) (dflt : scalar) : scalar :=
  default dflt (d !! key).

Definition truthy_bool (o : option bool) : bool := default false o.

(** "Create human-readable change summary": the lines and the tags that the
    branch of a changed field appends. *)
Definition describe_change (field field_description : string) (current_data old_data : item)
  : list summary_line * list string :=
  if String.eqb field "due" then
    match due old_data, due current_data with
    | None, Some new_value =>
        ([Due_date_added (dict_get new_value "string" (SStr "Unknown"))], ["due_date_added"])
    | Some _, None => ([Due_date_removed], ["due_date_removed"])
    | Some old_value, Some new_value =>
        ([Due_date_changed (dict_get old_value "string" (SStr "Unknown"))
                           (dict_get new_value "string" (SStr "Unknown"))],
         ["due_date_changed"])
    | None, None => ([], [])
    end
  else if String.eqb field "duration" then
    match duration old_data, duration current_data with
    | None, Some new_value =>
        ([Duration_added (dict_get new_value "amount" (SStr "?"))
                         (dict_get new_value "unit" (SStr "minutes"))],
         ["duration_added"])
    | Some _, None => ([Duration_removed], ["duration_removed"])
    | Some old_value, Some new_value =>
        ([Duration_changed (dict_get old_value "amount" (SStr "?"))
                           (dict_get old_value "unit" (SStr "minutes"))
                           (dict_get new_value "amount" (SStr "?"))
                           (dict_get new_value "unit" (SStr "minutes"))],
         ["duration_changed"])
    | None, None => ([], [])
    end
  else if String.eqb field "content" then
    ([Title_changed (content old_data) (content current_data)], ["title_changed"])
  else if String.eqb field "priority" then
    ([Priority_changed (priority_names (priority old_data))
                       (priority_names (priority current_data))],
     ["priority_changed"])
  else if String.eqb field "labels" then
    let old_labels := default [] (labels old_data) in
    let new_labels := default [] (labels current_data) in
    let added_labels : gset string := list_to_set new_labels ∖ list_to_set old_labels in
    let removed_labels : gset string := list_to_set old_labels ∖ list_to_set new_labels in
    ((if bool_decide (added_labels ≠ ∅) then [Labels_added added_labels] else [])
       ++ (if bool_decide (removed_labels ≠ ∅) then [Labels_removed removed_labels] else []),
     if bool_decide (added_labels ≠ ∅) || bool_decide (removed_labels ≠ ∅)
     then ["labels_changed"] else [])
  else if String.eqb field "description" then
    let old_value := description old_data in
    let new_value := description current_data in
    ([if bool_decide (old_value = Some "") && negb (bool_decide (new_value = Some ""))
      then Description_added
      else if negb (bool_decide (old_value = Some "")) && bool_decide (new_value = Some "")
      then Description_removed
      else Description_modified],
     ["description_changed"])
  else if String.eqb field "checked" then
    let old_value := truthy_bool (checked old_data) in
    let new_value := truthy_bool (checked current_data) in
    if new_value && negb old_value then ([Task_completed], ["task_completed"])
    else if negb new_value && old_value then ([Task_reopened], ["task_reopened"])
    else ([], [])
  else
    ([Field_changed field_description (get old_data field) (get current_data field)], []).

(** The body of [for field, field_description in important_fields.items()]. *)
Definition analyze_field (current_data old_data : item) (changes : change_analysis)
    (fd : string * string) : change_analysis :=
  let field := fd.1 in
  let field_description := fd.2 in
  let old_value := get old_data field in
  let new_value := get current_data field in
  if bool_decide (old_value ≠ new_value) then
    let described := describe_change field field_description current_data old_data in
    {| has_changes := true;
       fields_changed := fields_changed changes ++ [field];
       change_details :=
         <[field := mkDetail old_value new_value field_description]> (change_details changes);
       change_summary := change_summary changes ++ described.1;
       significant_changes := significant_changes changes ++ described.2 |}
  else changes.

Definition no_changes : change_analysis :=
  {| has_changes := false;
     fields_changed := [];
     change_details := ∅;
     change_summary := [];
     significant_changes := [] |}.

Definition analyze_task_changes (current_data old_data : item) : change_analysis :=
  fold_left (analyze_field current_data old_data) important_fields no_changes.

(** *** Collaborators *)

(** One list's entry of the ["auto_scheduling_priority"] settings: the old
    format is a bare number, the new one a dict whose keys may be missing. *)
Inductive list_setting :=
| Old_format (old_priority : Z)
| New_format (min_priority : option Z) (enabled : option bool).

(** The parts of [config_manager.load_settings()] that the handlers read. *)
Record settings := mkSettings {
  auto_scheduling_priority : gmap string list_setting;
  project_mappings : gmap string string
}.

(** What the handlers call outside this module.  [config_manager] and
    [central_logger] are not part of the sources; the planner, the
    categorizer and the Todoist client are network calls.  The settings are
    those on file while one event is handled. *)
Record Env := mkEnv {
  (** [config_manager.load_settings()] *)
  load_settings : outcome settings;
  (** [config_manager.should_auto_schedule_task(priority, todos_list)] *)
  should_auto_schedule_task : option Z → string → outcome bool;
  (** [master_agent.schedule_initial_tasks_agent(task_data)] *)
  schedule_initial_tasks_agent : task_data → outcome string;
  (** the seconds that the planner call takes *)
  planner_seconds : task_data → Q;
  (** [autocategorizer.autocategorize_task(task_data)] *)
  autocategorize_task : item → outcome string;
  (** [todoist.remove_task_scheduling(task_id)] *)
  remove_task_scheduling : string → outcome string;
  (** [todoist.get_task_details(task_id)] *)
  get_task_details : option string → outcome item;
  (** [mapped_project_id] after the Todoist id-mapping request for a numeric
      project id: the id itself when the request fails or lists no mapping *)
  map_project_id : string → option string;
  (** [datetime.fromisoformat] of a due date, read as seconds since the
      epoch; [None] when it raises *)
  parse_due : string → option Q
}.

(** *** should_auto_schedule_by_priority *)

(** [api_priority_names.get(p, f"API Priority {p}")] *)
Inductive api_priority_label :=
| Api_priority_name (name : string)
| Api_priority_other (p : Z).

Definition api_priority_names (p : Z) : api_priority_label :=
  match p with
  | 4 => Api_priority_name "Urgent (P1)"
  | 3 => Api_priority_name "High (P2)"
  | 2 => Api_priority_name "Normal (P3)"
  | 1 => Api_priority_name "Low (P4)"
  | _ => Api_priority_other p
  end.

(** The reason string returned with the decision. *)
Inductive priority_reason :=
| Meets_threshold (effective_priority : Z) (todos_list : string)
| Auto_scheduling_disabled (todos_list : string)
| Below_threshold (effective_priority : Z) (current_name threshold_name : api_priority_label)
    (todos_list : string)
| Priority_check_failed (effective_priority : Z) (error : string).

Definition should_auto_schedule_by_priority (env : Env) (task_data : item) (todos_list : string)
  : bool * priority_reason :=
  let priority := priority task_data in
  let effective_priority := default 1 priority in
  match should_auto_schedule_task env priority todos_list with
  | Returns true => (true, Meets_threshold effective_priority todos_list)
  | Returns false =>
      match load_settings env with
      | Returns settings =>
          let list_settings :=
            default (New_format None None) (auto_scheduling_priority settings !! todos_list) in
          let threshold :=
            match list_settings with
            | Old_format old_priority => 5 - old_priority
            | New_format min_priority _ => default 1 min_priority
            end in
          let is_enabled :=
            match list_settings with
            | Old_format _ => true
            | New_format _ enabled => default true enabled
            end in
          if negb is_enabled then (false, Auto_scheduling_disabled todos_list)
          else (false, Below_threshold effective_priority (api_priority_names effective_priority)
                         (api_priority_names threshold) todos_list)
      | Raises e => (true, Priority_check_failed effective_priority (exn_str e))
      end
  | Raises e => (true, Priority_check_failed effective_priority (exn_str e))
  end.

(** [google_calendar.get_todos_list_from_project_id]: it re-raises what
    [load_settings] raises. *)
Definition get_todos_list_from_project_id (env : Env) (project_id : string)
  : outcome (option string) :=
  match load_settings env with
  | Returns settings => Returns (project_mappings settings !! project_id)
  | Raises e => Raises e
  end.

(** *** Messages *)

(** [reschedule_reason] in [handle_task_updated]. *)
Inductive reschedule_reason :=
| Priority_changed_from (old_name new_name : priority_label)
| Overdue_with_duration (due : Q) (duration_minutes : Z) (task_end : Q) (now : Q)
| Overdue_no_duration (due : Q) (now : Q).

(** The strings that the handlers return and log, one constructor per
    f-string.  [Updated_and_rescheduled] shows the last meaningful line of
    the agent's answer. *)
Inductive message :=
| Text (s : string)
| Added_manually_scheduled (task_content : option string)
| Added_no_project_id (task_content : option string)
| Added_no_mapping (task_content : option string) (project_id : string)
| Added_priority_skipped (task_content : option string) (reason : priority_reason)
| Added_scheduled (agent_result : string)
| Added_failed (error : string)
| Categorize_failed (error : string)
| Update_manually_scheduled (task_content : option string)
| Update_rescheduling_skipped (reason : priority_reason) (change_summary : list summary_line)
| Updated_and_rescheduled (reason : option reschedule_reason)
    (change_summary : list summary_line) (agent_result : string)
| Update_rescheduling_failed (change_summary : list summary_line) (error : string)
| Updated_priority_no_reschedule (change_summary : list summary_line)
| Updated_not_overdue (change_summary : list summary_line)
| Update_no_changes
| Update_no_old_item
| Completion_processed (remove_result : string)
| Completion_no_task_id
| Deletion_processed
| Calendar_task_not_found (task_id : option string) (error : string)
| Calendar_fetch_failed (error : string)
| Calendar_manually_scheduled (task_content : option string)
| Calendar_no_project_id (task_id : option string)
| Calendar_no_mapping (project_id : string)
| Calendar_priority_skipped (task_content : option string) (reason : priority_reason)
| Calendar_rescheduled (agent_result : string)
| Calendar_failed (error : string)
| Unknown_event (event_name : string)
| Processing_failed (error : string).

(** *** The world of a handler *)

(** What a handler does to the outside, in order. *)
Inductive event :=
| Trigger_received (trigger_type : string)
| Task_action (action : string) (msg : message)
| Lock_acquire (task_id : option string) (result : outcome bool)
| Lock_release (task_id : option string)
| Planner_call (task_data : task_data)
| Scheduling_removed (task_id : string).

(** The global [agent_lock], the clock, and the trace of effects. *)
Record world := mkWorld {
  lock : AgentLock;
  now : Q;
  trace : list event
}.

Definition set_lock (l : AgentLock) (w : world) : world :=
  {| lock := l; now := now w; trace := trace w |}.

Definition add_event (e : event) (w : world) : world :=
  {| lock := lock w; now := now w; trace := trace w ++ [e] |}.

Definition advance (dt : Q) (w : world) : world :=
  {| lock := lock w; now := (now w + dt)%Q; trace := trace w |}.

(** A handler: a state transformer that returns or raises. *)
Definition M (A : Type) : Type := world → outcome A * world.

Definition ret {A} (a : A) : M A := fun w => (Returns a, w).

Definition raise {A} (e : exn) : M A := fun w => (Raises e, w).

Definition bind {A B} (m : M A) (k : A → M B) : M B :=
  fun w =>
    match m w with
    | (Returns a, w') => k a w'
    | (Raises e, w') => (Raises e, w')
    end.

(** [try: m  except Exception as e: h e] *)
Definition try_except {A} (m : M A) (h : exn → M A) : M A :=
  fun w =>
    match m w with
    | (Returns a, w') => (Returns a, w')
    | (Raises e, w') => h e w'
    end.

Definition lift {A} (o : outcome A) : M A := fun w => (o, w).

Definition emit (e : event) : M unit := fun w => (Returns tt, add_event e w).

Notation "'let*' x ':=' m 'in' k" := (bind m (fun x => k))
  (at level 10, x name, m at level 100, k at level 200, only parsing).
Notation "m >> k" := (bind m (fun _ => k))
  (at level 90, right associativity, only parsing).

(** [central_logger.log_task_action]; the logger is taken not to raise. *)
Definition log_task_action (action : string) (msg : message) : M unit :=
  emit (Task_action action msg).

(** [central_logger.log_trigger_received] *)
Definition log_trigger_received (trigger_type : string) : M unit :=
  emit (Trigger_received trigger_type).

(** [str(x)] for a string or [None]. *)
Definition str_opt (o : option string) : string := default "None" o.

(** [async with agent_working(task_id, operation): body].  [__aenter__]
    raises when the lock is not acquired; [__aexit__] releases on every way
    out of the body and lets an exception of the body through. *)
Definition agent_working {A} (task_id : option string) (body : M A) : M A :=
  fun w =>
    let r := acquire_agent_lock (now w) task_id (lock w) in
    let w1 := add_event (Lock_acquire task_id r.1) (set_lock r.2 w) in
    match r.1 with
    | Returns true =>
        let b := body w1 in
        (b.1, add_event (Lock_release task_id)
                (set_lock (release_agent_lock (now b.2) task_id (lock b.2)) b.2))
    | Returns false =>
        (Raises (Exception ("Agent is busy, cannot process task " +:+ str_opt task_id)), w1)
    | Raises e => (Raises e, w1)
    end.

(** The planner call: it takes time. *)
Definition call_planner (env : Env) (task_data : task_data) : M string :=
  fun w =>
    (schedule_initial_tasks_agent env task_data,
     advance (planner_seconds env task_data) (add_event (Planner_call task_data) w)).

(** *** handle_task_updated *)

Definition Qltb (x y : Q) : bool := negb (Qle_bool y x).

(** A JSON number as Python arithmetic takes it ([bool] is an [int]). *)
Definition scalar_number (v : scalar) : option Z :=
  match v with
  | SInt n => Some n
  | SBool b => Some (if b then 1 else 0)
  | _ => None
  end.

(** "Convert duration to minutes", for a [duration] object: [None] when
    [timedelta(minutes=duration_minutes)] raises a [TypeError]. *)
Definition duration_minutes (duration : gmap string scalar) : option Z :=
  let duration_amount := dict_get duration "amount" (SInt 0) in
  let duration_unit := dict_get duration "unit" (SStr "minute") in
  if bool_decide (duration_unit = SStr "minute") then scalar_number duration_amount
  else if bool_decide (duration_unit = SStr "hour")
  then (fun n => n * 60) <$> scalar_number duration_amount
  else if bool_decide (duration_unit = SStr "day")
  then (fun n => n * 24 * 60) <$> scalar_number duration_amount
  else Some 0.

(** [due_date_local + timedelta(minutes=m)], in seconds. *)
Definition add_minutes (t : Q) (m : Z) : Q := (t + inject_Z (m * 60))%Q.

(** "Check if task has a due date and if it's overdue": the value of
    [(should_reschedule, reschedule_reason)] after the block.  Whatever is
    raised inside its [try] leaves [should_reschedule] false.  Datetimes
    are unbounded here (Python's end with the year 9999). *)
Definition overdue_check (env : Env) (now_local : Q) (task_data : item)
  : bool * option reschedule_reason :=
  match due task_data with
  | Some current_due =>
      if truthy_dict (Some current_due) then
        let due_date_str := dict_get current_due "date" SNone in
        if truthy_scalar due_date_str then
          match due_date_str with
          | SStr s =>
              match parse_due env s with
              | Some due_date_local =>
                  if truthy_dict (duration task_data) then
                    match duration_minutes (default ∅ (duration task_data)) with
                    | Some m =>
                        let task_end_time := add_minutes due_date_local m in
                        if Qltb task_end_time now_local
                        then (true,
                              Some (if 0 <? m
                                    then Overdue_with_duration due_date_local m task_end_time now_local
                                    else Overdue_no_duration due_date_local now_local))
                        else (false, None)
                    | None => (false, None)
                    end
                  else if Qltb due_date_local now_local
                  then (true, Some (Overdue_no_duration due_date_local now_local))
                  else (false, None)
              | None => (false, None)
              end
          | _ => (false, None)
          end
        else (false, None)
      else (false, None)
  | None => (false, None)
  end.

(** "Determine if we should trigger rescheduling": the value of
    [(should_reschedule, reschedule_reason)] before [if should_reschedule]. *)
Definition reschedule_decision (env : Env) (now_local : Q) (task_data old_item : item)
    (priority_changed : bool) : bool * option reschedule_reason :=
  if priority_changed then
    (true,
     Some (Priority_changed_from (priority_names (Some (default 1 (priority old_item))))
                                 (priority_names (Some (default 1 (priority task_data))))))
  else overdue_check env now_local task_data.

(** [task_data['todos_list_override'] = todos_list] *)
Definition set_todos_list_override (todos_list : string) (data : item) : item :=
  {| event_name := event_name data; content := content data; id := id data;
     checked := checked data; description := description data; due := due data;
     duration := duration data; labels := labels data; priority := priority data;
     project_id := project_id data; section_id := section_id data;
     todos_list_override := Some todos_list |}.

(** The body of [async with agent_working(task_id, "rescheduling task")]:
    without a project or a mapping it falls through, and the handler then
    returns [None]. *)
Definition reschedule_body (env : Env) (task_data : task_data)
    (change_summary : list summary_line) (reason : option reschedule_reason)
  : M (option message) :=
  if truthy_str (project_id (cur task_data)) then
    let* todos_list :=
      lift (get_todos_list_from_project_id env (default "" (project_id (cur task_data)))) in
    if truthy_str todos_list then
      let todos_list := default "" todos_list in
      let gate := should_auto_schedule_by_priority env (cur task_data) todos_list in
      if negb gate.1 then
        let result_msg := Update_rescheduling_skipped gate.2 change_summary in
        log_task_action "skipped" result_msg >> ret (Some result_msg)
      else
        let task_data :=
          mkTaskData (set_todos_list_override todos_list (cur task_data)) (old_item task_data) in
        let* agent_result := call_planner env task_data in
        let result_msg := Updated_and_rescheduled reason change_summary agent_result in
        log_task_action "rescheduled" result_msg >> ret (Some result_msg)
    else ret None
  else ret None.

Definition handle_task_updated (env : Env) (task_data : task_data) : M (option message) :=
  let task_content := content (cur task_data) in
  let task_id := id (cur task_data) in
  if has_manual_scheduled_label (cur task_data) then
    let result_msg := Update_manually_scheduled task_content in
    log_task_action "skipped" result_msg >> ret (Some result_msg)
  else
    match old_item task_data with
    | Some old_item =>
        let change_analysis := analyze_task_changes (cur task_data) old_item in
        if has_changes change_analysis then
          let change_summary := change_summary change_analysis in
          let priority_changed :=
            bool_decide ("priority_changed" ∈ significant_changes change_analysis) in
          fun w =>
            let decision :=
              reschedule_decision env (now w) (cur task_data) old_item priority_changed in
            if decision.1 then
              try_except
                (agent_working task_id (reschedule_body env task_data change_summary decision.2))
                (fun e =>
                   let error_msg := Update_rescheduling_failed change_summary (exn_str e) in
                   log_task_action "failed" error_msg >> ret (Some error_msg))
                w
            else
              let result_msg :=
                if priority_changed then Updated_priority_no_reschedule change_summary
                else Updated_not_overdue change_summary in
              (log_task_action "ignored" result_msg >> ret (Some result_msg)) w
        else
          log_task_action "ignored" Update_no_changes >> ret (Some Update_no_changes)
    | None =>
        log_task_action "ignored" Update_no_old_item >> ret (Some Update_no_old_item)
    end.

(** *** The other handlers *)

(** [needle in haystack] on strings. *)
Fixpoint is_substring (needle haystack : string) : bool :=
  String.prefix needle haystack
  || match haystack with
     | EmptyString => false
     | String _ rest => is_substring needle rest
     end.

(** The scheduling step shared by the handlers of new tasks and of calendar
    events: planner call under the lock, failure turned into a message. *)
Definition schedule_under_lock (env : Env) (task_id : option string) (task_data : task_data)
    (done failed : string → message) : M (option message) :=
  try_except
    (agent_working task_id
       (let* agent_result := call_planner env task_data in
        let result_msg := done agent_result in
        log_task_action "rescheduled" result_msg >> ret (Some result_msg)))
    (fun e =>
       let error_msg := failed (exn_str e) in
       log_task_action "failed" error_msg >> ret (Some error_msg)).

Definition handle_task_added (env : Env) (task_data : task_data) : M (option message) :=
  let task_content := content (cur task_data) in
  let task_id := id (cur task_data) in
  let project_id := project_id (cur task_data) in
  let* categorized :=
    (if truthy_str project_id then
       try_except
         (let* result := lift (autocategorize_task env (cur task_data)) in
          if negb (is_substring "not configured for auto-categorization" result)
          then log_task_action "categorized" (Text result) >> ret (Some result)
          else ret None)
         (fun e => log_task_action "failed" (Categorize_failed (exn_str e)) >> ret None)
     else ret None) in
  match categorized with
  | Some result => ret (Some (Text result))
  | None =>
      if has_manual_scheduled_label (cur task_data) then
        let result_msg := Added_manually_scheduled task_content in
        log_task_action "skipped" result_msg >> ret (Some result_msg)
      else if negb (truthy_str project_id) then
        let result_msg := Added_no_project_id task_content in
        log_task_action "skipped" result_msg >> ret (Some result_msg)
      else
        let project_id := default "" project_id in
        let* todos_list := lift (get_todos_list_from_project_id env project_id) in
        if negb (truthy_str todos_list) then
          let result_msg := Added_no_mapping task_content project_id in
          log_task_action "skipped" result_msg >> ret (Some result_msg)
        else
          let gate :=
            should_auto_schedule_by_priority env (cur task_data) (default "" todos_list) in
          if negb gate.1 then
            let result_msg := Added_priority_skipped task_content gate.2 in
            log_task_action "skipped" result_msg >> ret (Some result_msg)
          else schedule_under_lock env task_id task_data Added_scheduled Added_failed
  end.

(** [await asyncio.sleep(0.1)] *)
Definition sleep_tenth : M unit := fun w => (Returns tt, advance (1 # 10) w).

Definition handle_task_completed (env : Env) (task_data : task_data) : M (option message) :=
  let task_id := id (cur task_data) in
  let* result_msg :=
    (if truthy_str task_id then
       let* remove_result := lift (remove_task_scheduling env (default "" task_id)) in
       emit (Scheduling_removed (default "" task_id)) >> ret (Completion_processed remove_result)
     else ret Completion_no_task_id) in
  sleep_tenth >> log_task_action "completed" result_msg >> ret (Some result_msg).

Definition handle_task_deleted (task_data : task_data) : M (option message) :=
  sleep_tenth >> log_task_action "deleted" Deletion_processed >> ret (Some Deletion_processed).

Definition handle_unknown_event (task_data : task_data) (event_name : string)
  : M (option message) :=
  let result_msg := Unknown_event event_name in
  log_task_action "ignored" result_msg >> ret (Some result_msg).

Definition is_digit_char (c : ascii) : bool :=
  (48 <=? nat_of_ascii c)%nat && (nat_of_ascii c <=? 57)%nat.

(** [s.isdigit()], for ASCII text. *)
Definition isdigit (s : string) : bool :=
  negb (String.eqb s "") && forallb is_digit_char (String.list_ascii_of_string s).

(** [enhanced_task_data] of [handle_calendar_reschedule]; the REST payload
    carries the completion flag in the place of [checked]. *)
Definition enhance (task_id task_content : option string) (complete_task_data : item) : item :=
  {| event_name := Some "calendar:event_end";
     content := match content complete_task_data with
                | Some c => Some c
                | None => task_content
                end;
     id := task_id;
     checked := Some (default false (checked complete_task_data));
     description := description complete_task_data;
     due := due complete_task_data;
     duration := duration complete_task_data;
     labels := Some (default [] (labels complete_task_data));
     priority := Some (default 1 (priority complete_task_data));
     project_id := project_id complete_task_data;
     section_id := section_id complete_task_data;
     todos_list_override := None |}.

Definition set_project_id (p : option string) (data : item) : item :=
  {| event_name := event_name data; content := content data; id := id data;
     checked := checked data; description := description data; due := due data;
     duration := duration data; labels := labels data; priority := priority data;
     project_id := p; section_id := section_id data;
     todos_list_override := todos_list_override data |}.

(** "Project ID enrichment: map numeric to string if needed" *)
Definition enrich_project_id (env : Env) (data : item) : item :=
  match project_id data with
  | Some p =>
      if truthy_str (Some p) && isdigit p then
        if bool_decide (map_project_id env p ≠ Some p)
        then set_project_id (map_project_id env p) data
        else data
      else data
  | None => data
  end.

Definition handle_calendar_reschedule (env : Env) (task_data : task_data)
  : M (option message) :=
  let task_id := id (cur task_data) in
  let task_content := content (cur task_data) in
  try_except
    (fun w =>
       match get_task_details env task_id with
       | Raises (ValueError m) =>
           let result_msg := Calendar_task_not_found task_id m in
           (log_task_action "failed" result_msg >> ret (Some result_msg)) w
       | Raises e =>
           let result_msg := Calendar_fetch_failed (exn_str e) in
           (log_task_action "failed" result_msg >> ret (Some result_msg)) w
       | Returns complete_task_data =>
           let enhanced_task_data := enhance task_id task_content complete_task_data in
           if has_manual_scheduled_label enhanced_task_data then
             let result_msg := Calendar_manually_scheduled task_content in
             (log_task_action "skipped" result_msg >> ret (Some result_msg)) w
           else
             let enhanced_task_data := enrich_project_id env enhanced_task_data in
             let project_id := project_id enhanced_task_data in
             if negb (truthy_str project_id) then
               let result_msg := Calendar_no_project_id task_id in
               (log_task_action "failed" result_msg >> ret (Some result_msg)) w
             else
               let project_id := default "" project_id in
               (let* todos_list := lift (get_todos_list_from_project_id env project_id) in
                if negb (truthy_str todos_list) then
                  let result_msg := Calendar_no_mapping project_id in
                  log_task_action "failed" result_msg >> ret (Some result_msg)
                else
                  let todos_list := default "" todos_list in
                  let enhanced_task_data :=
                    set_todos_list_override todos_list enhanced_task_data in
                  let gate :=
                    should_auto_schedule_by_priority env enhanced_task_data todos_list in
                  if negb gate.1 then
                    let result_msg := Calendar_priority_skipped task_content gate.2 in
                    log_task_action "skipped" result_msg >> ret (Some result_msg)
                  else
                    schedule_under_lock env task_id (mkTaskData enhanced_task_data None)
                      Calendar_rescheduled Calendar_failed) w
       end)
    (fun e =>
       let error_msg := Calendar_failed (exn_str e) in
       log_task_action "failed" error_msg >> ret (Some error_msg)).

(** *** router *)

(** The dict that [router] returns; [status] is its ["status"] key. *)
Inductive response :=
| Missing_event_name (processed_at : Q)
| Success (event_name : string) (task_id task_content : option string)
    (result : option message) (processed_at : Q)
| Error (event_name : string) (task_id : option string) (error : string) (processed_at : Q).

Definition status (r : response) : string :=
  match r with
  | Missing_event_name _ => "error"
  | Success _ _ _ _ _ => "success"
  | Error _ _ _ _ => "error"
  end.

(** [trigger_type_map.get(event_name, f"unknown_{event_name}")] *)
Definition trigger_type (event_name : string) : string :=
  if String.eqb event_name "item:added" then "task_created"
  else if String.eqb event_name "item:updated" then "task_updated"
  else if String.eqb event_name "item:completed" then "task_completed"
  else if String.eqb event_name "item:deleted" then "task_deleted"
  else if String.eqb event_name "calendar:event_end" then "calendar_event_end"
  else "unknown_" +:+ event_name.

(** "Route to the appropriate handler" *)
Definition dispatch (env : Env) (event_name : string) (task_data : task_data)
  : M (option message) :=
  if String.eqb event_name "item:added" then handle_task_added env task_data
  else if String.eqb event_name "item:updated" then handle_task_updated env task_data
  else if String.eqb event_name "item:completed" then handle_task_completed env task_data
  else if String.eqb event_name "item:deleted" then handle_task_deleted task_data
  else if String.eqb event_name "calendar:event_end" then handle_calendar_reschedule env task_data
  else handle_unknown_event task_data event_name.

Definition router (env : Env) (task_data : task_data) : M response :=
  if negb (truthy_str (event_name (cur task_data))) then
    fun w => (Returns (Missing_event_name (now w)), w)
  else
    let event_name := default "" (event_name (cur task_data)) in
    log_trigger_received (trigger_type event_name) >>
    try_except
      (let* result := dispatch env event_name task_data in
       fun w =>
         (Returns (Success event_name (id (cur task_data)) (content (cur task_data))
                     result (now w)), w))
      (fun e =>
         log_task_action "failed" (Processing_failed (exn_str e)) >>
         fun w => (Returns (Error event_name (id (cur task_data)) (exn_str e) (now w)), w)).

(** *** Notions used to state the properties *)

(** The contribution of one tracked field to the analysis. *)
Definition field_changed (current_data old_data : item) (fd : string * string) : bool :=
  bool_decide (get old_data fd.1 ≠ get current_data fd.1).

Definition field_lines (current_data old_data : item) (fd : string * string)
  : list summary_line :=
  if field_changed current_data old_data fd
  then (describe_change fd.1 fd.2 current_data old_data).1 else [].

Definition field_tags (current_data old_data : item) (fd : string * string) : list string :=
  if field_changed current_data old_data fd
  then (describe_change fd.1 fd.2 current_data old_data).2 else [].

(** A summary line about labels. *)
Definition is_labels_line (line : summary_line) : Prop :=
  match line with
  | Labels_added _ | Labels_removed _ => True
  | _ => False
  end.

(** The due moment of a task: the ['date'] of its due object, parsed. *)
Definition due_moment (env : Env) (task_data : item) : option Q :=
  match due task_data with
  | Some d =>
      match d !! "date" with
      | Some (SStr s) => if String.eqb s "" then None else parse_due env s
      | _ => None
      end
  | None => None
  end.

(** The duration of a task in minutes: none counts as 0; [None] when the
    duration object is malformed. *)
Definition task_duration (task_data : item) : option Z :=
  match duration task_data with
  | Some d => if bool_decide (d = ∅) then Some 0 else duration_minutes d
  | None => Some 0
  end.

(** Overdue: the due moment plus the duration is strictly before now. *)
Definition overdue (env : Env) (now_local : Q) (task_data : item) : Prop :=
  ∃ d m, due_moment env task_data = Some d
         ∧ task_duration task_data = Some m
         ∧ (add_minutes d m < now_local)%Q.

(** What the categorisation step of [handle_task_added] ends with: the
    categorizer's answer, when the task has a project, the categorizer
    returns, and its answer does not say that the project is not configured
    for it. *)
Definition categorized (env : Env) (data : item) : option string :=
  if truthy_str (project_id data) then
    match autocategorize_task env data with
    | Returns result =>
        if is_substring "not configured for auto-categorization" result then None
        else Some result
    | Raises _ => None
    end
  else None.

(** The computation only adds events to the trace. *)
Definition appends {A} (m : M A) : Prop :=
  ∀ w, ∃ evs, trace (m w).2 = trace w ++ evs.

(** A reschedule is attempted: the handler asks for the lock. *)
Definition reschedule_attempted (task_id : option string) (evs : list event) : Prop :=
  ∃ r, Lock_acquire task_id r ∈ evs.

Definition planner_called (evs : list event) : Prop :=
  ∃ task_data, Planner_call task_data ∈ evs.

(** Modelled from the spec: [config_manager.should_auto_schedule_task] is
    not among the sources.  "A task's effective priority (absent priority
    is 1) must meet or exceed the category's configured minimum-priority
    threshold, and that category's automation must be enabled"; the
    threshold and the flag are read as [should_auto_schedule_by_priority]
    reads them for its message. *)
Definition spec_should_auto_schedule_task (s : settings) (priority : option Z)
    (todos_list : string) : bool :=
  let effective_priority := default 1 priority in
  match default (New_format None None) (auto_scheduling_priority s !! todos_list) with
  | Old_format old_priority => bool_decide (5 - old_priority ≤ effective_priority)
  | New_format min_priority enabled =>
      default true enabled && bool_decide (default 1 min_priority ≤ effective_priority)
  end.

(** *** A concrete installation, for the scenarios *)

(** The list "work" asks for priority 3 (High) or more; project "P1" maps
    to it. *)
Definition work_settings : settings :=
  {| auto_scheduling_priority := {["work" := New_format (Some 3) (Some true)]};
     project_mappings := {["P1" := "work"]} |}.

Definition work_env : Env :=
  {| load_settings := Returns work_settings;
     should_auto_schedule_task :=
       fun priority todos_list =>
         Returns (spec_should_auto_schedule_task work_settings priority todos_list);
     schedule_initial_tasks_agent := fun _ => Returns "Task scheduled";
     planner_seconds := fun _ => 20%Q;
     autocategorize_task :=
       fun _ => Returns "Project is not configured for auto-categorization";
     remove_task_scheduling := fun _ => Returns "Scheduling removed";
     get_task_details := fun _ => Raises (ValueError "Task not found");
     map_project_id := fun p => Some p;
     parse_due := fun _ => None |}.

(** An installation whose settings cannot be read. *)
Definition broken_env : Env :=
  {| load_settings := Raises (Exception "settings file is not valid JSON");
     should_auto_schedule_task :=
       fun _ _ => Raises (Exception "settings file is not valid JSON");
     schedule_initial_tasks_agent := fun _ => Returns "Task scheduled";
     planner_seconds := fun _ => 20%Q;
     autocategorize_task :=
       fun _ => Returns "Project is not configured for auto-categorization";
     remove_task_scheduling := fun _ => Returns "Scheduling removed";
     get_task_details := fun _ => Raises (ValueError "Task not found");
     map_project_id := fun p => Some p;
     parse_due := fun _ => None |}.

(** An installation whose settings load, but whose threshold check raises. *)
Definition flaky_env : Env :=
  {| load_settings := Returns work_settings;
     should_auto_schedule_task := fun _ _ => Raises (TypeError "'<' not supported");
     schedule_initial_tasks_agent := fun _ => Returns "Task scheduled";
     planner_seconds := fun _ => 20%Q;
     autocategorize_task :=
       fun _ => Returns "Project is not configured for auto-categorization";
     remove_task_scheduling := fun _ => Returns "Scheduling removed";
     get_task_details := fun _ => Raises (ValueError "Task not found");
     map_project_id := fun p => Some p;
     parse_due := fun _ => None |}.

(** A task of project "P1" with the given priority and labels. *)
Definition report_task (event : string) (p : option Z) (l : list string) : item :=
  {| event_name := Some event;
     content := Some "Write report";
     id := Some "T1";
     checked := Some false;
     description := Some "";
     due := None;
     duration := None;
     labels := Some l;
     priority := p;
     project_id := Some "P1";
     section_id := None;
     todos_list_override := None |}.

(** The same task in project "P9", which has no entry in the project
    mappings of the settings. *)
Definition unmapped_task (event : string) (p : option Z) (l : list string) : item :=
  set_project_id (Some "P9") (report_task event p l).

(** The installation when Todoist knows the task: [get_task_details]
    returns it, with priority 4 (Urgent), in project "P1". *)
Definition known_task_env : Env :=
  {| load_settings := load_settings work_env;
     should_auto_schedule_task := should_auto_schedule_task work_env;
     schedule_initial_tasks_agent := schedule_initial_tasks_agent work_env;
     planner_seconds := planner_seconds work_env;
     autocategorize_task := autocategorize_task work_env;
     remove_task_scheduling := remove_task_scheduling work_env;
     get_task_details := fun _ => Returns (report_task "item:updated" (Some 4) []);
     map_project_id := map_project_id work_env;
     parse_due := parse_due work_env |}.

(** The guard is idle and the clock reads 1000 s. *)
Definition idle_world : world := {| lock := init; now := 1000; trace := [] |}.

(** Whenever the handler returns, it returns a message and not [None]. *)
Definition gives_message (m : M (option message)) : Prop :=
  ∀ w result w', m w = (Returns result, w') → is_Some result.

(** The computation leaves the guard as it is. *)
Definition preserves_lock {A} (m : M A) : Prop :=
  ∀ w, lock (m w).2 = lock w.

(** *** The discipline of one event

    Where the handling of one event stands with respect to the lock: it has
    not asked for it, it holds it for a task (and has called the planner or
    not), or it is done with it. *)
Inductive scope :=
| Before
| Holding (task_id : option string) (planned : bool)
| After.

(** One event of the trace; [None] when the event breaks the discipline:
    a second request for the lock, a planner call outside the lock or a
    second one inside, a release by another task or without the lock. *)
Definition scope_step (s : option scope) (e : event) : option scope :=
  match s, e with
  | None, _ => None
  | Some s, (Trigger_received _ | Task_action _ _ | Scheduling_removed _) => Some s
  | Some Before, Lock_acquire task_id (Returns true) => Some (Holding task_id false)
  | Some Before, Lock_acquire _ _ => Some After
  | Some (Holding task_id false), Planner_call _ => Some (Holding task_id true)
  | Some (Holding task_id _), Lock_release task_id' =>
      if bool_decide (task_id = task_id') then Some After else None
  | Some _, _ => None
  end.

(** The events of one handling keep the discipline and do not end with the
    lock held. *)
Definition scoped (evs : list event) : Prop :=
  fold_left scope_step evs (Some Before) = Some Before
  ∨ fold_left scope_step evs (Some Before) = Some After.

(** An event that is neither about the lock nor a planner call. *)
Definition quiet_event (e : event) : Prop :=
  match e with
  | Trigger_received _ | Task_action _ _ | Scheduling_removed _ => True
  | _ => False
  end.

(** Run from [w], the computation leaves the guard alone and neither asks
    for the lock nor calls the planner. *)
Definition quiet_at {A} (m : M A) (w : world) : Prop :=
  lock (m w).2 = lock w
  ∧ ∃ evs, trace (m w).2 = trace w ++ evs ∧ Forall quiet_event evs.

(** Run from [w] with the lock held, the computation leaves the guard alone
    and calls the planner at most once. *)
Definition inner_at {A} (m : M A) (w : world) : Prop :=
  lock (m w).2 = lock w
  ∧ ∃ evs, trace (m w).2 = trace w ++ evs
      ∧ ∀ task_id,
          fold_left scope_step evs (Some (Holding task_id false))
          = Some (Holding task_id false)
          ∨ fold_left scope_step evs (Some (Holding task_id false))
            = Some (Holding task_id true).

(** A request for the lock that was granted. *)
Definition acquired (e : event) : bool :=
  match e with
  | Lock_acquire _ (Returns true) => true
  | _ => false
  end.

(** Run from [w], the computation keeps the discipline of one event; from
    a guard whose flags exclude each other it leaves the guard in cooldown
    when it was granted the lock, and as it was otherwise. *)
Definition outer_at {A} (m : M A) (w : world) : Prop :=
  ∃ evs, trace (m w).2 = trace w ++ evs ∧ scoped evs
    ∧ (exclusive (lock w) →
       if existsb acquired evs then in_phase (lock (m w).2) Cooldown
       else lock (m w).2 = lock w).

(** The computation returns, whatever the world. *)
Definition never_raises {A} (m : M A) : Prop :=
  ∀ w, ∃ a, (m w).1 = Returns a.

Definition is_planner_call (e : event) : bool :=
  match e with
  | Planner_call _ => true
  | _ => false
  end.

End task_processor.

(** ** webhook_server.py *)
Module webhook_server.
Import agent_lock task_processor.

(** [x.get] on a value that is not a dict; [type_name] is the name of the
    Python type of [x]: list, str, int, float, bool or NoneType. *)
Definition no_attribute_get (type_name : string) : exn :=
  AttributeError ("'" +:+ type_name +:+ "' object has no attribute 'get'").

(** What [data.get("event_data", {})] can be, as far as the endpoint tells
    the values apart:
    - falsy: the key is missing, or it holds [null], an empty object, list
      or string, zero or [false];
    - a dict that is not empty, with the keys that [extract_task_data]
      reads;
    - any other truthy value: a list or a string that is not empty, a
      number that is not zero, or [true]. *)
Inductive event_data_value :=
| No_event_data
| Event_data (event_data : item)
| Not_a_dict (type_name : string).

(** A JSON object as the body of a Todoist webhook.  ["event_name"] is a
    string, or it is missing or falsy ([None] here); ["event_data_extra"] is
    an object, or it is missing or falsy, and [data_old_item] is its
    ["old_item"] when it has that key.  The object has no ["id"] and no
    ["content"] of its own: those are keys of [event_data]. *)
Record webhook_data := mkData {
  data_event_name : option string;
  event_data : event_data_value;
  data_old_item : option item
}.

(** The body of a request, as [await request.json()] takes it: text that
    is not JSON, for which [json.loads] raises a [JSONDecodeError] with the
    text [error]; JSON that is not an object, with the name of its Python
    type; or a JSON object. *)
Inductive request_body :=
| Invalid_json (error : string)
| Not_an_object (type_name : string)
| Object (data : webhook_data).

(** [extract_task_data]; [completed_at] is copied too, and no handler reads
    it. *)
Definition extract_task_data (event_data : item) (event_name : string)
    (old_item : option item) : task_data :=
  {| cur := {| event_name := Some event_name;
               content := content event_data;
               id := id event_data;
               checked := checked event_data;
               description := description event_data;
               due := due event_data;
               duration := duration event_data;
               labels := labels event_data;
               priority := priority event_data;
               project_id := project_id event_data;
               section_id := section_id event_data;
               todos_list_override := None |};
     old_item := old_item |}.

(** The entries of [logs/recent_events.json] that this module writes. *)
Inductive recent_event :=
| WEBHOOK_ERROR (timestamp : Q) (task_id task_content : option string) (error : string)
| WEBHOOK_BLOCKED (timestamp : Q) (task_id task_content : option string)
    (blocked_reason : string) (agent_status : agent_lock.status).

(** [save_to_recent_events], as a function from the list on file to the list
    written back: [recent_events.append(log_entry)], then
    [recent_events[-100:]]. *)
Definition save_to_recent_events (log_entry : recent_event)
    (recent_events : list recent_event) : list recent_event :=
  let recent_events := recent_events ++ [log_entry] in
  drop (length recent_events - 100) recent_events.

(** The process: the world of the handlers and the recent events on file. *)
Record server := mkServer {
  state : world;
  recent_events : list recent_event
}.

(** [blocked_msg], one constructor per f-string. *)
Inductive blocked_message :=
| Cooldown_active (current_task_id task_id : option string) (remaining_seconds : Q)
| Busy_working (current_task_id task_id : option string).

(** The [JSONResponse] of [webhook_receiver]. *)
Inductive http_response :=
| Json_error (status_code : Z) (error : string)
| Blocked (message : blocked_message) (reason : string) (agent_status : agent_lock.status)
    (retry_after_seconds : Z)
| Processed (event_name : string) (task_id : option string) (result : response)
    (processing_time_seconds : Q).

Definition status_code (r : http_response) : Z :=
  match r with
  | Json_error status_code _ => status_code
  | Blocked _ _ _ _ => 202
  | Processed _ _ _ _ => 200
  end.

(** [log_webhook_event("ERROR", data, error=error)] *)
Definition log_webhook_event (task_id task_content : option string) (error : string)
    (sv : server) : server :=
  if negb (String.eqb error "") then
    {| state := state sv;
       recent_events :=
         save_to_recent_events (WEBHOOK_ERROR (now (state sv)) task_id task_content error)
           (recent_events sv) |}
  else sv.

(** [except Exception as e] of [webhook_receiver], once [task_data] is bound. *)
Definition processing_error (e : exn) (task_data : task_data) (sv : server)
  : http_response * server :=
  let error_msg := "Processing error: " +:+ exn_str e in
  (Json_error 500 error_msg,
   log_webhook_event (id (cur task_data)) (content (cur task_data)) error_msg sv).

(** [except Exception as e] of [webhook_receiver] when [extract_task_data]
    raised: [task_data] is not bound, so [data] is what is logged. *)
Definition extraction_error (e : exn) (sv : server) : http_response * server :=
  let error_msg := "Processing error: " +:+ exn_str e in
  (Json_error 500 error_msg, log_webhook_event None None error_msg sv).

(** [webhook_receiver], from a body that is a JSON object on.  The clock is
    read once for the check of the guard and the blocked answer, which run
    without a suspension point. *)
Definition webhook_receiver (env : Env) (data : webhook_data) (sv : server)
  : http_response * server :=
  let start_time := now (state sv) in
  if negb (truthy_str (data_event_name data)) then
    let error_msg := "Missing 'event_name' in webhook data" in
    (Json_error 400 error_msg, log_webhook_event None None error_msg sv)
  else
    let event_name := default "" (data_event_name data) in
    match event_data data with
    | No_event_data =>
        let error_msg := "Missing 'event_data' in webhook data" in
        (Json_error 400 error_msg, log_webhook_event None None error_msg sv)
    | Not_a_dict type_name =>
        (* [event_data.get("content")] in [extract_task_data] *)
        extraction_error (no_attribute_get type_name) sv
    | Event_data event_data =>
        let task_data := extract_task_data event_data event_name (data_old_item data) in
        let task_id := id (cur task_data) in
        let busy := is_agent_working (now (state sv)) (lock (state sv)) in
        let sv := {| state := set_lock busy.2 (state sv); recent_events := recent_events sv |} in
        if busy.1 then
          let lock_status := get_status (now (state sv)) (lock (state sv)) in
          let blocked :=
            if status_is_cooldown lock_status then
              match cooldown_remaining_seconds lock_status with
              | Some remaining =>
                  Returns (Cooldown_active (current_task_id lock_status) task_id remaining,
                           "agent_cooldown")
              | None => Raises (Exception "'cooldown_remaining_seconds'")
              end
            else Returns (Busy_working (current_task_id lock_status) task_id, "agent_busy") in
          match blocked with
          | Returns (blocked_msg, block_reason) =>
              let log_entry :=
                WEBHOOK_BLOCKED (now (state sv)) task_id (content (cur task_data))
                  block_reason lock_status in
              (Blocked blocked_msg block_reason lock_status
                 (if String.eqb block_reason "agent_cooldown" then 5 else 30),
               {| state := state sv;
                  recent_events := save_to_recent_events log_entry (recent_events sv) |})
          | Raises e => processing_error e task_data sv
          end
        else
          match router env task_data (state sv) with
          | (Returns result, w) =>
              (Processed event_name task_id result (now w - start_time)%Q,
               {| state := w; recent_events := recent_events sv |})
          | (Raises e, w) =>
              processing_error e task_data {| state := w; recent_events := recent_events sv |}
          end
    end.

(** The endpoint [@app.post("/webhook/todoist")]: [webhook_receiver] from
    the request on.
    - [request.json()] raises a [JSONDecodeError]: the answer is 400, and the
      dict [{"raw_request": "invalid_json"}] is what is logged.
    - The body is JSON but not an object: [data.get("event_name")] raises an
      [AttributeError]; in [except Exception], [task_data] is not bound, so
      [log_webhook_event] is given [data], and its [data.get("id")] raises
      the same error again, before anything is saved.  The handler raises. *)
Definition post_webhook_todoist (env : Env) (body : request_body) (sv : server)
  : outcome http_response * server :=
  match body with
  | Invalid_json error =>
      let error_msg := "Invalid JSON format: " +:+ error in
      (Returns (Json_error 400 error_msg), log_webhook_event None None error_msg sv)
  | Not_an_object type_name => (Raises (no_attribute_get type_name), sv)
  | Object data =>
      let answer := webhook_receiver env data sv in
      (Returns answer.1, answer.2)
  end.

(** [get_agent_status]: the status is taken first, the busy query second. *)
Definition get_agent_status (w : world) : (agent_lock.status * bool) * world :=
  let status := get_status (now w) (lock w) in
  let busy := is_agent_working (now w) (lock w) in
  ((status, negb busy.1), set_lock busy.2 w).

(** *** extract_task_id_from_url *)

(** The class [[a-zA-Z0-9]]. *)
Definition is_alnum (c : ascii) : bool :=
  let n := nat_of_ascii c in
  ((48 <=? n) && (n <=? 57) || (65 <=? n) && (n <=? 90) || (97 <=? n) && (n <=? 122))%nat.

(** The longest run of letters and digits at the start of the text: what
    the greedy group [([a-zA-Z0-9]+)] takes. *)
Fixpoint take_alnum (s : string) : string :=
  match s with
  | String c rest => if is_alnum c then String c (take_alnum rest) else ""
  | EmptyString => ""
  end.

(** The text after a prefix, when the text starts with it. *)
Fixpoint after_prefix (prefix s : string) : option string :=
  match prefix, s with
  | EmptyString, _ => Some s
  | String p prefix', String c s' => if Ascii.eqb p c then after_prefix prefix' s' else None
  | String _ _, EmptyString => None
  end.

(** The match of the pattern at the start of the text: the group, or the
    empty text when there is no match there. *)
Definition match_here (s : string) : string :=
  match after_prefix "/task/" s with
  | Some rest => take_alnum rest
  | None => ""
  end.

(** [re.search(r'/task/([a-zA-Z0-9]+)', task_url)] and [match.group(1)]:
    the leftmost position where the pattern matches. *)
Fixpoint extract_task_id_from_url (task_url : string) : option string :=
  if negb (String.eqb (match_here task_url) "") then Some (match_here task_url)
  else match task_url with
       | String _ rest => extract_task_id_from_url rest
       | EmptyString => None
       end.

(** A payload, for the scenarios. *)
Definition added_payload (p : option Z) : webhook_data :=
  {| data_event_name := Some "item:added";
     event_data := Event_data (report_task "item:added" p []);
     data_old_item := None |}.

End webhook_server.

(** ** master_agent.py *)
Module master_agent.
Import task_processor.

(** [str.lower] on the letters A to Z; no other character lowers to a
    letter of the word that the tool looks for. *)
Definition lower_char (c : ascii) : ascii :=
  let n := nat_of_ascii c in
  if ((65 <=? n) && (n <=? 90))%nat then ascii_of_nat (n + 32) else c.

Fixpoint lower (s : string) : string :=
  match s with
  | String c rest => String (lower_char c) (lower rest)
  | EmptyString => ""
  end.

(** The Todoist client that the tool calls (todoist.py): network calls,
    each returns a text or raises.  [get_task_labels] is
    [get_task_details(task_id).get('labels', [])]. *)
Record Todoist := mkTodoist {
  update_todo_schedule : string → string → Z → outcome string;
  get_task_labels : string → outcome (list string);
  set_todo_labels : string → list string → outcome string
}.

(** [update_todo_schedule_tool]: the text it returns, and the labels it
    asked Todoist to set, if it asked. *)
Definition update_todo_schedule_tool (api : Todoist) (task_id new_start_timestamp : string)
    (duration_minutes : Z) : outcome (string * option (list string)) :=
  match update_todo_schedule api task_id new_start_timestamp duration_minutes with
  | Raises e => Raises e
  | Returns schedule_result =>
      if is_substring "successfully" (lower schedule_result) then
        match get_task_labels api task_id with
        | Returns existing_labels =>
            let ai_label := "AI Scheduled" in
            if bool_decide (ai_label ∉ existing_labels) then
              let new_labels := existing_labels ++ [ai_label] in
              let new_labels := filter (fun label => label ≠ "Manual Scheduled") new_labels in
              match set_todo_labels api task_id new_labels with
              | Returns label_result =>
                  Returns (schedule_result +:+ " AI Scheduled label applied.", Some new_labels)
              | Raises e =>
                  Returns (schedule_result +:+ " (Warning: Could not apply AI Scheduled label: "
                             +:+ exn_str e +:+ ")",
                           Some new_labels)
              end
            else Returns (schedule_result, None)
        | Raises e =>
            Returns (schedule_result +:+ " (Warning: Could not apply AI Scheduled label: "
                       +:+ exn_str e +:+ ")",
                     None)
        end
      else Returns (schedule_result, None)
  end.

End master_agent.

(** * Properties of the guard *)
Module agent_lock_spec.
Import agent_lock.

Lemma Qgtb_true (x y : Q) : Qgtb x y = true ↔ (y < x)%Q.
Proof.
  unfold Qgtb. rewrite negb_true_iff. split.
  - intros H. apply Qnot_le_lt. intros Hle. apply Qle_bool_iff in Hle. congruence.
  - intros H. destruct (Qle_bool x y) eqn:E; [|done].
    apply Qle_bool_iff in E. exfalso. apply (Qlt_not_le _ _ H E).
Qed.

Lemma Qeq_bool_false (t : Q) : Qeq_bool t 0 = false ↔ ¬ (t == 0)%Q.
Proof.
  split.
  - intros H Heq. apply Qeq_bool_iff in Heq. congruence.
  - intros H. destruct (Qeq_bool t 0) eqn:E; [|done].
    apply Qeq_bool_iff in E. contradiction.
Qed.

Lemma elapsed_exceeds_some (now t limit : Q) :
  ¬ (t == 0)%Q →
  elapsed_exceeds now (Some t) limit = true ↔ (limit < now - t)%Q.
Proof.
  intros Ht. unfold elapsed_exceeds.
  apply Qeq_bool_false in Ht. rewrite Ht. apply Qgtb_true.
Qed.

Lemma elapsed_exceeds_not (now t limit : Q) :
  (now - t <= limit)%Q → elapsed_exceeds now (Some t) limit = false.
Proof.
  intros H. unfold elapsed_exceeds. destruct (Qeq_bool t 0); [done|].
  destruct (Qgtb (now - t) limit) eqn:E; [|done].
  apply Qgtb_true in E. exfalso. apply (Qlt_not_le _ _ E H).
Qed.

Lemma init_ok : guard_ok init.
Proof. split; simpl; try done. Qed.

Lemma pos_nonzero (t : Q) : (0 < t)%Q → ¬ (t == 0)%Q.
Proof. intros H Heq. rewrite Heq in H. apply (Qlt_irrefl _ H). Qed.

Lemma set_acquired_ok now tid g :
  (0 < now)%Q → _timeout_seconds g = 300%Q → _cooldown_seconds g = 3%Q →
  guard_ok (set_acquired now tid g).
Proof.
  intros Hn Ht Hc. split; simpl; try done.
  intros _. exists now. split; [done | by apply pos_nonzero].
Qed.

Lemma force_release_ok g : guard_ok g → guard_ok (force_release g).
Proof. intros [He Hw Hc Ht Hs]. split; simpl; try done. Qed.

Lemma clear_cooldown_ok g : guard_ok g → guard_ok (clear_cooldown g).
Proof.
  intros [He Hw Hc Ht Hs]. split; simpl; try done.
  unfold exclusive. simpl. apply andb_false_r.
Qed.

Lemma set_cooldown_ok now g : (0 < now)%Q → guard_ok g → guard_ok (set_cooldown now g).
Proof.
  intros Hn [He Hw Hc Ht Hs]. split; simpl; try done.
  intros _. exists now. split; [done | by apply pos_nonzero].
Qed.

Lemma acquire_after_cooldown_ok now tid g :
  (0 < now)%Q → guard_ok g → guard_ok (acquire_after_cooldown now tid g).2.
Proof.
  intros Hn Hg. unfold acquire_after_cooldown.
  destruct (_is_agent_working g); [destruct (elapsed_exceeds _ _ _)|]; simpl; try done;
    apply set_acquired_ok; try done; apply Hg.
Qed.

Lemma acquire_ok now tid g :
  (0 < now)%Q → guard_ok g → guard_ok (acquire_agent_lock now tid g).2.
Proof.
  intros Hn Hg. unfold acquire_agent_lock.
  destruct (_is_cooldown g).
  - destruct (elapsed_exceeds _ _ _).
    + apply acquire_after_cooldown_ok; [done|]. by apply clear_cooldown_ok.
    + by destruct (_cooldown_start_time g).
  - by apply acquire_after_cooldown_ok.
Qed.

Lemma release_ok now tid g :
  (0 < now)%Q → guard_ok g → guard_ok (release_agent_lock now tid g).
Proof.
  intros Hn Hg. unfold release_agent_lock.
  destruct (_ || _); [by apply set_cooldown_ok | done].
Qed.

Lemma is_agent_working_ok now g : guard_ok g → guard_ok (is_agent_working now g).2.
Proof.
  intros Hg. unfold is_agent_working.
  destruct (_ && _); simpl; [by apply force_release_ok|].
  destruct (_ && _); simpl; [by apply clear_cooldown_ok | done].
Qed.

Lemma step_ok g o : (0 < op_time o)%Q → guard_ok g → guard_ok (step g o).
Proof.
  destruct o as [now tid|now tid|now|now]; simpl; intros Hn Hg.
  - by apply acquire_ok.
  - by apply release_ok.
  - by apply is_agent_working_ok.
  - done.
Qed.

Lemma run_ok ops : ∀ g,
  Forall (fun o => (0 < op_time o)%Q) ops → guard_ok g → guard_ok (run ops g).
Proof.
  induction ops as [|o ops IH]; intros g Hpos Hg; simpl; [done|].
  inversion Hpos; subst. apply IH; [done|]. by apply step_ok.
Qed.

Lemma reachable_ok g : reachable g → guard_ok g.
Proof. intros (ops & Hpos & ->). apply run_ok; [done | apply init_ok]. Qed.

(** Exclusion of the flags needs nothing of the clock. *)
Lemma acquire_after_cooldown_exclusive now tid g :
  exclusive g → exclusive (acquire_after_cooldown now tid g).2.
Proof.
  intros He. unfold acquire_after_cooldown.
  destruct (_is_agent_working g); [destruct (elapsed_exceeds _ _ _)|]; simpl; done.
Qed.

Lemma step_exclusive g o : exclusive g → exclusive (step g o).
Proof.
  destruct o as [now tid|now tid|now|now]; simpl; intros He; [| | |done].
  - unfold acquire_agent_lock.
    destruct (_is_cooldown g).
    + destruct (elapsed_exceeds _ _ _).
      * apply acquire_after_cooldown_exclusive. unfold exclusive. simpl. apply andb_false_r.
      * by destruct (_cooldown_start_time g).
    + by apply acquire_after_cooldown_exclusive.
  - unfold release_agent_lock. destruct (_ || _); simpl; done.
  - unfold is_agent_working.
    destruct (_ && _); simpl; [done|]. destruct (_ && _); simpl; [|done].
    unfold exclusive. simpl. apply andb_false_r.
Qed.

Lemma run_exclusive ops : ∀ g, exclusive g → exclusive (run ops g).
Proof.
  induction ops as [|o ops IH]; intros g Hg; simpl; [done|].
  apply IH. by apply step_exclusive.
Qed.

Lemma exclusive_one_phase g :
  exclusive g → ∃ p, in_phase g p ∧ ∀ q, in_phase g q → q = p.
Proof.
  unfold exclusive.
  destruct (_is_agent_working g) eqn:Ew, (_is_cooldown g) eqn:Ec; simpl; intros H; [done| | |].
  - exists Working. split; [by simpl; rewrite Ew, Ec|].
    intros [] [? ?]; simpl in *; congruence.
  - exists Cooldown. split; [by simpl; rewrite Ew, Ec|].
    intros [] [? ?]; simpl in *; congruence.
  - exists Idle. split; [by simpl; rewrite Ew, Ec|].
    intros [] [? ?]; simpl in *; congruence.
Qed.

(** C8.  After every sequence of acquire, release and status operations on
    the initial guard, the working flag and the cooldown flag are not both
    set, so the guard is in exactly one of the states idle, working and
    cooldown; and whatever operation comes next keeps it so. *)
Theorem one_phase_at_any_instant (ops : list op) :
  let g := run ops init in
  exclusive g
  ∧ (∃ p, in_phase g p ∧ ∀ q, in_phase g q → q = p)
  ∧ ∀ o, exclusive (step g o) ∧ ∃ p, in_phase (step g o) p ∧ ∀ q, in_phase (step g o) q → q = p.
Proof.
  intros g.
  assert (Hg : exclusive g) by (apply run_exclusive; done).
  split; [done|]. split; [by apply exclusive_one_phase|].
  intros o. pose proof (step_exclusive g o Hg) as Ho.
  split; [done | by apply exclusive_one_phase].
Qed.

(** C1.  On a guard of the process, [acquire_agent_lock(task_id)]:
    - while working, with less than 300 s elapsed since the work started,
      returns [False] and changes nothing;
    - while working, with more than 300 s elapsed, forces the guard to idle
      and acquires it, with no release in between;
    - in cooldown, with less than 3 s elapsed since the cooldown started,
      returns [False] and changes nothing;
    - in cooldown, with more than 3 s elapsed, moves to idle and acquires;
    - when idle, acquires;
    and whenever it returns [True] the guard is working, held by [task_id],
    with the current clock reading as start time. *)
Theorem acquire_contract (g : AgentLock) (now : Q) (task_id : option string) :
  reachable g →
  (in_phase g Working →
     ∃ t, _agent_start_time g = Some t
       ∧ ((now - t < 300)%Q → acquire_agent_lock now task_id g = (Returns false, g))
       ∧ ((300 < now - t)%Q →
            in_phase (force_release g) Idle
            ∧ acquire_agent_lock now task_id g
              = (Returns true, set_acquired now task_id (force_release g))))
  ∧ (in_phase g Cooldown →
     ∃ t, _cooldown_start_time g = Some t
       ∧ ((now - t < 3)%Q → acquire_agent_lock now task_id g = (Returns false, g))
       ∧ ((3 < now - t)%Q →
            in_phase (clear_cooldown g) Idle
            ∧ acquire_agent_lock now task_id g
              = (Returns true, set_acquired now task_id (clear_cooldown g))))
  ∧ (in_phase g Idle →
       acquire_agent_lock now task_id g = (Returns true, set_acquired now task_id g))
  ∧ (∀ g', acquire_agent_lock now task_id g = (Returns true, g') →
       in_phase g' Working ∧ _current_task_id g' = task_id ∧ _agent_start_time g' = Some now).
Proof.
  intros Hr. apply reachable_ok in Hr. destruct Hr as [He Hw Hc Ht Hs].
  split; [|split; [|split]].
  - intros [Ew Ec]. destruct (Hw Ew) as (t & Est & Hnz). exists t. split; [done|].
    unfold acquire_agent_lock, acquire_after_cooldown. rewrite Ec, Ew, Est, Ht. split.
    + intros Hlt. rewrite elapsed_exceeds_not; [done|]. by apply Qlt_le_weak.
    + intros Hgt. split; [done|].
      by rewrite (proj2 (elapsed_exceeds_some now t 300 Hnz) Hgt).
  - intros [Ew Ec]. destruct (Hc Ec) as (t & Est & Hnz). exists t. split; [done|].
    unfold acquire_agent_lock, acquire_after_cooldown. rewrite Ec, Est, Hs. split.
    + intros Hlt. rewrite elapsed_exceeds_not; [done|]. by apply Qlt_le_weak.
    + intros Hgt. split; [done|].
      rewrite (proj2 (elapsed_exceeds_some now t 3 Hnz) Hgt). simpl. by rewrite Ew.
  - intros [Ew Ec]. unfold acquire_agent_lock, acquire_after_cooldown. by rewrite Ec, Ew.
  - intros g' H. unfold acquire_agent_lock, acquire_after_cooldown in H.
    repeat match type of H with
           | context [if ?b then _ else _] => destruct b
           | context [match ?o with Some _ => _ | None => _ end] => destruct o
           end; by simplify_eq.
Qed.

(** A second acquire, 100 s after the first one and with no release, is
    refused. *)
Lemma acquire_contract_witness :
  acquire_agent_lock 1100 (Some "T2") (run [Acquire 1000 (Some "T1")] init)
  = (Returns false, run [Acquire 1000 (Some "T1")] init).
Proof.
  assert (Hr : reachable (run [Acquire 1000 (Some "T1")] init)).
  { exists [Acquire 1000 (Some "T1")]. split; [|done].
    constructor; [reflexivity | constructor]. }
  destruct (acquire_contract _ 1100 (Some "T2") Hr) as (Hw & _).
  destruct Hw as (t & Ht & Hlt & _); [done|].
  apply Hlt. injection Ht as <-. reflexivity.
Defined.

(** C5, as the code has it.  On a guard of the process, [is_agent_working()]
    expires a working state whose work started more than 300 s ago and a
    cooldown that started more than 3 s ago: it returns [False] and leaves
    the guard idle.  Its rules are those of [acquire_agent_lock]: it reports
    the guard free exactly when an acquire at that instant would succeed.
    [get_status()] reports the stored flags and leaves the guard as it is. *)
Theorem busy_query_expires_stale_state (g : AgentLock) (now : Q) :
  reachable g →
  (in_phase g Working →
     ∃ t, _agent_start_time g = Some t
       ∧ ((300 < now - t)%Q →
            is_agent_working now g = (false, force_release g)
            ∧ in_phase (force_release g) Idle))
  ∧ (in_phase g Cooldown →
     ∃ t, _cooldown_start_time g = Some t
       ∧ ((3 < now - t)%Q →
            is_agent_working now g = (false, clear_cooldown g)
            ∧ in_phase (clear_cooldown g) Idle))
  ∧ (∀ task_id,
       (is_agent_working now g).1 = false
       ↔ (acquire_agent_lock now task_id g).1 = Returns true)
  ∧ is_locked (get_status now g) = _is_agent_working g || _is_cooldown g
  ∧ status_is_agent_working (get_status now g) = _is_agent_working g
  ∧ status_is_cooldown (get_status now g) = _is_cooldown g
  ∧ step g (GetStatus now) = g.
Proof.
  intros Hr. apply reachable_ok in Hr. destruct Hr as [He Hw Hc Ht Hs].
  split; [|split; [|split; [|done]]].
  - intros [Ew Ec]. destruct (Hw Ew) as (t & Est & Hnz). exists t. split; [done|].
    intros Hgt. split; [|done].
    unfold is_agent_working. rewrite Ew, Est, Ht.
    by rewrite (proj2 (elapsed_exceeds_some now t 300 Hnz) Hgt).
  - intros [Ew Ec]. destruct (Hc Ec) as (t & Est & Hnz). exists t. split; [done|].
    intros Hgt. split; [|by simpl; rewrite Ew].
    unfold is_agent_working. rewrite Ew, Ec, Est, Hs.
    by rewrite (proj2 (elapsed_exceeds_some now t 3 Hnz) Hgt).
  - intros task_id. unfold exclusive in He.
    unfold is_agent_working, acquire_agent_lock, acquire_after_cooldown.
    destruct (_is_agent_working g) eqn:Ew, (_is_cooldown g) eqn:Ec; simpl in *; [done| | |by split].
    + destruct (elapsed_exceeds now (_agent_start_time g) (_timeout_seconds g)); simpl;
        split; intros ?; simplify_eq; done.
    + destruct (Hc eq_refl) as (t & Est & _). rewrite Est.
      destruct (elapsed_exceeds now (Some t) (_cooldown_seconds g)); simpl; rewrite ?Ew; simpl;
        split; intros ?; simplify_eq; done.
Qed.

(** A guard whose cooldown started 10 s ago is reported free, as an acquire
    at that instant would find it. *)
Lemma busy_query_expires_stale_state_witness :
  is_agent_working 1015 (run [Acquire 1000 (Some "T1"); Release 1005 (Some "T1")] init)
  = (false, clear_cooldown (run [Acquire 1000 (Some "T1"); Release 1005 (Some "T1")] init)).
Proof.
  assert (Hr : reachable (run [Acquire 1000 (Some "T1"); Release 1005 (Some "T1")] init)).
  { exists [Acquire 1000 (Some "T1"); Release 1005 (Some "T1")]. split; [|done].
    repeat constructor. }
  destruct (busy_query_expires_stale_state _ 1015 Hr) as (_ & Hc & _).
  destruct Hc as (t & Ht & Hgt); [done|].
  apply Hgt. injection Ht as <-. reflexivity.
Defined.

(** C5 as stated fails for [get_status()]: 1000 s after an acquire that was
    never released, the guard is stale (an acquire would succeed, and
    [is_agent_working()] answers [False]), yet [get_status()] still reports
    it locked and working, and leaves it working. *)
Lemma status_query_reports_stale_state :
  reachable (run [Acquire 1000 (Some "T1")] init)
  ∧ in_phase (run [Acquire 1000 (Some "T1")] init) Working
  ∧ _agent_start_time (run [Acquire 1000 (Some "T1")] init) = Some 1000%Q
  ∧ (_timeout_seconds (run [Acquire 1000 (Some "T1")] init) < 2000 - 1000)%Q
  ∧ (is_agent_working 2000 (run [Acquire 1000 (Some "T1")] init)).1 = false
  ∧ (acquire_agent_lock 2000 (Some "T2") (run [Acquire 1000 (Some "T1")] init)).1 = Returns true
  ∧ is_locked (get_status 2000 (run [Acquire 1000 (Some "T1")] init)) = true
  ∧ status_is_agent_working (get_status 2000 (run [Acquire 1000 (Some "T1")] init)) = true
  ∧ in_phase (run [Acquire 1000 (Some "T1"); GetStatus 2000] init) Working.
Proof.
  split.
  { exists [Acquire 1000 (Some "T1")]. split; [|done]. repeat constructor. }
  repeat split.
Qed.

(** The scenario of the specification: holder "T1" releases; an acquire
    for "T2" 1 s later is refused, and one 4 s later succeeds. *)
Example cooldown_scenario :
  (acquire_agent_lock 1006 (Some "T2")
     (run [Acquire 1000 (Some "T1"); Release 1005 (Some "T1")] init)).1 = Returns false
  ∧ acquire_agent_lock 1009 (Some "T2")
      (run [Acquire 1000 (Some "T1"); Release 1005 (Some "T1")] init)
    = (Returns true,
       {| _is_agent_working := true; _is_cooldown := false;
          _agent_start_time := Some 1009%Q; _cooldown_start_time := None;
          _current_task_id := Some "T2";
          _timeout_seconds := 300; _cooldown_seconds := 3 |}).
Proof. split; vm_compute; reflexivity. Qed.

End agent_lock_spec.

(** * Properties of the availability engine *)
Module google_calendar_spec.
Import google_calendar.

Lemma contains_spec t (iv : interval) : contains t iv = true ↔ iv.1 ≤ t < iv.2.
Proof.
  unfold contains. rewrite andb_true_iff, !bool_decide_eq_true. done.
Qed.

Lemma cover_count_nil t : cover_count t [] = 0%nat.
Proof. done. Qed.

Lemma cover_count_cons t iv l :
  cover_count t (iv :: l) = ((if contains t iv then 1 else 0) + cover_count t l)%nat.
Proof.
  unfold cover_count. rewrite filter_cons.
  destruct (contains t iv); by case_decide.
Qed.

Lemma cover_count_app t l1 l2 :
  cover_count t (l1 ++ l2) = (cover_count t l1 + cover_count t l2)%nat.
Proof. unfold cover_count. by rewrite filter_app, length_app. Qed.

Lemma cover_count_out t (iv : interval) l :
  ¬ (iv.1 ≤ t < iv.2) → cover_count t (iv :: l) = cover_count t l.
Proof.
  intros H. rewrite cover_count_cons.
  destruct (contains t iv) eqn:E; [|done]. by apply contains_spec in E.
Qed.

Lemma cover_count_in t (iv : interval) l :
  iv.1 ≤ t < iv.2 → cover_count t (iv :: l) = S (cover_count t l).
Proof.
  intros H. rewrite cover_count_cons.
  by rewrite (proj2 (contains_spec t iv) H).
Qed.

(** *** The merging loop *)

Lemma merge_step_snoc acc (last iv : interval) :
  merge_step (acc ++ [last]) iv
  = if bool_decide (iv.1 ≤ last.2)
    then acc ++ [(last.1, Z.max last.2 iv.2)]
    else (acc ++ [last]) ++ [iv].
Proof.
  unfold merge_step. rewrite last_snoc. case_bool_decide; [|done].
  rewrite length_app. simpl. rewrite Nat.add_1_r. simpl.
  rewrite insert_app_r_alt by done. by rewrite Nat.sub_diag.
Qed.

Lemma fold_merge_step rest : ∀ acc last,
  fold_left merge_step rest (acc ++ [last]) = acc ++ merge_from last rest.
Proof.
  induction rest as [|iv rest IH]; intros acc last; simpl; [done|].
  rewrite merge_step_snoc. case_bool_decide.
  - apply IH.
  - rewrite IH. by rewrite <- app_assoc.
Qed.

Lemma merge_busy_unfold busy_intervals :
  merge_busy busy_intervals
  = match merge_sort tuple_le busy_intervals with
    | [] => []
    | first :: rest => merge_from first rest
    end.
Proof.
  unfold merge_busy. destruct (merge_sort tuple_le busy_intervals) as [|first rest]; [done|].
  simpl. apply (fold_merge_step rest [] first).
Qed.

Lemma merge_from_separated rest : ∀ prev (last : interval),
  from_option (fun e => e < last.1) True prev →
  last.1 ≤ last.2 →
  Forall (fun iv : interval => iv.1 ≤ iv.2) rest →
  separated prev (merge_from last rest).
Proof.
  induction rest as [|iv rest IH]; intros prev last Hprev Hwf Hrest; simpl.
  - done.
  - inversion Hrest as [|? ? Hiv Hrest']; subst. case_bool_decide.
    + apply IH; simpl; [done|lia|done].
    + simpl. split; [done|]. split; [done|]. apply IH; simpl; [lia|done|done].
Qed.

Lemma merge_busy_separated busy_intervals :
  Forall (fun iv : interval => iv.1 ≤ iv.2) busy_intervals →
  separated None (merge_busy busy_intervals).
Proof.
  intros Hwf. rewrite merge_busy_unfold.
  assert (Hs : Forall (fun iv : interval => iv.1 ≤ iv.2) (merge_sort tuple_le busy_intervals)).
  { eapply Permutation_Forall; [|exact Hwf]. symmetry. apply merge_sort_Permutation. }
  destruct (merge_sort tuple_le busy_intervals) as [|first rest]; [done|].
  inversion Hs; subst. by apply merge_from_separated.
Qed.

(** Merging keeps the busy instants: an instant is in a merged interval
    exactly when it is in one of the fetched busy intervals. *)

Lemma covered_cons t iv l : covered t (iv :: l) ↔ contains t iv = true ∨ covered t l.
Proof.
  unfold covered. split.
  - intros (iv' & Hin & Hc). apply elem_of_cons in Hin as [->|Hin]; [by left|].
    right. by exists iv'.
  - intros [Hc|(iv' & Hin & Hc)].
    + exists iv. split; [apply elem_of_cons; by left | done].
    + exists iv'. split; [apply elem_of_cons; by right | done].
Qed.

Lemma covered_nil t : ¬ covered t [].
Proof. intros (iv & Hin & _). by apply not_elem_of_nil in Hin. Qed.

Lemma tuple_le_transitive : Transitive tuple_le.
Proof. intros a b c. unfold tuple_le. lia. Qed.

Lemma tuple_le_total : Total tuple_le.
Proof. intros a b. unfold tuple_le. lia. Qed.

Lemma merge_from_covers t rest : ∀ last : interval,
  Forall (fun iv : interval => last.1 ≤ iv.1) rest →
  StronglySorted tuple_le rest →
  covered t (merge_from last rest) ↔ covered t (last :: rest).
Proof.
  induction rest as [|iv rest IH]; intros last Hlast Hsorted; simpl; [done|].
  inversion Hlast as [|? ? Hiv Hlast']; subst.
  inversion Hsorted as [|? ? Hsorted' Hhd]; subst.
  case_bool_decide.
  - rewrite IH; [|done|done]. rewrite !covered_cons, !contains_spec. simpl.
    assert (last.1 ≤ t < Z.max last.2 iv.2 ↔ last.1 ≤ t < last.2 ∨ iv.1 ≤ t < iv.2) by lia.
    tauto.
  - rewrite covered_cons, IH; [by rewrite !covered_cons|  |done].
    eapply Forall_impl; [exact Hhd|]. unfold tuple_le. simpl. intros; lia.
Qed.

Lemma merge_busy_covers t busy_intervals :
  covered t (merge_busy busy_intervals) ↔ covered t busy_intervals.
Proof.
  rewrite merge_busy_unfold.
  pose proof (@StronglySorted_merge_sort _ tuple_le _ tuple_le_transitive tuple_le_total
                busy_intervals) as Hsorted.
  assert (Hperm : ∀ iv, iv ∈ merge_sort tuple_le busy_intervals ↔ iv ∈ busy_intervals).
  { intros iv. by rewrite merge_sort_Permutation. }
  transitivity (covered t (merge_sort tuple_le busy_intervals)).
  - destruct (merge_sort tuple_le busy_intervals) as [|first rest]; [done|].
    inversion Hsorted as [|? ? Hsorted' Hhd]; subst.
    apply merge_from_covers; [|done].
    eapply Forall_impl; [exact Hhd|]. unfold tuple_le. intros; lia.
  - unfold covered. split; intros (iv & Hin & Hc); exists iv; split; try done; by apply Hperm.
Qed.

(** *** The subtraction loop *)

Lemma fold_free_step_walk merged : ∀ free current interval_end,
  (if bool_decide ((fold_left free_step merged (free, current)).2 < interval_end)
   then (fold_left free_step merged (free, current)).1
          ++ [((fold_left free_step merged (free, current)).2, interval_end)]
   else (fold_left free_step merged (free, current)).1)
  = free ++ walk_gaps current interval_end merged.
Proof.
  induction merged as [|b merged IH]; intros free current interval_end; simpl.
  - case_bool_decide; [done | by rewrite app_nil_r].
  - unfold free_step at 2 4 6 8. simpl. rewrite IH.
    case_bool_decide; [|done]. by rewrite <- app_assoc.
Qed.

Lemma subtract_busy_walk merged interval_start interval_end :
  subtract_busy interval_start interval_end merged
  = walk_gaps interval_start interval_end merged.
Proof. unfold subtract_busy. apply (fold_free_step_walk merged []). Qed.

(** *** Tiling *)

Lemma walk_gaps_before busy : ∀ cursor interval_end t,
  t < cursor → cover_count t (walk_gaps cursor interval_end busy) = 0%nat.
Proof.
  induction busy as [|b busy IH]; intros cursor interval_end t Ht; simpl.
  - case_bool_decide; [|done]. rewrite cover_count_out; [done | simpl; lia].
  - rewrite cover_count_app, IH by lia.
    case_bool_decide; [|done]. rewrite cover_count_out; [done | simpl; lia].
Qed.

Lemma separated_after l : ∀ p t,
  separated (Some p) l → t ≤ p → cover_count t l = 0%nat.
Proof.
  induction l as [|iv l IH]; intros p t Hs Ht; [done|].
  destruct Hs as (Hp & Hwf & Hs). simpl in Hp.
  rewrite cover_count_out by lia. apply (IH iv.2); [done | lia].
Qed.

Lemma separated_ordered l : ∀ prev,
  separated prev l → Forall (fun iv : interval => iv.1 ≤ iv.2) l.
Proof.
  induction l as [|iv l IH]; intros prev Hs; [done|].
  destruct Hs as (_ & Hwf & Hs). constructor; [done|]. by apply (IH (Some iv.2)).
Qed.

Lemma separated_at_most_once l : ∀ prev t,
  separated prev l → (cover_count t l ≤ 1)%nat.
Proof.
  induction l as [|iv l IH]; intros prev t Hs; [rewrite cover_count_nil; lia|].
  destruct Hs as (Hp & Hwf & Hs).
  destruct (decide (t < iv.2)) as [Hlt|Hge].
  - rewrite cover_count_cons, (separated_after l iv.2 t Hs) by lia.
    destruct (contains t iv); lia.
  - rewrite cover_count_out by lia. by apply (IH (Some iv.2)).
Qed.

Lemma walk_gaps_tiles busy : ∀ prev cursor interval_end t,
  separated prev busy → cursor ≤ t →
  (cover_count t (walk_gaps cursor interval_end busy) + cover_count t busy ≤ 1)%nat
  ∧ (t < interval_end →
     (cover_count t (walk_gaps cursor interval_end busy) + cover_count t busy = 1)%nat).
Proof.
  induction busy as [|b busy IH]; intros prev cursor interval_end t Hs Hc.
  - simpl. case_bool_decide.
    + destruct (decide (t < interval_end)).
      * rewrite cover_count_in by (simpl; lia). rewrite !cover_count_nil. split; [lia | done].
      * rewrite cover_count_out by (simpl; lia). rewrite !cover_count_nil.
        split; [lia | intros; lia].
    + rewrite !cover_count_nil. split; [lia | intros; lia].
  - destruct Hs as (Hp & Hwf & Hs). simpl. rewrite cover_count_app.
    destruct (decide (t < b.2)) as [Hlt|Hge].
    + rewrite (walk_gaps_before busy) by lia.
      rewrite (cover_count_cons t b), (separated_after busy b.2 t Hs) by lia.
      destruct (decide (t < b.1)) as [Hb|Hb].
      * rewrite bool_decide_eq_true_2 by lia.
        rewrite cover_count_in by (simpl; lia). rewrite cover_count_nil.
        destruct (contains t b) eqn:E; [apply contains_spec in E; lia|].
        split; [lia | done].
      * rewrite (proj2 (contains_spec t b)) by lia.
        case_bool_decide; [rewrite cover_count_out by (simpl; lia)|];
          rewrite cover_count_nil; split; lia.
    + destruct (IH (Some b.2) (Z.max cursor b.2) interval_end t Hs) as [Hle Heq]; [lia|].
      rewrite (cover_count_out t b) by lia.
      case_bool_decide; [rewrite cover_count_out by (simpl; lia)|];
        rewrite cover_count_nil; split; done.
Qed.

Lemma walk_gaps_positive busy : ∀ cursor interval_end,
  Forall (fun iv : interval => iv.1 < iv.2) (walk_gaps cursor interval_end busy).
Proof.
  induction busy as [|b busy IH]; intros cursor interval_end; simpl.
  - case_bool_decide; [|done]. by constructor.
  - apply Forall_app. split; [|apply IH]. case_bool_decide; [|done]. by constructor.
Qed.

Lemma walk_gaps_from busy : ∀ cursor interval_end,
  Forall (fun iv : interval => cursor ≤ iv.1) (walk_gaps cursor interval_end busy).
Proof.
  induction busy as [|b busy IH]; intros cursor interval_end; simpl.
  - case_bool_decide; [|done]. by constructor.
  - apply Forall_app. split.
    + case_bool_decide; [|done]. by constructor.
    + eapply Forall_impl; [apply IH|]. simpl. intros iv Hiv. lia.
Qed.

Lemma covered_count t l : covered t l ↔ cover_count t l ≠ 0%nat.
Proof.
  induction l as [|iv l IH].
  - rewrite cover_count_nil. split; [intros H; by apply covered_nil in H | done].
  - rewrite covered_cons, cover_count_cons, IH.
    destruct (contains t iv); simpl; split; try lia; try (intros [?|?]; done); by right.
Qed.

(** Free intervals stay inside the range when the busy intervals start
    before its end. *)
Lemma walk_gaps_within busy : ∀ cursor interval_end,
  Forall (fun iv : interval => iv.1 ≤ interval_end) busy →
  Forall (fun iv : interval => cursor ≤ iv.1 ∧ iv.2 ≤ interval_end)
    (walk_gaps cursor interval_end busy).
Proof.
  induction busy as [|b busy IH]; intros cursor interval_end Hb; simpl.
  - case_bool_decide; [|done]. constructor; [simpl; lia | done].
  - inversion Hb; subst. apply Forall_app. split.
    + case_bool_decide; [|done]. constructor; [simpl; lia | done].
    + eapply Forall_impl; [by apply IH|]. simpl. intros iv Hiv. lia.
Qed.

Lemma merge_from_within lo hi rest : ∀ last : interval,
  lo ≤ last.1 ∧ last.2 ≤ hi →
  Forall (fun iv : interval => lo ≤ iv.1 ∧ iv.2 ≤ hi) rest →
  Forall (fun iv : interval => lo ≤ iv.1 ∧ iv.2 ≤ hi) (merge_from last rest).
Proof.
  induction rest as [|iv rest IH]; intros last Hlast Hrest; simpl.
  - by constructor.
  - inversion Hrest; subst. case_bool_decide.
    + apply IH; [simpl; lia | done].
    + constructor; [done|]. by apply IH.
Qed.

Lemma merge_busy_within lo hi busy_intervals :
  Forall (fun iv : interval => lo ≤ iv.1 ∧ iv.2 ≤ hi) busy_intervals →
  Forall (fun iv : interval => lo ≤ iv.1 ∧ iv.2 ≤ hi) (merge_busy busy_intervals).
Proof.
  intros Hin. rewrite merge_busy_unfold.
  assert (Hs : Forall (fun iv : interval => lo ≤ iv.1 ∧ iv.2 ≤ hi)
                 (merge_sort tuple_le busy_intervals)).
  { eapply Permutation_Forall; [|exact Hin]. symmetry. apply merge_sort_Permutation. }
  destruct (merge_sort tuple_le busy_intervals) as [|first rest]; [done|].
  inversion Hs; subst. by apply merge_from_within.
Qed.

(** C3.  For busy intervals [(start, end)] with [start <= end] and a range
    from [interval_start] to [interval_end]: the free intervals that
    [get_free_intervals] computes, together with the merged busy intervals,
    tile the range: every instant of the range lies in exactly one of them,
    and no instant at all lies in two; an instant of the range is free
    exactly when no busy interval holds it.  The free intervals are not empty,
    and they are the gaps of the walk that the specification describes:
    over the merged busy intervals in order, with a cursor that moves to
    the maximum of itself and the busy end, and a final gap up to the end.
    When the busy intervals lie inside the range, so do all the pieces. *)
Theorem free_and_busy_tile_the_range (interval_start interval_end : datetime)
    (busy_intervals : list interval) :
  Forall (fun iv : interval => iv.1 ≤ iv.2) busy_intervals →
  (∀ t, interval_start ≤ t < interval_end →
        cover_count t (get_free_intervals interval_start interval_end busy_intervals
                         ++ merge_busy busy_intervals) = 1%nat)
  ∧ (∀ t, (cover_count t (get_free_intervals interval_start interval_end busy_intervals
                            ++ merge_busy busy_intervals) ≤ 1)%nat)
  ∧ (∀ t, interval_start ≤ t < interval_end →
        covered t (get_free_intervals interval_start interval_end busy_intervals)
        ↔ ¬ covered t busy_intervals)
  ∧ Forall (fun iv : interval => iv.1 < iv.2)
      (get_free_intervals interval_start interval_end busy_intervals)
  ∧ get_free_intervals interval_start interval_end busy_intervals
    = walk_gaps interval_start interval_end (merge_busy busy_intervals)
  ∧ (Forall (fun iv : interval => interval_start ≤ iv.1 ∧ iv.2 ≤ interval_end)
       busy_intervals →
     Forall (fun iv : interval => interval_start ≤ iv.1 ∧ iv.2 ≤ interval_end)
       (get_free_intervals interval_start interval_end busy_intervals
          ++ merge_busy busy_intervals)).
Proof.
  intros Hwf. pose proof (merge_busy_separated _ Hwf) as Hs.
  unfold get_free_intervals. rewrite subtract_busy_walk.
  split; [|split; [|split; [|split; [|split]]]]; cycle 2.
  - intros t [Hlo Hhi]. rewrite <- (merge_busy_covers t busy_intervals), !covered_count.
    destruct (walk_gaps_tiles _ None interval_start interval_end t Hs Hlo) as [_ Heq].
    specialize (Heq Hhi). lia.
  - apply walk_gaps_positive.
  - done.
  - intros Hin. pose proof (merge_busy_within _ _ _ Hin) as Hm.
    apply Forall_app. split; [|done]. apply walk_gaps_within.
    pose proof (merge_busy_within interval_start interval_end _ Hin) as Hm'.
    pose proof (separated_ordered _ _ Hs) as Hw.
    rewrite Forall_forall in *. intros iv Hiv.
    specialize (Hm' iv Hiv). specialize (Hw iv Hiv). lia.
  - intros t [Hlo Hhi]. rewrite cover_count_app.
    by apply (walk_gaps_tiles _ None interval_start interval_end t Hs Hlo).
  - intros t. rewrite cover_count_app.
    destruct (decide (interval_start ≤ t)) as [Hlo|Hlo].
    + by apply (walk_gaps_tiles _ None interval_start interval_end t Hs Hlo).
    + rewrite walk_gaps_before by lia. simpl. by apply (separated_at_most_once _ None).
Qed.

(** The scenario of the specification, in minutes of the day: busy
    09:00-10:00 and 09:30-11:00, range 08:00-12:00; 11:30 is free. *)
Lemma free_and_busy_tile_the_range_witness :
  cover_count 690 (get_free_intervals 480 720 [(540, 600); (570, 660)]
                     ++ merge_busy [(540, 600); (570, 660)]) = 1%nat.
Proof.
  assert (Hwf : Forall (fun iv : interval => iv.1 ≤ iv.2) [(540, 600); (570, 660)]).
  { repeat constructor; simpl; lia. }
  destruct (free_and_busy_tile_the_range 480 720 _ Hwf) as (Hone & _).
  apply Hone. lia.
Defined.

(** C3, as the specification states it, in minutes of the day: the range
    is 08:00-12:00 and one busy event runs from 07:00 to 09:00, across the
    start of the range.  The busy interval is kept whole, it is not cut at
    the start of the range, so the instant 07:30, which is not in the range,
    lies in one of the pieces: the free and the merged busy intervals cover
    the range and more, they do not exactly tile it. *)
Lemma pieces_are_not_cut_to_the_range :
  merge_busy [(420, 540)] = [(420, 540)]
  ∧ get_free_intervals 480 720 [(420, 540)] = [(540, 720)]
  ∧ cover_count 450 (get_free_intervals 480 720 [(420, 540)] ++ merge_busy [(420, 540)])
    = 1%nat
  ∧ ¬ (∀ t, cover_count t (get_free_intervals 480 720 [(420, 540)]
                             ++ merge_busy [(420, 540)]) = 1%nat
            ↔ 480 ≤ t < 720).
Proof.
  split; [vm_compute; reflexivity|]. split; [vm_compute; reflexivity|].
  split; [vm_compute; reflexivity|].
  intros Htile. assert (H : 480 ≤ 450 < 720) by (apply Htile; vm_compute; reflexivity).
  lia.
Qed.

(** Nor is a free interval cut at the end of the range: the gap before a
    busy event that starts after the range runs up to that event. *)
Example busy_after_the_range :
  get_free_intervals 480 720 [(780, 840)] = [(480, 780)].
Proof. vm_compute; reflexivity. Qed.

Example merge_scenario :
  merge_busy [(570, 660); (540, 600)] = [(540, 660)]
  ∧ get_free_intervals 480 720 [(570, 660); (540, 600)] = [(480, 540); (660, 720)].
Proof. split; vm_compute; reflexivity. Qed.

(** *** Activity Hours *)

Lemma day_start_le dt : day_start dt ≤ dt < day_start dt + us_per_day.
Proof. unfold day_start, us_per_day. Z.to_euclidean_division_equations; lia. Qed.

Lemma same_day c t :
  day_start c ≤ t < day_start c + us_per_day → t `div` us_per_day = c `div` us_per_day.
Proof. unfold day_start, us_per_day. Z.to_euclidean_division_equations; lia. Qed.

Lemma same_day_start c t :
  day_start c ≤ t < day_start c + us_per_day → day_start t = day_start c.
Proof. intros H. pose proof (same_day c t H) as E. unfold day_start. by rewrite E. Qed.

Lemma same_day_name c t :
  day_start c ≤ t < day_start c + us_per_day → day_name t = day_name c.
Proof. intros H. pose proof (same_day c t H) as E. unfold day_name, weekday. by rewrite E. Qed.

Lemma day_start_next dt : day_start (day_start dt + us_per_day) = day_start dt + us_per_day.
Proof. unfold day_start, us_per_day. Z.to_euclidean_division_equations; lia. Qed.

Lemma next_midnight_eq dt : next_midnight dt = day_start dt + us_per_day.
Proof. unfold next_midnight, day_start, us_per_day. Z.to_euclidean_division_equations; lia. Qed.

Lemma time_us_bounds tm : valid_time tm → 0 ≤ time_us tm ≤ 86340000000.
Proof. unfold valid_time, time_us. intros [? ?]. lia. Qed.

Lemma replace_hm_eq dt tm :
  replace_hm dt (hour tm) (minute tm) = day_start dt + time_us tm.
Proof. done. Qed.

(** Every entry of the Activity Hours holds times that [strptime] returns. *)
Lemma covered_singleton t (iv : interval) : covered t [iv] ↔ iv.1 ≤ t < iv.2.
Proof.
  rewrite covered_cons, contains_spec. split; [|by left].
  intros [H|H]; [done | by apply covered_nil in H].
Qed.

Lemma covered_app t l1 l2 : covered t (l1 ++ l2) ↔ covered t l1 ∨ covered t l2.
Proof.
  induction l1 as [|iv l1 IH]; simpl.
  - split; [by right | intros [H|H]; [by apply covered_nil in H | done]].
  - rewrite !covered_cons, IH. tauto.
Qed.

Lemma day_segment_covers activity_hours current_dt end_dt t :
  (∀ day dh, activity_hours !! day = Some dh →
             valid_time (dh_start dh) ∧ valid_time (dh_end dh)) →
  covered t (day_segment activity_hours current_dt end_dt)
  ↔ current_dt ≤ t < end_dt ∧ t < next_midnight current_dt
    ∧ in_activity_hours activity_hours t.
Proof.
  intros Hvalid. unfold day_segment, in_activity_hours.
  rewrite next_midnight_eq. pose proof (day_start_le current_dt) as Hcur.
  destruct (activity_hours !! day_name current_dt) as [dh|] eqn:Hdh.
  - destruct (Hvalid _ _ Hdh) as [Hs He].
    apply time_us_bounds in Hs, He. rewrite !replace_hm_eq. unfold end_of_day.
    assert (Hday : current_dt ≤ t < day_start current_dt + us_per_day →
                   day_name t = day_name current_dt ∧ time_of_day t = t - day_start current_dt).
    { intros Ht. unfold time_of_day.
      rewrite (same_day_name current_dt t), (same_day_start current_dt t) by lia. done. }
    unfold us_per_day in *. case_bool_decide as Hne.
    + rewrite covered_singleton. simpl. split.
      * intros Ht. destruct Hday as [Hn Htod]; [lia|].
        split; [lia|]. split; [lia|]. exists dh. rewrite Hn, Htod. split; [done | lia].
      * intros (Ht & Hnext & dh' & Hdh' & Hwin). destruct Hday as [Hn Htod]; [lia|].
        rewrite Hn, Hdh in Hdh'. injection Hdh' as <-. rewrite Htod in Hwin. lia.
    + split; [intros H; by apply covered_nil in H|].
      intros (Ht & Hnext & dh' & Hdh' & Hwin). destruct Hday as [Hn Htod]; [lia|].
      rewrite Hn, Hdh in Hdh'. injection Hdh' as <-. rewrite Htod in Hwin. lia.
  - split; [intros H; by apply covered_nil in H|].
    intros (Ht & Hnext & dh' & Hdh' & Hwin).
    rewrite (same_day_name current_dt t) in Hdh' by lia. congruence.
Qed.

Lemma split_by_days_covers activity_hours fuel : ∀ current_dt end_dt t,
  (∀ day dh, activity_hours !! day = Some dh →
             valid_time (dh_start dh) ∧ valid_time (dh_end dh)) →
  end_dt - day_start current_dt ≤ Z.of_nat fuel * us_per_day →
  covered t (split_by_days fuel activity_hours current_dt end_dt)
  ↔ current_dt ≤ t < end_dt ∧ in_activity_hours activity_hours t.
Proof.
  induction fuel as [|fuel IH]; intros current_dt end_dt t Hvalid Hfuel;
    pose proof (day_start_le current_dt) as Hcur; simpl.
  - split; [intros H; by apply covered_nil in H | lia].
  - case_bool_decide as Hlt.
    + rewrite covered_app, day_segment_covers, IH; [|done| |done].
      * rewrite next_midnight_eq. split.
        -- intros [(Ht & _ & Hin)|(Ht & Hin)]; (split; [lia | done]).
        -- intros (Ht & Hin).
           destruct (decide (t < day_start current_dt + us_per_day)); [left|right];
             repeat split; try done; lia.
      * rewrite next_midnight_eq, day_start_next. lia.
    + split; [intros H; by apply covered_nil in H | lia].
Qed.

Lemma split_by_days_done activity_hours fuel current_dt end_dt :
  end_dt ≤ current_dt → split_by_days fuel activity_hours current_dt end_dt = [].
Proof. intros H. destruct fuel; simpl; [done|]. by rewrite bool_decide_eq_false_2 by lia. Qed.

Lemma covered_shift t offset (l : list interval) :
  covered t ((fun seg : interval => (seg.1 - offset, seg.2 - offset)) <$> l)
  ↔ covered (t + offset) l.
Proof.
  unfold covered. split.
  - intros (iv & Hin & Hc). apply list_elem_of_fmap in Hin as (seg & -> & Hin).
    exists seg. split; [done|]. apply contains_spec in Hc. apply contains_spec.
    simpl in Hc. lia.
  - intros (seg & Hin & Hc). exists (seg.1 - offset, seg.2 - offset). split.
    + apply list_elem_of_fmap. by exists seg.
    + apply contains_spec in Hc. apply contains_spec. simpl. lia.
Qed.

(** The loop over one free interval keeps the instants of the interval
    whose reading on the clock of the interval's start lies in the window of
    its weekday. *)
Lemma filter_interval_covers utcoffset activity_hours (iv : interval) t :
  (∀ day dh, activity_hours !! day = Some dh →
             valid_time (dh_start dh) ∧ valid_time (dh_end dh)) →
  covered t (filter_interval utcoffset activity_hours iv)
  ↔ iv.1 ≤ t < iv.2 ∧ in_activity_hours activity_hours (t + utcoffset iv.1).
Proof.
  intros Hvalid. unfold filter_interval. cbv zeta. rewrite covered_shift.
  destruct (decide (iv.2 ≤ iv.1)) as [Hle|Hlt].
  - rewrite split_by_days_done by lia.
    split; [intros H; by apply covered_nil in H | lia].
  - rewrite split_by_days_covers; [split; intros [? ?]; (split; [lia | done]) | done |].
    pose proof (day_start_le (iv.1 + utcoffset iv.1)) as Hcur. unfold us_per_day in *.
    rewrite Z2Nat.id by (Z.to_euclidean_division_equations; lia).
    Z.to_euclidean_division_equations; lia.
Qed.

Lemma covered_flat_map t (f : interval → list interval) l :
  covered t (flat_map f l) ↔ ∃ iv, iv ∈ l ∧ covered t (f iv).
Proof.
  induction l as [|iv l IH]; simpl.
  - split; [intros H; by apply covered_nil in H|].
    intros (iv & Hin & _). by apply not_elem_of_nil in Hin.
  - rewrite covered_app, IH. split.
    + intros [H|(iv' & Hin & H)].
      * exists iv. split; [apply elem_of_cons; by left | done].
      * exists iv'. split; [apply elem_of_cons; by right | done].
    + intros (iv' & Hin & H). apply elem_of_cons in Hin as [->|Hin]; [by left|].
      right. by exists iv'.
Qed.

(** The shape of an emitted segment: not empty, inside the interval it is
    cut from, and ending on the day on which it starts. *)
Lemma day_segment_shape activity_hours current_dt end_dt :
  Forall (fun seg : interval =>
            seg.1 < seg.2 ∧ current_dt ≤ seg.1 ∧ seg.2 ≤ end_dt ∧ seg.2 ≤ end_of_day seg.1)
    (day_segment activity_hours current_dt end_dt).
Proof.
  unfold day_segment. destruct (activity_hours !! day_name current_dt) as [dh|]; [|done].
  case_bool_decide as Hne; [|done]. constructor; [|done]. simpl.
  pose proof (day_start_le current_dt) as Hcur.
  split; [done|]. split; [lia|]. split; [lia|].
  unfold end_of_day in *.
  rewrite (same_day_start current_dt (Z.max _ _)); unfold us_per_day in *; lia.
Qed.

Lemma split_by_days_shape activity_hours fuel : ∀ interval_start current_dt end_dt,
  interval_start ≤ current_dt →
  Forall (fun seg : interval =>
            seg.1 < seg.2 ∧ interval_start ≤ seg.1 ∧ seg.2 ≤ end_dt ∧ seg.2 ≤ end_of_day seg.1)
    (split_by_days fuel activity_hours current_dt end_dt).
Proof.
  induction fuel as [|fuel IH]; intros interval_start current_dt end_dt Hle; simpl; [done|].
  case_bool_decide; [|done]. apply Forall_app. split.
  - eapply Forall_impl; [apply day_segment_shape|]. simpl. intros seg Hseg. lia.
  - apply IH. pose proof (day_start_le current_dt). rewrite next_midnight_eq. lia.
Qed.

(** The shape of the segments of the filter: not empty, inside one free
    interval, and ending on the day on which they start, on the clock of
    the start of that interval. *)
Lemma filter_interval_shape utcoffset activity_hours (iv : interval) :
  Forall (fun seg : interval =>
            seg.1 < seg.2 ∧ iv.1 ≤ seg.1 ∧ seg.2 ≤ iv.2
            ∧ seg.2 + utcoffset iv.1 ≤ end_of_day (seg.1 + utcoffset iv.1))
    (filter_interval utcoffset activity_hours iv).
Proof.
  unfold filter_interval. cbv zeta. apply Forall_fmap.
  eapply Forall_impl;
    [apply (split_by_days_shape _ _ (iv.1 + utcoffset iv.1)); lia|].
  simpl. intros seg (? & ? & ? & ?).
  replace (seg.1 - utcoffset iv.1 + utcoffset iv.1) with seg.1 by lia.
  replace (seg.2 - utcoffset iv.1 + utcoffset iv.1) with seg.2 by lia.
  split; [lia|]. split; [lia|]. split; [lia | done].
Qed.

Lemma filter_by_activity_hours_shape utcoffset activity_hours free_intervals :
  Forall (fun seg : interval =>
            seg.1 < seg.2
            ∧ ∃ iv : interval, iv ∈ free_intervals ∧ iv.1 ≤ seg.1 ∧ seg.2 ≤ iv.2
                ∧ seg.2 + utcoffset iv.1 ≤ end_of_day (seg.1 + utcoffset iv.1))
    (filter_by_activity_hours utcoffset activity_hours free_intervals).
Proof.
  unfold filter_by_activity_hours.
  induction free_intervals as [|iv l IH]; simpl; [done|].
  apply Forall_app. split.
  - eapply Forall_impl; [apply filter_interval_shape|]. simpl.
    intros seg (? & ? & ? & ?). split; [done|].
    exists iv. split; [apply elem_of_cons; by left | done].
  - eapply Forall_impl; [exact IH|]. simpl.
    intros seg (? & iv' & ? & ?). split; [done|].
    exists iv'. split; [apply elem_of_cons; by right | done].
Qed.

Lemma filter_by_activity_hours_covers utcoffset activity_hours free_intervals t :
  (∀ day dh, activity_hours !! day = Some dh →
             valid_time (dh_start dh) ∧ valid_time (dh_end dh)) →
  covered t (filter_by_activity_hours utcoffset activity_hours free_intervals)
  ↔ ∃ iv : interval, iv ∈ free_intervals ∧ iv.1 ≤ t < iv.2
      ∧ in_activity_hours activity_hours (t + utcoffset iv.1).
Proof.
  intros Hvalid. unfold filter_by_activity_hours. rewrite covered_flat_map. split.
  - intros (iv & Hin & Hc). apply filter_interval_covers in Hc as [Ht Hah]; [|done].
    by exists iv.
  - intros (iv & Hin & Ht & Hah). exists iv. split; [done|].
    by apply filter_interval_covers.
Qed.

Lemma day_start_offset monday k :
  day_start monday = monday → 0 ≤ k < us_per_day → day_start (monday + k) = monday.
Proof.
  intros Hm Hk. rewrite (same_day_start monday); [done|]. rewrite Hm. lia.
Qed.

Lemma day_name_offset monday k :
  day_start monday = monday → 0 ≤ k < us_per_day → day_name (monday + k) = day_name monday.
Proof.
  intros Hm Hk. apply same_day_name. rewrite Hm. lia.
Qed.

(** The scenario of the specification, for any Monday [monday] (its
    midnight on the clock) and any zone, [offset] being the UTC offset in
    force at 07:00: with Monday 09:00-17:00 as the only Activity Hours, the
    free interval from 07:00 to 20:00 of that Monday becomes the interval
    from 09:00 to 17:00. *)
Lemma monday_scenario utcoffset monday offset :
  day_start monday = monday → weekday monday = 0 →
  utcoffset (monday + time_us (mkTime 7 0) - offset) = offset →
  filter_by_activity_hours utcoffset {["monday" := mkDayHours (mkTime 9 0) (mkTime 17 0)]}
    [(monday + time_us (mkTime 7 0) - offset, monday + time_us (mkTime 20 0) - offset)]
  = [(monday + time_us (mkTime 9 0) - offset, monday + time_us (mkTime 17 0) - offset)].
Proof.
  intros Hm Hw Ho.
  assert (Hname : day_name monday = "monday") by (unfold day_name; by rewrite Hw).
  unfold filter_by_activity_hours, filter_interval. simpl flat_map. rewrite app_nil_r.
  cbn [fst snd]. cbv zeta. rewrite Ho.
  replace (monday + time_us (mkTime 20 0) - offset - (monday + time_us (mkTime 7 0) - offset))
    with 46800000000 by (unfold time_us; simpl; lia).
  replace (monday + time_us (mkTime 7 0) - offset + offset)
    with (monday + 25200000000) by (unfold time_us; simpl; lia).
  replace (monday + time_us (mkTime 20 0) - offset + offset)
    with (monday + 72000000000) by (unfold time_us; simpl; lia).
  change (Z.to_nat (46800000000 `div` us_per_day + 2)) with 2%nat.
  change (time_us (mkTime 9 0)) with 32400000000.
  change (time_us (mkTime 17 0)) with 61200000000.
  cbn [split_by_days].
  rewrite bool_decide_eq_true_2 by lia.
  rewrite next_midnight_eq, (day_start_offset monday) by (unfold us_per_day; lia).
  rewrite (bool_decide_eq_false_2 (monday + us_per_day < _)) by (unfold us_per_day; lia).
  rewrite app_nil_r. unfold day_segment.
  rewrite (day_name_offset monday), Hname by (unfold us_per_day; lia).
  rewrite lookup_singleton_eq. cbn [dh_start dh_end hour minute].
  unfold replace_hm, end_of_day.
  rewrite (day_start_offset monday) by (unfold us_per_day; lia).
  unfold us_per_day.
  rewrite bool_decide_eq_true_2 by lia.
  simpl fmap. f_equal. f_equal; lia.
Qed.

(** The Activity Hours filter as the code runs it.  For a todo list whose
    Activity Hours have at least one day enabled (and no override), each free
    interval is filtered day by day on the clock of the UTC offset in force
    at its start:
    - an instant is kept exactly when it lies in a free interval and its
      reading on that clock lies in the allowed window of its weekday, so a
      day with no window contributes nothing;
    - every emitted segment is not empty, lies inside one free interval and
      ends on the day on which it starts, so none straddles two days'
      policies on that clock;
    - over free intervals inside which the offset of the zone does not
      change, that clock is the local time of the zone: an instant is kept
      exactly when it is free and its local time lies in the window of its
      weekday;
    - with Monday 09:00-17:00 as the only window, the free interval from
      Monday 07:00 to Monday 20:00 is filtered to Monday 09:00-17:00 alone. *)
Theorem activity_hours_filter_on_the_clock_of_the_start
    (utcoffset : timezone)
    (configured_activity_hours : gmap string (gmap string day_hours))
    (todos_list : string) (activity_hours : gmap string day_hours)
    (free_intervals : list interval) :
  configured_activity_hours !! todos_list = Some activity_hours →
  has_any_activity_hours activity_hours = true →
  (∀ day dh, activity_hours !! day = Some dh →
             valid_time (dh_start dh) ∧ valid_time (dh_end dh)) →
  intervals_to_format utcoffset configured_activity_hours false todos_list free_intervals
    = (filter_by_activity_hours utcoffset activity_hours free_intervals, Filtered)
  ∧ (∀ t, covered t (filter_by_activity_hours utcoffset activity_hours free_intervals)
          ↔ ∃ iv : interval, iv ∈ free_intervals ∧ iv.1 ≤ t < iv.2
              ∧ in_activity_hours activity_hours (t + utcoffset iv.1))
  ∧ Forall (fun seg : interval =>
              seg.1 < seg.2
              ∧ ∃ iv : interval, iv ∈ free_intervals ∧ iv.1 ≤ seg.1 ∧ seg.2 ≤ iv.2
                  ∧ seg.2 + utcoffset iv.1 ≤ end_of_day (seg.1 + utcoffset iv.1))
      (filter_by_activity_hours utcoffset activity_hours free_intervals)
  ∧ ((∀ (iv : interval) t, iv ∈ free_intervals → iv.1 ≤ t < iv.2 →
          utcoffset t = utcoffset iv.1) →
     ∀ t, covered t (filter_by_activity_hours utcoffset activity_hours free_intervals)
          ↔ covered t free_intervals
            ∧ in_activity_hours activity_hours (local_time utcoffset t))
  ∧ (∀ monday offset, day_start monday = monday → weekday monday = 0 →
       utcoffset (monday + time_us (mkTime 7 0) - offset) = offset →
       intervals_to_format utcoffset
         {["work" := {["monday" := mkDayHours (mkTime 9 0) (mkTime 17 0)]}]}
         false "work"
         [(monday + time_us (mkTime 7 0) - offset, monday + time_us (mkTime 20 0) - offset)]
       = ([(monday + time_us (mkTime 9 0) - offset,
            monday + time_us (mkTime 17 0) - offset)], Filtered)).
Proof.
  intros Hcfg Hany Hvalid. split; [|split; [|split; [|split]]].
  - unfold intervals_to_format. by rewrite Hcfg, Hany.
  - intros t. by apply filter_by_activity_hours_covers.
  - apply filter_by_activity_hours_shape.
  - intros Hfixed t. rewrite filter_by_activity_hours_covers by done.
    unfold local_time, covered. split.
    + intros (iv & Hin & Ht & Hah). split.
      * exists iv. split; [done | by apply contains_spec].
      * by rewrite (Hfixed iv t Hin Ht).
    + intros [(iv & Hin & Hc) Hah]. apply contains_spec in Hc.
      exists iv. split; [done|]. split; [done|]. by rewrite <- (Hfixed iv t Hin Hc).
  - intros monday offset Hm Hw Ho. unfold intervals_to_format.
    rewrite lookup_singleton_eq.
    change (has_any_activity_hours {["monday" := mkDayHours (mkTime 9 0) (mkTime 17 0)]})
      with true.
    cbn iota. by rewrite monday_scenario.
Qed.

(** The scenario of the specification on Monday 5 January 1970, read in
    UTC. *)
Example monday_in_utc :
  intervals_to_format (fixed_offset 0)
    {["work" := {["monday" := mkDayHours (mkTime 9 0) (mkTime 17 0)]}]}
    false "work" [(370800000000, 417600000000)]
  = ([(378000000000, 406800000000)], Filtered).
Proof. vm_compute. reflexivity. Qed.

(** The same scenario in Asia/Jerusalem on Monday 24 March 2025, the week
    before the clocks change: the free interval from 07:00 to 20:00 becomes
    09:00 to 17:00. *)
Example monday_before_the_change :
  intervals_to_format jerusalem_2025
    {["work" := {["monday" := mkDayHours (mkTime 9 0) (mkTime 17 0)]}]}
    false "work" [(1742792400000000, 1742839200000000)]
  = ([(1742799600000000, 1742828400000000)], Filtered)
  ∧ time_of_day (local_time jerusalem_2025 1742799600000000) = time_us (mkTime 9 0)
  ∧ time_of_day (local_time jerusalem_2025 1742828400000000) = time_us (mkTime 17 0).
Proof. repeat split; vm_compute; reflexivity. Qed.

(** C4.  The filter on a free interval that holds a change of the UTC
    offset.  In Asia/Jerusalem the clocks went from UTC+2 to UTC+3 on Friday
    28 March 2025.  With Monday 09:00-17:00 as the only Activity Hours, the
    free interval from Thursday 27 March 12:00 (+02:00) to Monday 31 March
    20:00 (+03:00) is filtered to one segment, from 1743404400 to 1743433200
    seconds after the epoch: Monday 31 March from 10:00 to 18:00 local time,
    which is 09:00 to 17:00 on the UTC+2 clock of the start of the interval.
    So the free hour from 09:00 to 10:00 local inside the window is not
    offered, and the hour from 17:00 to 18:00 local outside the window is. *)
Theorem window_moves_after_an_offset_change :
  let activity_hours : activity_hours_t :=
    {["monday" := mkDayHours (mkTime 9 0) (mkTime 17 0)]} in
  let free_intervals : list interval := [(1743069600000000, 1743440400000000)] in
  let offered := filter_by_activity_hours jerusalem_2025 activity_hours free_intervals in
  intervals_to_format jerusalem_2025 {["work" := activity_hours]} false "work" free_intervals
    = (offered, Filtered)
  ∧ offered = [(1743404400000000, 1743433200000000)]
  ∧ local_time jerusalem_2025 1743069600000000 = 1743069600000000 + 2 * us_per_hour
  ∧ day_name (local_time jerusalem_2025 1743069600000000) = "thursday"
  ∧ time_of_day (local_time jerusalem_2025 1743069600000000) = time_us (mkTime 12 0)
  ∧ local_time jerusalem_2025 1743440400000000 = 1743440400000000 + 3 * us_per_hour
  ∧ day_name (local_time jerusalem_2025 1743440400000000) = "monday"
  ∧ time_of_day (local_time jerusalem_2025 1743440400000000) = time_us (mkTime 20 0)
  ∧ day_name (local_time jerusalem_2025 1743404400000000) = "monday"
  ∧ time_of_day (local_time jerusalem_2025 1743404400000000) = time_us (mkTime 10 0)
  ∧ time_of_day (local_time jerusalem_2025 1743433200000000) = time_us (mkTime 18 0)
  ∧ (∀ t, 1743400800000000 ≤ t < 1743404400000000 →
          covered t free_intervals
          ∧ in_activity_hours activity_hours (local_time jerusalem_2025 t)
          ∧ ¬ covered t offered)
  ∧ (∀ t, 1743429600000000 ≤ t < 1743433200000000 →
          covered t offered
          ∧ ¬ in_activity_hours activity_hours (local_time jerusalem_2025 t)).
Proof.
  intros activity_hours free_intervals offered.
  assert (Hoffered : offered = [(1743404400000000, 1743433200000000)])
    by (vm_compute; reflexivity).
  assert (Hlocal : ∀ t, 1743400800000000 ≤ t < 1743433200000000 →
            local_time jerusalem_2025 t = t + 10800000000
            ∧ day_name (local_time jerusalem_2025 t) = "monday"
            ∧ time_of_day (local_time jerusalem_2025 t) = t - 1743368400000000).
  { intros t Ht. unfold local_time, jerusalem_2025, dst_start_2025, us_per_hour.
    rewrite bool_decide_eq_false_2 by lia.
    change (3 * 3600000000) with 10800000000.
    assert (Hday : day_start 1743379200000000 ≤ t + 10800000000
                   < day_start 1743379200000000 + us_per_day)
      by (change (day_start 1743379200000000) with 1743379200000000;
          unfold us_per_day; lia).
    split; [done|]. split.
    - by rewrite (same_day_name 1743379200000000).
    - unfold time_of_day. rewrite (same_day_start 1743379200000000) by done.
      change (day_start 1743379200000000) with 1743379200000000. lia. }
  rewrite Hoffered.
  split; [vm_compute; reflexivity|]. split; [done|].
  do 9 (split; [vm_compute; reflexivity|]).
  split.
  - intros t Ht. destruct (Hlocal t) as (_ & Hname & Htod); [lia|]. split; [|split].
    + apply covered_singleton. simpl. lia.
    + exists (mkDayHours (mkTime 9 0) (mkTime 17 0)). rewrite Hname, Htod. split.
      * apply lookup_singleton_eq.
      * change (time_us (dh_start _)) with 32400000000.
        change (time_us (dh_end _)) with 61200000000. lia.
    + rewrite covered_singleton. simpl. lia.
  - intros t Ht. destruct (Hlocal t) as (_ & Hname & Htod); [lia|]. split.
    + apply covered_singleton. simpl. lia.
    + intros (dh & Hdh & Hwin). rewrite Hname in Hdh.
      unfold activity_hours in Hdh. rewrite lookup_singleton_eq in Hdh.
      injection Hdh as <-. rewrite Htod in Hwin.
      change (time_us (dh_end _)) with 61200000000 in Hwin. lia.
Qed.

End google_calendar_spec.

(** * Properties of the event router *)
Module task_processor_spec.
Import agent_lock task_processor.

(** *** The change analysis, field by field *)

Lemma analyze_field_unfold current_data old_data changes fd :
  analyze_field current_data old_data changes fd
  = {| has_changes := has_changes changes || field_changed current_data old_data fd;
       fields_changed :=
         fields_changed changes ++ (if field_changed current_data old_data fd then [fd.1] else []);
       change_details := change_details (analyze_field current_data old_data changes fd);
       change_summary := change_summary changes ++ field_lines current_data old_data fd;
       significant_changes := significant_changes changes ++ field_tags current_data old_data fd |}.
Proof.
  unfold analyze_field, field_lines, field_tags, field_changed.
  destruct changes as [h f d s g]. simpl.
  case_bool_decide; simpl; [by rewrite orb_true_r|].
  by rewrite orb_false_r, !app_nil_r.
Qed.

Lemma analyze_fold current_data old_data fields : ∀ changes,
  let r := fold_left (analyze_field current_data old_data) fields changes in
  has_changes r = has_changes changes || existsb (field_changed current_data old_data) fields
  ∧ change_summary r
    = change_summary changes ++ flat_map (field_lines current_data old_data) fields
  ∧ significant_changes r
    = significant_changes changes ++ flat_map (field_tags current_data old_data) fields.
Proof.
  induction fields as [|fd fields IH]; intros changes; simpl.
  - by rewrite orb_false_r, !app_nil_r.
  - destruct (IH (analyze_field current_data old_data changes fd)) as (Hh & Hs & Ht).
    rewrite Hh, Hs, Ht. rewrite analyze_field_unfold. simpl.
    by rewrite orb_assoc, <- !app_assoc.
Qed.

Lemma analyze_task_changes_unfold current_data old_data :
  has_changes (analyze_task_changes current_data old_data)
  = existsb (field_changed current_data old_data) important_fields
  ∧ change_summary (analyze_task_changes current_data old_data)
    = flat_map (field_lines current_data old_data) important_fields
  ∧ significant_changes (analyze_task_changes current_data old_data)
    = flat_map (field_tags current_data old_data) important_fields.
Proof. apply (analyze_fold current_data old_data important_fields no_changes). Qed.

Lemma of_option_inj {A} (f : A → value) (x y : option A) :
  (∀ a, f a ≠ VNone) → (∀ a b, f a = f b → a = b) → of_option f x = of_option f y → x = y.
Proof.
  intros Hn Hinj. destruct x as [a|], y as [b|]; simpl; intros H; try done.
  - f_equal. by apply Hinj.
  - by apply Hn in H.
  - symmetry in H. by apply Hn in H.
Qed.

(** Rewrites the tests [v != v] of unchanged fields. *)
Ltac unchanged_fields :=
  repeat match goal with
         | |- context [bool_decide (?v ≠ ?v)] =>
             rewrite (bool_decide_eq_false_2 (v ≠ v)) by (let H := fresh in intros H; by apply H)
         end.

Lemma same_labels_no_difference (l1 l2 : list string) :
  (∀ x, x ∈ l1 ↔ x ∈ l2) →
  (list_to_set l1 ∖ list_to_set l2 : gset string) = ∅.
Proof.
  intros Hsame. apply set_eq. intros x.
  rewrite elem_of_difference, !elem_of_list_to_set. set_solver.
Qed.

(** C9.  When two snapshots agree on every tracked field but the labels,
    and their label lists hold the same labels (so they differ in order or
    repetition at most), the analysis has no ["labels_changed"] tag and no
    labels line: its tags and its summary are empty.  The field is still
    listed as changed when the lists differ as lists. *)
Theorem label_order_is_no_label_change (current_data old_data : item) :
  content current_data = content old_data →
  due current_data = due old_data →
  duration current_data = duration old_data →
  priority current_data = priority old_data →
  description current_data = description old_data →
  project_id current_data = project_id old_data →
  section_id current_data = section_id old_data →
  checked current_data = checked old_data →
  (∀ x, x ∈ default [] (labels current_data) ↔ x ∈ default [] (labels old_data)) →
  ("labels_changed" ∉ significant_changes (analyze_task_changes current_data old_data))
  ∧ Forall (fun line => ¬ is_labels_line line)
      (change_summary (analyze_task_changes current_data old_data))
  ∧ significant_changes (analyze_task_changes current_data old_data) = []
  ∧ change_summary (analyze_task_changes current_data old_data) = []
  ∧ has_changes (analyze_task_changes current_data old_data)
    = bool_decide (labels old_data ≠ labels current_data).
Proof.
  intros Hc Hd Hu Hp Hs Hj Hn Hk Hl.
  destruct (analyze_task_changes_unfold current_data old_data) as (Hh & Hsum & Htags).
  assert (Hadd : (list_to_set (default [] (labels current_data))
                  ∖ list_to_set (default [] (labels old_data)) : gset string) = ∅)
    by (by apply same_labels_no_difference).
  assert (Hrem : (list_to_set (default [] (labels old_data))
                  ∖ list_to_set (default [] (labels current_data)) : gset string) = ∅)
    by (apply same_labels_no_difference; intros x; by rewrite Hl).
  assert (Htags' : significant_changes (analyze_task_changes current_data old_data) = []).
  { rewrite Htags. unfold important_fields, field_tags, field_changed. simpl.
    unfold get. simpl. rewrite Hc, Hd, Hu, Hp, Hs, Hj, Hn, Hk.
    unchanged_fields. simpl. case_bool_decide; [|done].
    rewrite Hadd, Hrem. by unchanged_fields. }
  assert (Hsum' : change_summary (analyze_task_changes current_data old_data) = []).
  { rewrite Hsum. unfold important_fields, field_lines, field_changed. simpl.
    unfold get. simpl. rewrite Hc, Hd, Hu, Hp, Hs, Hj, Hn, Hk.
    unchanged_fields. simpl. case_bool_decide; [|done].
    rewrite Hadd, Hrem. by unchanged_fields. }
  rewrite Htags', Hsum'. split; [apply not_elem_of_nil|]. split; [done|].
  split; [done|]. split; [done|].
  rewrite Hh. unfold important_fields, field_changed. simpl.
  unfold get. simpl. rewrite Hc, Hd, Hu, Hp, Hs, Hj, Hn, Hk.
  unchanged_fields. simpl. rewrite orb_false_r.
  apply bool_decide_ext. split; intros H E; apply H; [by rewrite E|].
  by apply (of_option_inj VList) in E; [| |intros ? ? [=]].
Qed.

(** Two snapshots with the labels in another order. *)
Lemma label_order_is_no_label_change_witness :
  significant_changes
    (analyze_task_changes (report_task "item:updated" (Some 2) ["home"; "urgent"])
                          (report_task "item:updated" (Some 2) ["urgent"; "home"])) = []
  ∧ has_changes
      (analyze_task_changes (report_task "item:updated" (Some 2) ["home"; "urgent"])
                            (report_task "item:updated" (Some 2) ["urgent"; "home"])) = true.
Proof.
  destruct (label_order_is_no_label_change
              (report_task "item:updated" (Some 2) ["home"; "urgent"])
              (report_task "item:updated" (Some 2) ["urgent"; "home"]))
    as (_ & _ & Htags & _ & Hh); try reflexivity.
  - intros x. simpl. rewrite !elem_of_cons, !elem_of_nil. tauto.
  - split; [exact Htags|]. rewrite Hh. reflexivity.
Defined.

(** *** The priority gate *)

(** C10.  When the threshold check raises, either in
    [config_manager.should_auto_schedule_task] or, after a negative answer,
    in [config_manager.load_settings], [should_auto_schedule_by_priority]
    returns [True] with the reason "Priority check failed ... defaulting to
    auto-schedule" that carries the error: the task passes the gate. *)
Theorem priority_check_failure_allows (env : Env) (task_data : item) (todos_list : string)
    (e : exn) :
  should_auto_schedule_task env (priority task_data) todos_list = Raises e
  ∨ (should_auto_schedule_task env (priority task_data) todos_list = Returns false
     ∧ load_settings env = Raises e) →
  should_auto_schedule_by_priority env task_data todos_list
  = (true, Priority_check_failed (default 1 (priority task_data)) (exn_str e)).
Proof.
  unfold should_auto_schedule_by_priority. intros [H|[H1 H2]].
  - by rewrite H.
  - by rewrite H1, H2.
Qed.

Lemma priority_check_failure_allows_witness :
  should_auto_schedule_by_priority flaky_env (report_task "item:added" None []) "work"
  = (true, Priority_check_failed 1 "'<' not supported").
Proof.
  apply (priority_check_failure_allows flaky_env (report_task "item:added" None []) "work"
           (TypeError "'<' not supported")).
  left. reflexivity.
Defined.

(** With the check failing, a new task of a mapped project goes to the
    planner, under the lock. *)
Example failed_check_reaches_the_planner :
  handle_task_added flaky_env (mkTaskData (report_task "item:added" None []) None) idle_world
  = (Returns (Some (Added_scheduled "Task scheduled")),
     {| lock := set_cooldown 1020 (set_acquired 1000 (Some "T1") init);
        now := 1020;
        trace := [Lock_acquire (Some "T1") (Returns true);
                  Planner_call (mkTaskData (report_task "item:added" None []) None);
                  Task_action "rescheduled" (Added_scheduled "Task scheduled");
                  Lock_release (Some "T1")] |}).
Proof. vm_compute. reflexivity. Qed.

(** *** The decision to reschedule *)

Lemma Qltb_true (x y : Q) : Qltb x y = true ↔ (x < y)%Q.
Proof.
  unfold Qltb. rewrite negb_true_iff. split.
  - intros H. apply Qnot_le_lt. intros Hle. apply Qle_bool_iff in Hle. congruence.
  - intros H. destruct (Qle_bool y x) eqn:E; [|done].
    apply Qle_bool_iff in E. exfalso. apply (Qlt_not_le _ _ H E).
Qed.

Lemma field_tags_priority current_data old_data fd :
  fd ∈ important_fields →
  "priority_changed" ∈ field_tags current_data old_data fd
  ↔ fd.1 = "priority" ∧ priority old_data ≠ priority current_data.
Proof.
  unfold important_fields. rewrite !elem_of_cons, elem_of_nil.
  intros [->|[->|[->|[->|[->|[->|[->|[->|[->|[]]]]]]]]]];
    unfold field_tags, field_changed, describe_change, get; simpl.
  - case_bool_decide; set_solver.
  - case_bool_decide; [destruct (due old_data), (due current_data)|]; set_solver.
  - case_bool_decide; [destruct (duration old_data), (duration current_data)|]; set_solver.
  - case_bool_decide as Hp.
    + split; [|set_solver]. intros _. split; [done|]. intros E. apply Hp. by rewrite E.
    + split; [set_solver|]. intros [_ Hne]. exfalso. apply Hne.
      apply (of_option_inj VInt); [done | by intros ? ? [=] | ].
      destruct (decide (of_option VInt (priority old_data)
                        = of_option VInt (priority current_data))); [done|contradiction].
  - case_bool_decide; [repeat case_bool_decide; simpl|]; set_solver.
  - case_bool_decide; set_solver.
  - case_bool_decide; set_solver.
  - case_bool_decide; set_solver.
  - case_bool_decide;
      [destruct (truthy_bool (checked current_data)), (truthy_bool (checked old_data)); simpl|];
      set_solver.
Qed.

Lemma priority_changed_tag current_data old_data :
  "priority_changed" ∈ significant_changes (analyze_task_changes current_data old_data)
  ↔ priority old_data ≠ priority current_data.
Proof.
  destruct (analyze_task_changes_unfold current_data old_data) as (_ & _ & ->).
  rewrite list_elem_of_In, in_flat_map. split.
  - intros (fd & Hin & Htag). apply list_elem_of_In in Hin, Htag.
    by apply field_tags_priority in Htag as [_ ?].
  - intros Hne. exists ("priority", "Priority"). split.
    + apply list_elem_of_In. unfold important_fields. set_solver.
    + apply list_elem_of_In. apply field_tags_priority; [|done].
      unfold important_fields. set_solver.
Qed.

Lemma overdue_check_spec env now_local task_data :
  (overdue_check env now_local task_data).1 = true ↔ overdue env now_local task_data.
Proof.
  unfold overdue_check, overdue, due_moment, task_duration, truthy_dict, dict_get.
  destruct (due task_data) as [d|]; [|split; [done | by intros (? & ? & ? & _)]].
  case_bool_decide as Hd; simpl.
  { subst d. rewrite lookup_empty. split; [done | by intros (? & ? & ? & _)]. }
  destruct (d !! "date") as [[| | |s]|]; simpl;
    try (split; [done | by intros (? & ? & ? & _)]).
  - destruct b; simpl; split; try done; by intros (? & ? & ? & _).
  - destruct (n =? 0); simpl; split; try done; by intros (? & ? & ? & _).
  - destruct (String.eqb s ""); simpl; [split; [done | by intros (? & ? & ? & _)]|].
    destruct (parse_due env s) as [due_date_local|];
      [|split; [done | by intros (? & ? & ? & _)]].
    destruct (duration task_data) as [dur|]; simpl.
    + case_bool_decide as Hdur; simpl.
      * destruct (Qltb due_date_local now_local) eqn:E; simpl.
        -- split; [|done]. intros _. exists due_date_local, 0. split; [done|]. split; [done|].
           apply Qltb_true in E. unfold add_minutes. simpl.
           by rewrite Qplus_0_r.
        -- split; [done|]. intros (d' & m & [= <-] & [= <-] & Hlt).
           unfold add_minutes in Hlt. simpl in Hlt. rewrite Qplus_0_r in Hlt.
           apply Qltb_true in Hlt. congruence.
      * destruct (duration_minutes dur) as [m|];
          [|split; [done | by intros (? & ? & ? & ? & _)]].
        destruct (Qltb (add_minutes due_date_local m) now_local) eqn:E; simpl.
        -- split; [|done]. intros _. exists due_date_local, m.
           split; [done|]. split; [done|]. by apply Qltb_true.
        -- split; [done|]. intros (d' & m' & [= <-] & [= <-] & Hlt).
           apply Qltb_true in Hlt. congruence.
    + destruct (Qltb due_date_local now_local) eqn:E; simpl.
      * split; [|done]. intros _. exists due_date_local, 0. split; [done|]. split; [done|].
        apply Qltb_true in E. unfold add_minutes. simpl. by rewrite Qplus_0_r.
      * split; [done|]. intros (d' & m & [= <-] & [= <-] & Hlt).
        unfold add_minutes in Hlt. simpl in Hlt. rewrite Qplus_0_r in Hlt.
        apply Qltb_true in Hlt. congruence.
Qed.

(** *** Traces *)

Lemma appends_ret {A} (a : A) : appends (ret a).
Proof. intros w. exists []. by rewrite app_nil_r. Qed.

Lemma appends_lift {A} (o : outcome A) : appends (lift o).
Proof. intros w. exists []. by rewrite app_nil_r. Qed.

Lemma appends_emit e : appends (emit e).
Proof. intros w. by exists [e]. Qed.

Lemma appends_log action msg : appends (log_task_action action msg).
Proof. apply appends_emit. Qed.

Lemma appends_bind {A B} (m : M A) (k : A → M B) :
  appends m → (∀ a, appends (k a)) → appends (bind m k).
Proof.
  intros Hm Hk w. unfold bind. destruct (Hm w) as [evs Hevs].
  destruct (m w) as [[a|e] w1]; simpl in *.
  - destruct (Hk a w1) as [evs' Hevs']. exists (evs ++ evs').
    by rewrite Hevs', Hevs, app_assoc.
  - by exists evs.
Qed.

Lemma appends_try {A} (m : M A) (h : exn → M A) :
  appends m → (∀ e, appends (h e)) → appends (try_except m h).
Proof.
  intros Hm Hh w. unfold try_except. destruct (Hm w) as [evs Hevs].
  destruct (m w) as [[a|e] w1]; simpl in *.
  - by exists evs.
  - destruct (Hh e w1) as [evs' Hevs']. exists (evs ++ evs').
    by rewrite Hevs', Hevs, app_assoc.
Qed.

Lemma appends_call_planner env task_data : appends (call_planner env task_data).
Proof. intros w. by exists [Planner_call task_data]. Qed.

(** Under [agent_working], the first new event is the request for the lock. *)
Lemma agent_working_trace {A} task_id (body : M A) w :
  appends body →
  ∃ evs, trace (agent_working task_id body w).2
         = trace w ++ Lock_acquire task_id (acquire_agent_lock (now w) task_id (lock w)).1 :: evs.
Proof.
  intros Hb. unfold agent_working.
  destruct (acquire_agent_lock (now w) task_id (lock w)) as [[[|]|e] l]; simpl.
  - match goal with |- context [body ?w1] => destruct (Hb w1) as [evs Hevs] end.
    exists (evs ++ [Lock_release task_id]). simpl in *. rewrite Hevs. simpl.
    by rewrite <- !app_assoc.
  - by exists [].
  - by exists [].
Qed.

Lemma appends_reschedule_body env task_data change_summary reason :
  appends (reschedule_body env task_data change_summary reason).
Proof.
  unfold reschedule_body.
  destruct (truthy_str (project_id (cur task_data))); [|apply appends_ret].
  apply appends_bind; [apply appends_lift|]. intros todos_list.
  destruct (truthy_str todos_list); [|apply appends_ret].
  destruct (negb _).
  - apply appends_bind; [apply appends_log | intros; apply appends_ret].
  - apply appends_bind; [apply appends_call_planner|]. intros agent_result.
    apply appends_bind; [apply appends_log | intros; apply appends_ret].
Qed.

(** C2, as the code has it.  For an updated event that carries no "manual
    scheduled" label, has a prior snapshot and at least one changed field:
    a reschedule is attempted (the handler asks for the lock) exactly when
    the priority field changed or the task is overdue, that is, its due
    moment plus its duration (nothing without a duration) is strictly
    before now; otherwise the handler reports "No rescheduling needed (task
    is not overdue)", logs it as ignored and leaves the guard as it is. *)
Theorem update_reschedules_on_priority_or_overdue (env : Env) (task_data : task_data)
    (old : item) (w : world) :
  has_manual_scheduled_label (cur task_data) = false →
  old_item task_data = Some old →
  has_changes (analyze_task_changes (cur task_data) old) = true →
  ∃ evs, trace (handle_task_updated env task_data w).2 = trace w ++ evs
  ∧ (reschedule_attempted (id (cur task_data)) evs
     ↔ priority old ≠ priority (cur task_data) ∨ overdue env (now w) (cur task_data))
  ∧ (¬ (priority old ≠ priority (cur task_data) ∨ overdue env (now w) (cur task_data)) →
     let result_msg :=
       Updated_not_overdue (change_summary (analyze_task_changes (cur task_data) old)) in
     (handle_task_updated env task_data w).1 = Returns (Some result_msg)
     ∧ evs = [Task_action "ignored" result_msg]
     ∧ lock (handle_task_updated env task_data w).2 = lock w).
Proof.
  intros Hmanual Hold Hchanges. unfold handle_task_updated.
  rewrite Hmanual, Hold, Hchanges.
  pose proof (priority_changed_tag (cur task_data) old) as Htag.
  pose proof (overdue_check_spec env (now w) (cur task_data)) as Hover.
  unfold reschedule_decision. case_bool_decide as Hp; simpl.
  - apply Htag in Hp.
    match goal with
    | |- context [try_except (agent_working ?tid ?body) ?h w] =>
        destruct (agent_working_trace tid body w) as [evs Hevs];
          [apply appends_reschedule_body|];
          assert (Hh : ∀ e, appends (h e))
            by (intros e; apply appends_bind; [apply appends_log | intros; apply appends_ret]);
          pose proof (Hh) as Hh'; unfold try_except;
          destruct (agent_working tid body w) as [[a|e] w1]; simpl in *
    end.
    + eexists. split; [exact Hevs|]. split; [|tauto].
      split; [by left|]. intros _. eexists. apply elem_of_cons. by left.
    + destruct (Hh e w1) as [evs' Hevs']. simpl in Hevs'.
      eexists. split; [by rewrite Hevs', Hevs, <- app_assoc|]. split; [|tauto].
      split; [by left|]. intros _. eexists. simpl. apply elem_of_cons. by left.
  - assert (Hnp : ¬ priority old ≠ priority (cur task_data)) by (intros H; by apply Hp, Htag).
    destruct (overdue_check env (now w) (cur task_data)) as [[|] reason] eqn:Eo; simpl in *.
    + assert (Ho : overdue env (now w) (cur task_data)) by (by apply Hover).
      match goal with
      | |- context [try_except (agent_working ?tid ?body) ?h w] =>
          destruct (agent_working_trace tid body w) as [evs Hevs];
            [apply appends_reschedule_body|];
            assert (Hh : ∀ e, appends (h e))
              by (intros e; apply appends_bind; [apply appends_log | intros; apply appends_ret]);
            unfold try_except;
            destruct (agent_working tid body w) as [[a|e] w1]; simpl in *
      end.
      * eexists. split; [exact Hevs|]. split; [|tauto].
        split; [by right|]. intros _. eexists. apply elem_of_cons. by left.
      * destruct (Hh e w1) as [evs' Hevs']. simpl in Hevs'.
        eexists. split; [by rewrite Hevs', Hevs, <- app_assoc|]. split; [|tauto].
        split; [by right|]. intros _. eexists. simpl. apply elem_of_cons. by left.
    + assert (Ho : ¬ overdue env (now w) (cur task_data)).
      { intros H. apply Hover in H. done. }
      eexists. split; [reflexivity|]. split; [|done].
      split; [|tauto]. intros [r Hr]. apply list_elem_of_singleton in Hr. done.
Qed.

(** A priority change from Low to Urgent: the handler asks for the lock. *)
Lemma update_reschedules_on_priority_or_overdue_witness :
  ∃ evs,
    trace (handle_task_updated work_env
             (mkTaskData (report_task "item:updated" (Some 4) [])
                         (Some (report_task "item:updated" (Some 1) [])))
             idle_world).2
    = trace idle_world ++ evs
    ∧ reschedule_attempted (Some "T1") evs.
Proof.
  destruct (update_reschedules_on_priority_or_overdue work_env
              (mkTaskData (report_task "item:updated" (Some 4) [])
                          (Some (report_task "item:updated" (Some 1) [])))
              (report_task "item:updated" (Some 1) []) idle_world)
    as (evs & Htrace & Hiff & _); [reflexivity | reflexivity | reflexivity |].
  exists evs. split; [exact Htrace|]. apply Hiff. left. discriminate.
Defined.

(** C2 as stated fails for a task that carries the "Manual Scheduled"
    label: the event has a prior snapshot and its priority changed from Low
    to Urgent, yet the handler returns before the analysis and never asks
    for the lock. *)
Lemma manual_label_blocks_the_reschedule :
  old_item (mkTaskData (report_task "item:updated" (Some 4) ["Manual Scheduled"])
              (Some (report_task "item:updated" (Some 1) ["Manual Scheduled"])))
  = Some (report_task "item:updated" (Some 1) ["Manual Scheduled"])
  ∧ has_changes (analyze_task_changes
                   (report_task "item:updated" (Some 4) ["Manual Scheduled"])
                   (report_task "item:updated" (Some 1) ["Manual Scheduled"])) = true
  ∧ priority (report_task "item:updated" (Some 1) ["Manual Scheduled"])
    ≠ priority (report_task "item:updated" (Some 4) ["Manual Scheduled"])
  ∧ handle_task_updated work_env
      (mkTaskData (report_task "item:updated" (Some 4) ["Manual Scheduled"])
         (Some (report_task "item:updated" (Some 1) ["Manual Scheduled"])))
      idle_world
    = (Returns (Some (Update_manually_scheduled (Some "Write report"))),
       {| lock := init;
          now := 1000;
          trace := [Task_action "skipped" (Update_manually_scheduled (Some "Write report"))] |})
  ∧ ¬ reschedule_attempted (Some "T1")
        [Task_action "skipped" (Update_manually_scheduled (Some "Write report"))].
Proof.
  split; [reflexivity|]. split; [vm_compute; reflexivity|]. split; [discriminate|].
  split; [vm_compute; reflexivity|].
  intros [r Hr]. apply list_elem_of_singleton in Hr. discriminate.
Qed.

(** The scenario of the specification: only the description changes, on a
    task that is not overdue. *)
Example description_only_update :
  handle_task_updated work_env
    (mkTaskData (report_task "item:updated" (Some 4) [])
       (Some {| event_name := None; content := Some "Write report"; id := Some "T1";
                checked := Some false; description := Some "draft"; due := None;
                duration := None; labels := Some []; priority := Some 4;
                project_id := Some "P1"; section_id := None;
                todos_list_override := None |}))
    idle_world
  = (Returns (Some (Updated_not_overdue [Description_removed])),
     {| lock := init;
        now := 1000;
        trace := [Task_action "ignored" (Updated_not_overdue [Description_removed])] |}).
Proof. vm_compute. reflexivity. Qed.

(** *** The gate and the lock *)

(** In [handle_task_updated] the priority gate is checked inside
    [async with agent_working]: when a reschedule is warranted and the task
    of a mapped project is below the threshold, the handler has taken the
    lock before it skips, and its release starts a cooldown. *)
Lemma update_gate_runs_under_lock (env : Env) (task_data : task_data) (old : item)
    (w : world) (s : settings) (p todos_list : string) (reason : priority_reason) :
  has_manual_scheduled_label (cur task_data) = false →
  old_item task_data = Some old →
  has_changes (analyze_task_changes (cur task_data) old) = true →
  priority old ≠ priority (cur task_data) ∨ overdue env (now w) (cur task_data) →
  project_id (cur task_data) = Some p → p ≠ "" →
  load_settings env = Returns s →
  project_mappings s !! p = Some todos_list → todos_list ≠ "" →
  should_auto_schedule_by_priority env (cur task_data) todos_list = (false, reason) →
  in_phase (lock w) Idle →
  let result_msg :=
    Update_rescheduling_skipped reason
      (change_summary (analyze_task_changes (cur task_data) old)) in
  handle_task_updated env task_data w
  = (Returns (Some result_msg),
     {| lock := set_cooldown (now w)
                  (set_acquired (now w) (id (cur task_data)) (lock w));
        now := now w;
        trace := trace w ++ [Lock_acquire (id (cur task_data)) (Returns true);
                             Task_action "skipped" result_msg;
                             Lock_release (id (cur task_data))] |})
  ∧ in_phase (lock (handle_task_updated env task_data w).2) Cooldown.
Proof.
  intros Hmanual Hold Hchanges Hwarranted Hp Hpne Hs Hmap Htne Hgate [Hw Hc] result_msg.
  assert (Hrun : handle_task_updated env task_data w
                 = (Returns (Some result_msg),
                    {| lock := set_cooldown (now w)
                                 (set_acquired (now w) (id (cur task_data)) (lock w));
                       now := now w;
                       trace := trace w ++ [Lock_acquire (id (cur task_data)) (Returns true);
                                            Task_action "skipped" result_msg;
                                            Lock_release (id (cur task_data))] |})).
  { unfold handle_task_updated. rewrite Hmanual, Hold, Hchanges.
    assert (Hd : (reschedule_decision env (now w) (cur task_data) old
                    (bool_decide ("priority_changed"
                       ∈ significant_changes (analyze_task_changes (cur task_data) old)))).1
                 = true).
    { unfold reschedule_decision. case_bool_decide as Htag; [done|].
      destruct Hwarranted as [Hne|Ho]; [by apply priority_changed_tag in Hne|].
      by apply overdue_check_spec. }
    rewrite Hd. unfold try_except, agent_working, acquire_agent_lock, acquire_after_cooldown.
    rewrite Hc, Hw. simpl.
    unfold reschedule_body, get_todos_list_from_project_id, truthy_str, bind, lift.
    rewrite Hp. rewrite (proj2 (String.eqb_neq p "") Hpne). simpl.
    rewrite Hs, Hmap. rewrite (proj2 (String.eqb_neq todos_list "") Htne). simpl.
    rewrite Hgate. simpl. unfold release_agent_lock. simpl.
    rewrite bool_decide_eq_true_2 by done. simpl.
    unfold add_event, set_lock. simpl. by rewrite <- !app_assoc. }
  split; [exact Hrun|]. by rewrite Hrun.
Qed.

(** C6 fails on the code.  An update raises the priority of a task of list
    "work" from Low to Normal; the list asks for High.  The guard is idle.
    The handler skips the reschedule for the priority, and the planner is
    not called; but the lock was acquired before the gate was checked, and
    the guard is left in cooldown. *)
Theorem update_below_threshold_takes_the_lock :
  should_auto_schedule_by_priority work_env (report_task "item:updated" (Some 2) []) "work"
  = (false, Below_threshold 2 (Api_priority_name "Normal (P3)")
              (Api_priority_name "High (P2)") "work")
  ∧ in_phase (lock idle_world) Idle
  ∧ handle_task_updated work_env
      (mkTaskData (report_task "item:updated" (Some 2) [])
                  (Some (report_task "item:updated" (Some 1) [])))
      idle_world
    = (Returns
         (Some (Update_rescheduling_skipped
                  (Below_threshold 2 (Api_priority_name "Normal (P3)")
                     (Api_priority_name "High (P2)") "work")
                  [Priority_changed (Priority_name "Low") (Priority_name "Normal")])),
       {| lock := set_cooldown 1000 (set_acquired 1000 (Some "T1") init);
          now := 1000;
          trace :=
            [Lock_acquire (Some "T1") (Returns true);
             Task_action "skipped"
               (Update_rescheduling_skipped
                  (Below_threshold 2 (Api_priority_name "Normal (P3)")
                     (Api_priority_name "High (P2)") "work")
                  [Priority_changed (Priority_name "Low") (Priority_name "Normal")]);
             Lock_release (Some "T1")] |})
  ∧ in_phase (set_cooldown 1000 (set_acquired 1000 (Some "T1") init)) Cooldown
  ∧ lock idle_world ≠ set_cooldown 1000 (set_acquired 1000 (Some "T1") init).
Proof.
  split; [vm_compute; reflexivity|]. split; [done|].
  split; [vm_compute; reflexivity|]. split; [done|]. discriminate.
Qed.

(** The handler of new tasks checks the gate before it takes the lock: the
    same task, as a new one, is skipped with the guard untouched. *)
Example added_below_threshold_leaves_the_lock :
  handle_task_added work_env (mkTaskData (report_task "item:added" (Some 2) []) None)
    idle_world
  = (Returns
       (Some (Added_priority_skipped (Some "Write report")
                (Below_threshold 2 (Api_priority_name "Normal (P3)")
                   (Api_priority_name "High (P2)") "work"))),
     {| lock := init;
        now := 1000;
        trace :=
          [Task_action "skipped"
             (Added_priority_skipped (Some "Write report")
                (Below_threshold 2 (Api_priority_name "Normal (P3)")
                   (Api_priority_name "High (P2)") "work"))] |}).
Proof. vm_compute. reflexivity. Qed.

(** *** The router *)

(** Which handlers return a message whenever they return. *)
Lemma gives_message_ret msg : gives_message (ret (Some msg)).
Proof. intros w result w' [= <- _]. by eexists. Qed.

Lemma gives_message_bind {A} (m : M A) (k : A → M (option message)) :
  (∀ a, gives_message (k a)) → gives_message (bind m k).
Proof.
  intros Hk w result w'. unfold bind. destruct (m w) as [[a|e] w1]; [|done].
  apply Hk.
Qed.

Lemma gives_message_try (m : M (option message)) (h : exn → M (option message)) :
  gives_message m → (∀ e, gives_message (h e)) → gives_message (try_except m h).
Proof.
  intros Hm Hh w result w'. unfold try_except. destruct (m w) as [[a|e] w1] eqn:Em.
  - intros [= <- _]. by apply (Hm w a w1).
  - apply Hh.
Qed.

Lemma gives_message_agent_working task_id (body : M (option message)) :
  gives_message body → gives_message (agent_working task_id body).
Proof.
  intros Hbody w result w'. unfold agent_working.
  destruct (acquire_agent_lock (now w) task_id (lock w)).1 as [[|]|e]; [|done|done].
  destruct (body _) as [r w1] eqn:Eb. simpl. intros [= -> _]. by apply Hbody in Eb.
Qed.

Ltac gives_message :=
  repeat match goal with
         | |- gives_message (ret (Some _)) => apply gives_message_ret
         | |- gives_message (bind _ _) => apply gives_message_bind; intros ?
         | |- gives_message (try_except _ _) => apply gives_message_try; [|intros ?]
         | |- gives_message (agent_working _ _) => apply gives_message_agent_working
         | |- gives_message (if ?b then _ else _) => destruct b
         | |- gives_message (match ?x with Some _ => _ | None => _ end) => destruct x
         end.

Lemma schedule_under_lock_gives_message env task_id task_data done failed :
  gives_message (schedule_under_lock env task_id task_data done failed).
Proof. unfold schedule_under_lock. gives_message. Qed.

Lemma handle_task_added_gives_message env task_data :
  gives_message (handle_task_added env task_data).
Proof.
  unfold handle_task_added. cbv zeta. gives_message;
    apply schedule_under_lock_gives_message.
Qed.

Lemma handle_task_completed_gives_message env task_data :
  gives_message (handle_task_completed env task_data).
Proof. unfold handle_task_completed. cbv zeta. gives_message. Qed.

Lemma handle_task_deleted_gives_message task_data :
  gives_message (handle_task_deleted task_data).
Proof. unfold handle_task_deleted. gives_message. Qed.

Lemma handle_unknown_event_gives_message task_data event_name :
  gives_message (handle_unknown_event task_data event_name).
Proof. unfold handle_unknown_event. cbv zeta. gives_message. Qed.

Lemma gives_message_at (m : M (option message)) w result w' :
  gives_message m → m w = (Returns result, w') → is_Some result.
Proof. intros Hm. apply Hm. Qed.

Lemma handle_calendar_reschedule_gives_message env task_data :
  gives_message (handle_calendar_reschedule env task_data).
Proof.
  unfold handle_calendar_reschedule. cbv zeta. apply gives_message_try.
  - intros w result w'.
    destruct (get_task_details env (id (cur task_data))) as [details|[m|m|m|m]].
    + repeat match goal with
             | |- (if ?b then _ else _) = _ → _ => destruct b
             end;
        apply gives_message_at; gives_message; apply schedule_under_lock_gives_message.
    + apply gives_message_at. gives_message.
    + apply gives_message_at. gives_message.
    + apply gives_message_at. gives_message.
    + apply gives_message_at. gives_message.
  - intros e. gives_message.
Qed.

(** Every handler but that of updates returns a message. *)
Lemma dispatch_gives_message env name task_data :
  name ≠ "item:updated" → gives_message (dispatch env name task_data).
Proof.
  intros Hne. unfold dispatch.
  destruct (String.eqb name "item:added"); [apply handle_task_added_gives_message|].
  destruct (String.eqb name "item:updated") eqn:Eu; [by apply String.eqb_eq in Eu|].
  destruct (String.eqb name "item:completed"); [apply handle_task_completed_gives_message|].
  destruct (String.eqb name "item:deleted"); [apply handle_task_deleted_gives_message|].
  destruct (String.eqb name "calendar:event_end");
    [apply handle_calendar_reschedule_gives_message|].
  apply handle_unknown_event_gives_message.
Qed.

(** [router] returns one dict for every event and never raises:
    - without an event name (missing, [None] or empty) it returns the
      error dict "Missing event_name in task_data" and does nothing else;
    - when the handler of the event raises, the failure is logged and the
      dict has status "error" and the text of the exception;
    - otherwise the dict has status "success" and holds what the handler
      returned: a message, for every event but an update, whose handler can
      return [None]. *)
Theorem router_returns_one_outcome (env : Env) (task_data : task_data) (w : world) :
  ∃ r, (router env task_data w).1 = Returns r
  ∧ (truthy_str (event_name (cur task_data)) = false →
       r = Missing_event_name (now w) ∧ status r = "error"
       ∧ (router env task_data w).2 = w)
  ∧ (∀ name, event_name (cur task_data) = Some name → name ≠ "" →
       let handled :=
         dispatch env name task_data (add_event (Trigger_received (trigger_type name)) w) in
       match handled.1 with
       | Raises e =>
           r = Error name (id (cur task_data)) (exn_str e) (now handled.2)
           ∧ status r = "error"
           ∧ (router env task_data w).2
             = add_event (Task_action "failed" (Processing_failed (exn_str e))) handled.2
       | Returns result =>
           r = Success name (id (cur task_data)) (content (cur task_data)) result
                 (now handled.2)
           ∧ status r = "success"
           ∧ (router env task_data w).2 = handled.2
           ∧ (name ≠ "item:updated" → is_Some result)
       end).
Proof.
  unfold router. destruct (event_name (cur task_data)) as [name|] eqn:En; simpl.
  - destruct (String.eqb name "") eqn:Ee; simpl.
    + eexists. split; [done|]. split; [done|].
      intros name' [= <-] Hne. by apply String.eqb_eq in Ee.
    + unfold bind, try_except, log_trigger_received, log_task_action, emit. simpl.
      destruct (dispatch env name task_data
                  (add_event (Trigger_received (trigger_type name)) w)) as [[result|e] w1] eqn:Ed.
      * eexists. split; [done|]. split; [done|].
        intros name' [= <-] _. simpl. rewrite Ed. simpl.
        repeat (split; [done|]). intros Hne.
        by apply (dispatch_gives_message env name task_data Hne _ _ _ Ed).
      * eexists. split; [done|]. split; [done|].
        intros name' [= <-] _. simpl. by rewrite Ed.
  - eexists. split; [done|]. split; [done|]. intros name' [=].
Qed.

(** C7.  A "success" that holds no message.  The priority of a task is
    raised from 1 to 4, the task is in a project that the settings do not map
    to a list, and the guard is idle.  [handle_task_updated] asks for the
    lock, finds no list, prints a warning and falls off its end: it returns
    [None], and [router] wraps that in a dict with status "success" and
    [None] as the result.  The lock was taken and released for nothing.
    The handler of new tasks, for the same task, returns the message that
    the project has no mapping. *)
Theorem router_success_without_a_message :
  (router work_env
     (mkTaskData (unmapped_task "item:updated" (Some 4) [])
                 (Some (unmapped_task "item:updated" (Some 1) [])))
     idle_world).1
  = Returns (Success "item:updated" (Some "T1") (Some "Write report") None 1000)
  ∧ status (Success "item:updated" (Some "T1") (Some "Write report") None 1000) = "success"
  ∧ trace (router work_env
             (mkTaskData (unmapped_task "item:updated" (Some 4) [])
                         (Some (unmapped_task "item:updated" (Some 1) [])))
             idle_world).2
    = [Trigger_received "task_updated";
       Lock_acquire (Some "T1") (Returns true);
       Lock_release (Some "T1")]
  ∧ (router work_env (mkTaskData (unmapped_task "item:added" (Some 4) []) None)
       idle_world).1
    = Returns (Success "item:added" (Some "T1") (Some "Write report")
                 (Some (Added_no_mapping (Some "Write report") "P9")) 1000).
Proof. repeat split; vm_compute; reflexivity. Qed.

(** An update that changes nothing is reported as a success. *)
Example router_success :
  (router work_env
     (mkTaskData (report_task "item:updated" (Some 2) [])
                 (Some (report_task "item:updated" (Some 2) [])))
     idle_world).1
  = Returns (Success "item:updated" (Some "T1") (Some "Write report")
               (Some Update_no_changes) 1000).
Proof. vm_compute. reflexivity. Qed.

(** With unreadable settings, the handler of a new task raises when it
    looks the project up; the router turns that into an error dict. *)
Example router_error :
  router broken_env (mkTaskData (report_task "item:added" (Some 2) []) None) idle_world
  = (Returns (Error "item:added" (Some "T1") "settings file is not valid JSON" 1000),
     {| lock := init;
        now := 1000;
        trace := [Trigger_received "task_created";
                  Task_action "failed" (Processing_failed "settings file is not valid JSON")] |}).
Proof. vm_compute. reflexivity. Qed.

Example router_missing_event_name :
  router work_env
    (mkTaskData {| event_name := None; content := Some "Write report"; id := Some "T1";
                   checked := None; description := None; due := None; duration := None;
                   labels := None; priority := None; project_id := None;
                   section_id := None; todos_list_override := None |} None)
    idle_world
  = (Returns (Missing_event_name 1000), idle_world).
Proof. vm_compute. reflexivity. Qed.

Example router_unknown_event :
  (router work_env (mkTaskData (report_task "note:added" (Some 2) []) None) idle_world).1
  = Returns (Success "note:added" (Some "T1") (Some "Write report")
               (Some (Unknown_event "note:added")) 1000).
Proof. vm_compute. reflexivity. Qed.

End task_processor_spec.

(** * Further properties of the guard *)
Module agent_lock_props.
Import agent_lock agent_lock_spec.

Lemma step_idle_unheld g o : idle_unheld g → idle_unheld (step g o).
Proof.
  unfold idle_unheld.
  destruct o as [now tid|now tid|now|now]; simpl; intros Hg; [| | |done].
  - unfold acquire_agent_lock, acquire_after_cooldown.
    repeat match goal with
           | |- context [if ?b then _ else _] => destruct b eqn:?
           | |- context [match ?o with Some _ => _ | None => _ end] => destruct o eqn:?
           end; simpl; intros; try done; try congruence; by apply Hg.
  - unfold release_agent_lock. destruct (_ || _); simpl; [done | exact Hg].
  - unfold is_agent_working.
    destruct (_ && _); simpl; [done|]. destruct (_ && _); simpl; [done | exact Hg].
Qed.

Lemma reachable_idle_unheld g : reachable g → idle_unheld g.
Proof.
  intros (ops & _ & ->). unfold run.
  assert (H : idle_unheld init) by done. revert H. generalize init.
  induction ops as [|o ops IH]; intros g Hg; simpl; [done|].
  apply IH. by apply step_idle_unheld.
Qed.

Lemma elapsed_exceeds_iff now t limit :
  ¬ (t == 0)%Q → elapsed_exceeds now (Some t) limit = false ↔ (now - t <= limit)%Q.
Proof.
  intros Ht. split; [|apply elapsed_exceeds_not].
  intros H. apply Qnot_lt_le. intros Hlt.
  apply (elapsed_exceeds_some now t limit Ht) in Hlt. congruence.
Qed.

Lemma acquire_keeps_limits now task_id g :
  _timeout_seconds (acquire_agent_lock now task_id g).2 = _timeout_seconds g
  ∧ _cooldown_seconds (acquire_agent_lock now task_id g).2 = _cooldown_seconds g.
Proof.
  unfold acquire_agent_lock, acquire_after_cooldown.
  repeat match goal with
         | |- context [if ?b then _ else _] => destruct b
         | |- context [match ?o with Some _ => _ | None => _ end] => destruct o
         end; done.
Qed.

(** What a successful acquire leaves. *)
Lemma acquire_true_state now task_id g g' :
  acquire_agent_lock now task_id g = (Returns true, g') →
  _is_agent_working g' = true ∧ _is_cooldown g' = false
  ∧ _current_task_id g' = task_id ∧ _agent_start_time g' = Some now.
Proof.
  unfold acquire_agent_lock, acquire_after_cooldown. intros H.
  repeat match type of H with
         | context [if ?b then _ else _] => destruct b
         | context [match ?o with Some _ => _ | None => _ end] => destruct o
         end; by simplify_eq.
Qed.

(** A failed acquire leaves a guard with exclusive flags as it was. *)
Lemma acquire_failed_unchanged now task_id g :
  exclusive g →
  (acquire_agent_lock now task_id g).1 ≠ Returns true →
  (acquire_agent_lock now task_id g).2 = g.
Proof.
  unfold exclusive, acquire_agent_lock, acquire_after_cooldown.
  destruct (_is_agent_working g) eqn:Ew, (_is_cooldown g) eqn:Ec; simpl; intros He H;
    try done;
    repeat match goal with
           | |- context [if ?b then _ else _] => destruct b eqn:?
           | |- context [match ?o with Some _ => _ | None => _ end] => destruct o eqn:?
           | H : context [if ?b then _ else _] |- _ => destruct b eqn:?
           | H : context [match ?o with Some _ => _ | None => _ end] |- _ => destruct o eqn:?
           end; simpl in *; try done; try congruence.
Qed.

(** X1.  On a guard of the process [acquire_agent_lock] never raises; it
    returns [True] exactly when the guard is idle, or working for more than
    300 s, or cooling down for more than 3 s (at exactly 300 s, or 3 s, it
    still refuses); and a refusal leaves the guard as it was. *)
Theorem acquire_succeeds_exactly_when_free (g : AgentLock) (now : Q) (task_id : option string) :
  reachable g →
  (∃ b, (acquire_agent_lock now task_id g).1 = Returns b)
  ∧ ((acquire_agent_lock now task_id g).1 = Returns true
     ↔ in_phase g Idle
       ∨ (in_phase g Working ∧ ∃ t, _agent_start_time g = Some t ∧ (300 < now - t)%Q)
       ∨ (in_phase g Cooldown ∧ ∃ t, _cooldown_start_time g = Some t ∧ (3 < now - t)%Q))
  ∧ ((acquire_agent_lock now task_id g).1 = Returns false →
     (acquire_agent_lock now task_id g).2 = g).
Proof.
  intros Hr. apply reachable_ok in Hr. destruct Hr as [He Hw Hc Ht Hs].
  unfold exclusive in He. unfold acquire_agent_lock, acquire_after_cooldown, in_phase.
  destruct (_is_agent_working g) eqn:Ew, (_is_cooldown g) eqn:Ec; simpl in *; [done| | |].
  - destruct (Hw eq_refl) as (t & Est & Hnz). rewrite Est, Ht.
    destruct (elapsed_exceeds now (Some t) 300) eqn:E; simpl.
    + apply (elapsed_exceeds_some now t 300 Hnz) in E.
      split; [by eexists|]. split; [|done]. split; [|done].
      intros _. right. left. split; [done|]. by exists t.
    + apply (elapsed_exceeds_iff now t 300 Hnz) in E.
      split; [by eexists|]. split; [|done]. split; [done|].
      intros [[? ?]|[(_ & t' & [= <-] & Hlt)|[[? ?] _]]]; try done.
      exfalso. apply (Qlt_not_le _ _ Hlt E).
  - destruct (Hc eq_refl) as (t & Est & Hnz). rewrite Est, Hs.
    destruct (elapsed_exceeds now (Some t) 3) eqn:E; simpl; rewrite ?Ew; simpl.
    + apply (elapsed_exceeds_some now t 3 Hnz) in E.
      split; [by eexists|]. split; [|done]. split; [|done].
      intros _. right. right. split; [done|]. by exists t.
    + apply (elapsed_exceeds_iff now t 3 Hnz) in E.
      split; [by eexists|]. split; [|done]. split; [done|].
      intros [[? ?]|[[[? ?] _]|(_ & t' & [= <-] & Hlt)]]; try done.
      exfalso. apply (Qlt_not_le _ _ Hlt E).
  - split; [by eexists|]. split; [|done]. split; [|done]. intros _. by left.
Qed.

(** At exactly 300 s after the work started the guard is still held. *)
Lemma acquire_succeeds_exactly_when_free_witness :
  (acquire_agent_lock 1300 (Some "T2") (run [Acquire 1000 (Some "T1")] init)).1
  = Returns false.
Proof.
  assert (Hr : reachable (run [Acquire 1000 (Some "T1")] init)).
  { exists [Acquire 1000 (Some "T1")]. split; [|done]. repeat constructor. }
  destruct (acquire_succeeds_exactly_when_free _ 1300 (Some "T2") Hr) as ([b Hb] & Hiff & _).
  rewrite Hb. f_equal. destruct b; [|done]. exfalso.
  apply Hiff in Hb. destruct Hb as [[? ?]|[(_ & t & [= <-] & Hlt)|[[? ?] _]]]; done.
Defined.

(** X2.  On a guard of the process, a release by a task that is not the
    holder, while the guard is working, changes nothing.  Any other release
    (by the holder, or on a guard that is idle or cooling down, whoever
    asks) puts the guard in cooldown from now, and keeps the holder id on
    record. *)
Theorem release_contract (g : AgentLock) (now : Q) (task_id : option string) :
  reachable g →
  (in_phase g Working → _current_task_id g ≠ task_id →
     release_agent_lock now task_id g = g)
  ∧ (in_phase g Working → _current_task_id g = task_id →
     release_agent_lock now task_id g = set_cooldown now g)
  ∧ (_is_agent_working g = false → release_agent_lock now task_id g = set_cooldown now g)
  ∧ in_phase (set_cooldown now g) Cooldown
  ∧ _cooldown_start_time (set_cooldown now g) = Some now
  ∧ _current_task_id (set_cooldown now g) = _current_task_id g.
Proof.
  intros _. unfold release_agent_lock. repeat split.
  - intros [Ew _] Hne. rewrite Ew. by rewrite bool_decide_eq_false_2.
  - intros [Ew _] Heq. by rewrite bool_decide_eq_true_2.
  - intros Ew. rewrite Ew. simpl. by rewrite orb_true_r.
Qed.

Lemma release_contract_witness :
  release_agent_lock 1010 (Some "T2") (run [Acquire 1000 (Some "T1")] init)
  = run [Acquire 1000 (Some "T1")] init.
Proof.
  assert (Hr : reachable (run [Acquire 1000 (Some "T1")] init)).
  { exists [Acquire 1000 (Some "T1")]. split; [|done]. repeat constructor. }
  destruct (release_contract _ 1010 (Some "T2") Hr) as (Hother & _).
  apply Hother; [done | discriminate].
Defined.

(** X3.  The cycle of one action: when a task acquires the guard and then
    releases it at [t2], the guard cools down, and an acquire at [t3], by
    whatever task, succeeds exactly when more than 3 s have passed since
    the release. *)
Theorem acquire_release_acquire (g g1 : AgentLock) (t1 t2 t3 : Q)
    (holder other : option string) :
  reachable g → (0 < t2)%Q →
  acquire_agent_lock t1 holder g = (Returns true, g1) →
  in_phase (release_agent_lock t2 holder g1) Cooldown
  ∧ ((acquire_agent_lock t3 other (release_agent_lock t2 holder g1)).1 = Returns true
     ↔ (3 < t3 - t2)%Q)
  ∧ ((acquire_agent_lock t3 other (release_agent_lock t2 holder g1)).1 = Returns false
     ↔ (t3 - t2 <= 3)%Q).
Proof.
  intros Hr Ht2 Hacq.
  pose proof (acquire_keeps_limits t1 holder g) as [_ Hlim]. rewrite Hacq in Hlim.
  simpl in Hlim. rewrite (ok_cooldown_seconds g (reachable_ok g Hr)) in Hlim.
  assert (Hg1 : _is_agent_working g1 = true ∧ _current_task_id g1 = holder).
  { unfold acquire_agent_lock, acquire_after_cooldown in Hacq.
    repeat match type of Hacq with
           | context [if ?b then _ else _] => destruct b
           | context [match ?o with Some _ => _ | None => _ end] => destruct o
           end; by simplify_eq. }
  destruct Hg1 as [Ew Hid].
  assert (Hrel : release_agent_lock t2 holder g1 = set_cooldown t2 g1).
  { unfold release_agent_lock. by rewrite bool_decide_eq_true_2. }
  rewrite Hrel. split; [done|].
  unfold acquire_agent_lock, acquire_after_cooldown. simpl. rewrite Hlim.
  pose proof (pos_nonzero t2 Ht2) as Hnz.
  rewrite (proj2 (Qeq_bool_false t2) Hnz).
  destruct (Qgtb (t3 - t2) 3) eqn:E; simpl.
  - apply Qgtb_true in E. split; [done|].
    split; [done|]. intros Hle. exfalso. apply (Qlt_not_le _ _ E Hle).
  - assert (Hle : (t3 - t2 <= 3)%Q).
    { apply Qnot_lt_le. intros Hlt. apply Qgtb_true in Hlt. congruence. }
    split; [|done]. split; [done|]. intros Hlt. exfalso. apply (Qlt_not_le _ _ Hlt Hle).
Qed.

(** "T1" acquires at 1000 s and releases at 1005 s; "T2" is refused at
    1008 s, exactly 3 s later. *)
Lemma acquire_release_acquire_witness :
  (acquire_agent_lock 1008 (Some "T2")
     (release_agent_lock 1005 (Some "T1") (set_acquired 1000 (Some "T1") init))).1
  = Returns false.
Proof.
  assert (Hr : reachable init) by (exists []; split; [constructor | done]).
  destruct (acquire_release_acquire init (set_acquired 1000 (Some "T1") init)
              1000 1005 1008 (Some "T1") (Some "T2") Hr) as (_ & _ & Hrefused);
    [reflexivity | reflexivity |].
  apply Hrefused. unfold Qle. simpl. lia.
Defined.

(** X4.  Takeover after the timeout: when the guard has been working for
    more than 300 s, another task acquires it; a release that the former
    holder (or any task but the new holder) sends afterwards changes
    nothing, so the new holder keeps the lock. *)
Theorem late_release_keeps_the_new_holder (g : AgentLock) (t t1 t2 : Q)
    (new_holder late : option string) :
  reachable g → in_phase g Working → _agent_start_time g = Some t →
  (300 < t1 - t)%Q → late ≠ new_holder →
  acquire_agent_lock t1 new_holder g
  = (Returns true, set_acquired t1 new_holder (force_release g))
  ∧ release_agent_lock t2 late (set_acquired t1 new_holder (force_release g))
    = set_acquired t1 new_holder (force_release g)
  ∧ in_phase (release_agent_lock t2 late (set_acquired t1 new_holder (force_release g)))
      Working
  ∧ _current_task_id
      (release_agent_lock t2 late (set_acquired t1 new_holder (force_release g)))
    = new_holder.
Proof.
  intros Hr [Ew Ec] Hst Hgt Hne.
  pose proof (reachable_ok g Hr) as [_ Hw _ Hto _].
  destruct (Hw Ew) as (t' & Hst' & Hnz). rewrite Hst in Hst'. injection Hst' as <-.
  assert (Hacq : acquire_agent_lock t1 new_holder g
                 = (Returns true, set_acquired t1 new_holder (force_release g))).
  { unfold acquire_agent_lock, acquire_after_cooldown. rewrite Ec, Ew, Hst, Hto.
    by rewrite (proj2 (elapsed_exceeds_some t1 t 300 Hnz) Hgt). }
  split; [exact Hacq|].
  assert (Hrel : release_agent_lock t2 late (set_acquired t1 new_holder (force_release g))
                 = set_acquired t1 new_holder (force_release g)).
  { unfold release_agent_lock. simpl.
    rewrite bool_decide_eq_false_2; [done|]. intros E. by apply Hne. }
  rewrite Hrel. done.
Qed.

(** "T1" holds the lock since 1000 s; "T2" takes it over at 1400 s, and the
    release that "T1" sends at 1500 s changes nothing. *)
Lemma late_release_keeps_the_new_holder_witness :
  release_agent_lock 1500 (Some "T1")
    (set_acquired 1400 (Some "T2") (force_release (run [Acquire 1000 (Some "T1")] init)))
  = set_acquired 1400 (Some "T2") (force_release (run [Acquire 1000 (Some "T1")] init)).
Proof.
  assert (Hr : reachable (run [Acquire 1000 (Some "T1")] init)).
  { exists [Acquire 1000 (Some "T1")]. split; [|done]. repeat constructor. }
  destruct (late_release_keeps_the_new_holder _ 1000 1400 1500 (Some "T2") (Some "T1") Hr)
    as (_ & Hrel & _); try done.
Defined.

(** X5.  On a guard of the process, [is_agent_working()] answers [False]
    only with the guard idle afterwards and no holder on record, and
    answers [True] only with the guard left as it was; asked again at the
    same instant it gives the same answer and changes nothing. *)
Theorem busy_query_contract (g : AgentLock) (now : Q) :
  reachable g →
  ((is_agent_working now g).1 = false →
     in_phase (is_agent_working now g).2 Idle
     ∧ _current_task_id (is_agent_working now g).2 = None)
  ∧ ((is_agent_working now g).1 = true →
     (is_agent_working now g).2 = g ∧ ¬ in_phase g Idle)
  ∧ is_agent_working now (is_agent_working now g).2 = is_agent_working now g.
Proof.
  intros Hr. pose proof (reachable_idle_unheld g Hr) as Hidle.
  apply reachable_ok in Hr. destruct Hr as [He Hw Hc Ht Hs].
  unfold exclusive in He. unfold idle_unheld in Hidle. unfold is_agent_working.
  destruct (_is_agent_working g) eqn:Ew, (_is_cooldown g) eqn:Ec; simpl in *; [done| | |].
  - destruct (elapsed_exceeds now (_agent_start_time g) (_timeout_seconds g)) eqn:E; simpl;
      rewrite ?Ew, ?Ec, ?E; simpl.
    + repeat split; done.
    + split; [done|]. split; [|done]. intros _. split; [done|]. intros [? ?]; congruence.
  - destruct (elapsed_exceeds now (_cooldown_start_time g) (_cooldown_seconds g)) eqn:E;
      simpl; rewrite ?Ew, ?Ec, ?E; simpl.
    + repeat split; done.
    + split; [done|]. split; [|done]. intros _. split; [done|]. intros [? ?]; congruence.
  - rewrite ?Ew, ?Ec. simpl. split; [|done]. intros _. split; [done|]. by apply Hidle.
Qed.

Lemma busy_query_contract_witness :
  is_agent_working 2000 (is_agent_working 2000 (run [Acquire 1000 (Some "T1")] init)).2
  = is_agent_working 2000 (run [Acquire 1000 (Some "T1")] init).
Proof.
  assert (Hr : reachable (run [Acquire 1000 (Some "T1")] init)).
  { exists [Acquire 1000 (Some "T1")]. split; [|done]. repeat constructor. }
  by destruct (busy_query_contract _ 2000 Hr) as (_ & _ & Hsame).
Defined.

Lemma Qmax_bounds (x y : Q) : (x <= Qmax x y)%Q ∧ (y <= Qmax x y)%Q.
Proof.
  unfold Qmax. destruct (Qle_bool x y) eqn:E.
  - apply Qle_bool_iff in E. split; [done | apply Qle_refl].
  - split; [apply Qle_refl|]. apply Qlt_le_weak, Qnot_le_lt.
    intros H. apply Qle_bool_iff in H. congruence.
Qed.

(** X6.  [get_status()] on a guard of the process: "is_locked" is false
    exactly when the guard is idle, and then no task id is reported; in
    cooldown, "cooldown_remaining_seconds" is reported, it is never
    negative, it is at most 3 when the clock has not gone back since the
    release, and it is 0 once 3 s have passed. *)
Theorem status_report (g : AgentLock) (now : Q) :
  reachable g →
  (is_locked (get_status now g) = false ↔ in_phase g Idle)
  ∧ (in_phase g Idle → current_task_id (get_status now g) = None)
  ∧ (in_phase g Cooldown →
     ∃ t r, _cooldown_start_time g = Some t
       ∧ cooldown_remaining_seconds (get_status now g) = Some r
       ∧ (0 <= r)%Q
       ∧ ((t <= now)%Q → (r <= 3)%Q)
       ∧ ((3 <= now - t)%Q → (r == 0)%Q)).
Proof.
  intros Hr. pose proof (reachable_idle_unheld g Hr) as Hidle.
  apply reachable_ok in Hr. destruct Hr as [He Hw Hc Ht Hs].
  split; [|split].
  - unfold get_status, in_phase. simpl. rewrite orb_false_iff. done.
  - intros [Ew Ec]. simpl. by apply Hidle.
  - intros [Ew Ec]. destruct (Hc Ec) as (t & Est & Hnz).
    exists t, (Qmax 0 (3 - (now - t))). split; [done|].
    unfold get_status. simpl. rewrite Est, Hs. simpl.
    rewrite (proj2 (Qeq_bool_false t) Hnz). simpl. split; [done|].
    destruct (Qmax_bounds 0 (3 - (now - t))) as [H0 H1]. split; [done|].
    unfold Qmax in *. destruct (Qle_bool 0 (3 - (now - t))) eqn:E.
    + apply Qle_bool_iff in E. split; intros ?; lra.
    + split; intros ?; lra.
Qed.

(** One second into the cooldown, two seconds remain. *)
Lemma status_report_witness :
  ∃ r, cooldown_remaining_seconds
         (get_status 1006 (run [Acquire 1000 (Some "T1"); Release 1005 (Some "T1")] init))
       = Some r ∧ (0 <= r)%Q ∧ (r <= 3)%Q.
Proof.
  assert (Hr : reachable (run [Acquire 1000 (Some "T1"); Release 1005 (Some "T1")] init)).
  { exists [Acquire 1000 (Some "T1"); Release 1005 (Some "T1")]. split; [|done].
    repeat constructor. }
  destruct (status_report _ 1006 Hr) as (_ & _ & Hcool).
  destruct Hcool as (t & r & Ht & Hrem & H0 & H3 & _); [done|].
  exists r. split; [done|]. split; [done|]. apply H3.
  injection Ht as <-. unfold Qle. simpl. lia.
Defined.

End agent_lock_props.

(** * Further properties of the handlers *)
Module task_processor_props.
Import agent_lock agent_lock_spec agent_lock_props task_processor task_processor_spec.

(** *** Quiet computations *)

Lemma quiet_ret {A} (a : A) w : quiet_at (ret a) w.
Proof. split; [done|]. exists []. by rewrite app_nil_r. Qed.

Lemma quiet_lift {A} (o : outcome A) w : quiet_at (lift o) w.
Proof. split; [done|]. exists []. by rewrite app_nil_r. Qed.

Lemma quiet_emit e w : quiet_event e → quiet_at (emit e) w.
Proof. intros He. split; [done|]. exists [e]. split; [done|]. by constructor. Qed.

Lemma quiet_log action msg w : quiet_at (log_task_action action msg) w.
Proof. by apply quiet_emit. Qed.

Lemma quiet_sleep w : quiet_at sleep_tenth w.
Proof. split; [done|]. exists []. simpl. by rewrite app_nil_r. Qed.

Lemma quiet_bind {A B} (m : M A) (k : A → M B) w :
  quiet_at m w → (∀ a, quiet_at (k a) (m w).2) → quiet_at (bind m k) w.
Proof.
  intros (Hl & evs & Ht & Hq) Hk. unfold quiet_at, bind in *.
  destruct (m w) as [[a|e] w1]; simpl in *.
  - destruct (Hk a) as (Hl' & evs' & Ht' & Hq'). split; [congruence|].
    exists (evs ++ evs'). split; [by rewrite Ht', Ht, app_assoc | by apply Forall_app].
  - split; [done|]. by exists evs.
Qed.

Lemma quiet_try {A} (m : M A) (h : exn → M A) w :
  quiet_at m w → (∀ e, quiet_at (h e) (m w).2) → quiet_at (try_except m h) w.
Proof.
  intros (Hl & evs & Ht & Hq) Hh. unfold quiet_at, try_except in *.
  destruct (m w) as [[a|e] w1]; simpl in *.
  - split; [done|]. by exists evs.
  - destruct (Hh e) as (Hl' & evs' & Ht' & Hq'). split; [congruence|].
    exists (evs ++ evs'). split; [by rewrite Ht', Ht, app_assoc | by apply Forall_app].
Qed.

Lemma quiet_log_ret {A} action msg (a : A) w :
  quiet_at (bind (log_task_action action msg) (fun _ => ret a)) w.
Proof. apply quiet_bind; [apply quiet_log | intros; apply quiet_ret]. Qed.

(** *** The automaton on traces *)

Lemma scope_fold_none evs : fold_left scope_step evs None = None.
Proof. induction evs as [|e evs IH]; simpl; [done | exact IH]. Qed.

Lemma scope_fold_quiet evs s :
  Forall quiet_event evs → fold_left scope_step evs (Some s) = Some s.
Proof.
  induction 1 as [|e evs He _ IH]; simpl; [done|].
  destruct e; try done; destruct s as [|? [|]|]; simpl; exact IH.
Qed.

Lemma scope_fold_app evs1 evs2 s :
  fold_left scope_step (evs1 ++ evs2) s
  = fold_left scope_step evs2 (fold_left scope_step evs1 s).
Proof. apply fold_left_app. Qed.

Lemma quiet_inner {A} (m : M A) w : quiet_at m w → inner_at m w.
Proof.
  intros (Hl & evs & Ht & Hq). split; [done|]. exists evs. split; [done|].
  intros task_id. left. by apply scope_fold_quiet.
Qed.

Lemma quiet_not_acquired evs : Forall quiet_event evs → existsb acquired evs = false.
Proof.
  induction 1 as [|e evs He _ IH]; simpl; [done|]. rewrite IH. by destruct e.
Qed.

Lemma quiet_outer {A} (m : M A) w : quiet_at m w → outer_at m w.
Proof.
  intros (Hl & evs & Ht & Hq). exists evs. split; [done|]. split.
  - left. by apply scope_fold_quiet.
  - intros _. by rewrite quiet_not_acquired.
Qed.

Lemma inner_bind_quiet {A B} (m : M A) (k : A → M B) w :
  quiet_at m w → (∀ a, inner_at (k a) (m w).2) → inner_at (bind m k) w.
Proof.
  intros (Hl & evs & Ht & Hq) Hk. unfold inner_at, bind in *.
  destruct (m w) as [[a|e] w1]; simpl in *.
  - destruct (Hk a) as (Hl' & evs' & Ht' & Hs'). split; [congruence|].
    exists (evs ++ evs'). split; [by rewrite Ht', Ht, app_assoc|].
    intros task_id. rewrite scope_fold_app, (scope_fold_quiet evs) by done. apply Hs'.
  - split; [done|]. exists evs. split; [done|]. intros task_id. left.
    by apply scope_fold_quiet.
Qed.

Lemma inner_planner {B} env task_data (k : string → M B) w :
  (∀ a, quiet_at (k a) (call_planner env task_data w).2) →
  inner_at (bind (call_planner env task_data) k) w.
Proof.
  intros Hk. unfold inner_at, bind, call_planner in *. simpl in *.
  destruct (schedule_initial_tasks_agent env task_data) as [a|e]; simpl.
  - destruct (Hk a) as (Hl' & evs' & Ht' & Hq'). split; [done|].
    exists (Planner_call task_data :: evs'). split; [by rewrite Ht'; simpl; rewrite <- app_assoc|].
    intros task_id. right. simpl. by apply scope_fold_quiet.
  - split; [done|]. exists [Planner_call task_data]. split; [done|].
    intros task_id. by right.
Qed.

(** [agent_working] around a body that may call the planner once. *)
Lemma outer_agent_working {A} task_id (body : M A) w :
  (∀ w1, inner_at body w1) →
  outer_at (agent_working task_id body) w.
Proof.
  intros Hbody. unfold outer_at, agent_working.
  destruct (acquire_agent_lock (now w) task_id (lock w)) as [r l] eqn:Hacq.
  assert (Hfail : exclusive (lock w) → r ≠ Returns true → l = lock w).
  { intros Hex Hne.
    pose proof (acquire_failed_unchanged (now w) task_id (lock w) Hex) as H.
    rewrite Hacq in H. by apply H. }
  destruct r as [[|]|e]; simpl.
  - apply acquire_true_state in Hacq as (Ew & Ec & Hid & _).
    match goal with |- context [body ?w1] => destruct (Hbody w1) as (Hl & evs & Ht & Hs) end.
    simpl in *. rewrite Hl.
    exists (Lock_acquire task_id (Returns true) :: evs ++ [Lock_release task_id]).
    split; [by rewrite Ht; simpl; rewrite <- !app_assoc|]. split.
    + right. simpl. rewrite scope_fold_app.
      destruct (Hs task_id) as [-> | ->]; simpl; by rewrite bool_decide_eq_true_2.
    + intros _. simpl. unfold release_agent_lock.
      by rewrite bool_decide_eq_true_2.
  - exists [Lock_acquire task_id (Returns false)]. split; [done|]. split; [by right|].
    intros Hex. simpl. by apply Hfail.
  - exists [Lock_acquire task_id (Raises e)]. split; [done|]. split; [by right|].
    intros Hex. simpl. by apply Hfail.
Qed.

Lemma scoped_app_quiet evs evs' :
  scoped evs → Forall quiet_event evs' → scoped (evs ++ evs').
Proof.
  unfold scoped. intros Hs Hq. rewrite scope_fold_app.
  destruct Hs as [-> | ->]; rewrite scope_fold_quiet by done; auto.
Qed.

Lemma quiet_app_scoped evs evs' :
  Forall quiet_event evs → scoped evs' → scoped (evs ++ evs').
Proof.
  unfold scoped. intros Hq Hs. by rewrite scope_fold_app, scope_fold_quiet.
Qed.

Lemma outer_try {A} (m : M A) (h : exn → M A) w :
  outer_at m w → (∀ e, quiet_at (h e) (m w).2) → outer_at (try_except m h) w.
Proof.
  intros (evs & Ht & Hs & Hl) Hh. unfold outer_at, quiet_at, try_except in *.
  destruct (m w) as [[a|e] w1]; simpl in *.
  - by exists evs.
  - destruct (Hh e) as (Hl' & evs' & Ht' & Hq').
    exists (evs ++ evs'). split; [by rewrite Ht', Ht, app_assoc|].
    split; [by apply scoped_app_quiet|].
    intros Hex. rewrite existsb_app, (quiet_not_acquired evs'), orb_false_r, Hl' by done.
    by apply Hl.
Qed.

Lemma outer_bind_quiet {A B} (m : M A) (k : A → M B) w :
  quiet_at m w → (∀ a, outer_at (k a) (m w).2) → outer_at (bind m k) w.
Proof.
  intros (Hl & evs & Ht & Hq) Hk. unfold outer_at, bind in *.
  destruct (m w) as [[a|e] w1]; simpl in *.
  - destruct (Hk a) as (evs' & Ht' & Hs' & Hl').
    exists (evs ++ evs'). split; [by rewrite Ht', Ht, app_assoc|].
    split; [by apply quiet_app_scoped|].
    intros Hex. rewrite existsb_app, (quiet_not_acquired evs) by done. simpl.
    rewrite <- Hl in *. by apply Hl'.
  - exists evs. split; [done|]. split; [left; by apply scope_fold_quiet|].
    intros _. by rewrite quiet_not_acquired.
Qed.

Lemma outer_then_quiet {A B} (m : M A) (k : A → M B) w :
  outer_at m w → (∀ a, quiet_at (k a) (m w).2) → outer_at (bind m k) w.
Proof.
  intros (evs & Ht & Hs & Hl) Hk. unfold outer_at, quiet_at, bind in *.
  destruct (m w) as [[a|e] w1]; simpl in *.
  - destruct (Hk a) as (Hl' & evs' & Ht' & Hq').
    exists (evs ++ evs'). split; [by rewrite Ht', Ht, app_assoc|].
    split; [by apply scoped_app_quiet|].
    intros Hex. rewrite existsb_app, (quiet_not_acquired evs'), orb_false_r, Hl' by done.
    by apply Hl.
  - by exists evs.
Qed.

(** *** The handlers *)

Lemma inner_reschedule_body env task_data change_summary reason w :
  inner_at (reschedule_body env task_data change_summary reason) w.
Proof.
  unfold reschedule_body.
  destruct (truthy_str (project_id (cur task_data))); [|apply quiet_inner, quiet_ret].
  apply inner_bind_quiet; [apply quiet_lift|]. intros todos_list.
  destruct (truthy_str todos_list); [|apply quiet_inner, quiet_ret].
  destruct (negb _).
  - apply quiet_inner, quiet_log_ret.
  - apply inner_planner. intros a. apply quiet_log_ret.
Qed.

Lemma outer_schedule_under_lock env task_id task_data done failed w :
  outer_at (schedule_under_lock env task_id task_data done failed) w.
Proof.
  unfold schedule_under_lock. apply outer_try.
  - apply outer_agent_working. intros w1. apply inner_planner.
    intros a. apply quiet_log_ret.
  - intros e. apply quiet_log_ret.
Qed.

Lemma outer_handle_task_updated env task_data w :
  outer_at (handle_task_updated env task_data) w.
Proof.
  unfold handle_task_updated.
  destruct (has_manual_scheduled_label _); [apply quiet_outer, quiet_log_ret|].
  destruct (old_item task_data) as [old|]; [|apply quiet_outer, quiet_log_ret].
  destruct (has_changes _); [|apply quiet_outer, quiet_log_ret].
  unfold outer_at.
  destruct (reschedule_decision env (now w) (cur task_data) old _).1 eqn:Hd.
  - apply (outer_try (agent_working _ _)).
    + apply outer_agent_working. intros w1. apply inner_reschedule_body.
    + intros e. apply quiet_log_ret.
  - apply (quiet_outer (bind (log_task_action _ _) (fun _ => ret _))), quiet_log_ret.
Qed.

Lemma quiet_categorize env task_data w :
  quiet_at
    (if truthy_str (project_id (cur task_data)) then
       try_except
         (let* result := lift (autocategorize_task env (cur task_data)) in
          if negb (is_substring "not configured for auto-categorization" result)
          then log_task_action "categorized" (Text result) >> ret (Some result)
          else ret None)
         (fun e => log_task_action "failed" (Categorize_failed (exn_str e)) >> ret None)
     else ret None) w.
Proof.
  destruct (truthy_str _); [|apply quiet_ret].
  apply quiet_try.
  - apply quiet_bind; [apply quiet_lift|]. intros result.
    destruct (negb _); [apply quiet_log_ret | apply quiet_ret].
  - intros e. apply quiet_log_ret.
Qed.

Lemma outer_handle_task_added env task_data w :
  outer_at (handle_task_added env task_data) w.
Proof.
  unfold handle_task_added. apply outer_bind_quiet; [apply quiet_categorize|].
  intros [result|]; [apply quiet_outer, quiet_ret|].
  destruct (has_manual_scheduled_label _); [apply quiet_outer, quiet_log_ret|].
  destruct (negb (truthy_str (project_id _))); [apply quiet_outer, quiet_log_ret|].
  apply outer_bind_quiet; [apply quiet_lift|]. intros todos_list.
  destruct (negb (truthy_str todos_list)); [apply quiet_outer, quiet_log_ret|].
  destruct (negb _); [apply quiet_outer, quiet_log_ret|].
  apply outer_schedule_under_lock.
Qed.

Lemma quiet_handle_task_completed env task_data w :
  quiet_at (handle_task_completed env task_data) w.
Proof.
  unfold handle_task_completed. apply quiet_bind.
  - destruct (truthy_str _); [|apply quiet_ret].
    apply quiet_bind; [apply quiet_lift|]. intros r.
    apply quiet_bind; [by apply quiet_emit | intros; apply quiet_ret].
  - intros msg. apply quiet_bind; [apply quiet_sleep|]. intros _. apply quiet_log_ret.
Qed.

Lemma quiet_handle_task_deleted task_data w :
  quiet_at (handle_task_deleted task_data) w.
Proof.
  unfold handle_task_deleted. apply quiet_bind; [apply quiet_sleep|].
  intros _. apply quiet_log_ret.
Qed.

Lemma quiet_handle_unknown_event task_data event_name w :
  quiet_at (handle_unknown_event task_data event_name) w.
Proof. apply quiet_log_ret. Qed.

Lemma outer_handle_calendar_reschedule env task_data w :
  outer_at (handle_calendar_reschedule env task_data) w.
Proof.
  unfold handle_calendar_reschedule. apply outer_try; [|intros e; apply quiet_log_ret].
  unfold outer_at.
  destruct (get_task_details env _) as [c|[m|m|m|m]];
    try (apply (quiet_outer (bind (log_task_action _ _) (fun _ => ret _))), quiet_log_ret).
  destruct (has_manual_scheduled_label _);
    [apply (quiet_outer (bind (log_task_action _ _) (fun _ => ret _))), quiet_log_ret|].
  destruct (negb (truthy_str _));
    [apply (quiet_outer (bind (log_task_action _ _) (fun _ => ret _))), quiet_log_ret|].
  apply (outer_bind_quiet (lift _)); [apply quiet_lift|]. intros todos_list.
  destruct (negb (truthy_str todos_list)); [apply quiet_outer, quiet_log_ret|].
  destruct (negb _); [apply quiet_outer, quiet_log_ret|].
  apply outer_schedule_under_lock.
Qed.

Lemma outer_dispatch env event_name task_data w :
  outer_at (dispatch env event_name task_data) w.
Proof.
  unfold dispatch.
  repeat match goal with |- context [String.eqb ?a ?b] => destruct (String.eqb a b) end.
  - apply outer_handle_task_added.
  - apply outer_handle_task_updated.
  - apply quiet_outer, quiet_handle_task_completed.
  - apply quiet_outer, quiet_handle_task_deleted.
  - apply outer_handle_calendar_reschedule.
  - apply quiet_outer, quiet_handle_unknown_event.
Qed.

Lemma outer_router env task_data w : outer_at (router env task_data) w.
Proof.
  unfold router. destruct (negb _).
  - apply quiet_outer. split; [done|]. exists []. by rewrite app_nil_r.
  - apply outer_bind_quiet; [by apply quiet_emit|]. intros _.
    apply outer_try.
    + apply outer_then_quiet; [apply outer_dispatch|].
      intros a. split; [done|]. exists []. by rewrite app_nil_r.
    + intros e. apply quiet_bind; [apply quiet_log|]. intros _.
      split; [done|]. exists []. by rewrite app_nil_r.
Qed.

(** *** What the discipline gives *)

Ltac scope_dead H :=
  simpl in H;
  repeat match type of H with
         | context [bool_decide ?P] => destruct (bool_decide_reflect P); simpl in H
         end;
  try (rewrite scope_fold_none in H; discriminate H).

Lemma planner_calls_bounded evs s s' :
  fold_left scope_step evs (Some s) = Some s' →
  (length (List.filter is_planner_call evs)
   ≤ match s with Before | Holding _ false => 1 | _ => 0 end)%nat.
Proof.
  revert s. induction evs as [|e evs IH]; intros s H; [destruct s as [|? [|]|]; simpl; lia|].
  destruct e as [?|? ?|? [[|]|?]|?|?|?], s as [|? [|]|]; scope_dead H;
    apply IH in H; simpl in *; lia.
Qed.

Lemma held_was_acquired evs s task_id planned :
  fold_left scope_step evs (Some s) = Some (Holding task_id planned) →
  (∃ planned', s = Holding task_id planned')
  ∨ (s = Before ∧ Lock_acquire task_id (Returns true) ∈ evs).
Proof.
  revert s. induction evs as [|e evs IH]; intros s H.
  { simpl in H. simplify_eq. left. by eexists. }
  destruct e as [?|? ?|? [[|]|?]|?|?|?], s as [|? [|]|]; scope_dead H;
    apply IH in H as [[planned' H]|[H Hin]]; simplify_eq;
    try (left; by eexists); right; (split; [done|]);
    try (by apply list_elem_of_further); by apply list_elem_of_here.
Qed.

Lemma held_is_released evs task_id planned s' :
  fold_left scope_step evs (Some (Holding task_id planned)) = Some s' →
  s' = Before ∨ s' = After →
  Lock_release task_id ∈ evs.
Proof.
  revert planned. induction evs as [|e evs IH]; intros planned H Hs'.
  { simpl in H. destruct Hs'; simplify_eq. }
  destruct e as [?|? ?|? [[|]|?]|?|?|?], planned; scope_dead H;
    try (apply list_elem_of_further; by eapply IH);
    subst; apply list_elem_of_here.
Qed.

Lemma scoped_split evs pre e post :
  scoped evs → evs = pre ++ e :: post →
  ∃ s1 s2 s', fold_left scope_step pre (Some Before) = Some s1
              ∧ scope_step (Some s1) e = Some s2
              ∧ fold_left scope_step post (Some s2) = Some s'
              ∧ (s' = Before ∨ s' = After).
Proof.
  intros Hs ->. unfold scoped in Hs. rewrite scope_fold_app in Hs. simpl in Hs.
  destruct (fold_left scope_step pre (Some Before)) as [s1|] eqn:H1.
  - destruct (scope_step (Some s1) e) as [s2|] eqn:H2.
    + exists s1, s2. destruct Hs as [Hs|Hs]; eexists; eauto.
    + rewrite scope_fold_none in Hs. by destruct Hs.
  - simpl in Hs. rewrite scope_fold_none in Hs. by destruct Hs.
Qed.

Lemma scoped_planner_under_lock evs pre task_data post :
  scoped evs → evs = pre ++ Planner_call task_data :: post →
  ∃ task_id, Lock_acquire task_id (Returns true) ∈ pre ∧ Lock_release task_id ∈ post.
Proof.
  intros Hs He. destruct (scoped_split _ _ _ _ Hs He) as (s1 & s2 & s' & H1 & H2 & H3 & Hs').
  destruct s1 as [|task_id [|]|]; simpl in H2; simplify_eq.
  exists task_id. split.
  - apply held_was_acquired in H1 as [[? H1]|[_ H1]]; [done | exact H1].
  - by eapply held_is_released.
Qed.

Lemma scoped_acquire_released evs task_id :
  scoped evs → Lock_acquire task_id (Returns true) ∈ evs → Lock_release task_id ∈ evs.
Proof.
  intros Hs Hin. apply list_elem_of_split in Hin as (pre & post & He).
  destruct (scoped_split _ _ _ _ Hs He) as (s1 & s2 & s' & H1 & H2 & H3 & Hs').
  destruct s1 as [|? [|]|]; simpl in H2; simplify_eq.
  rewrite elem_of_app. right. apply list_elem_of_further. by eapply held_is_released.
Qed.

Lemma existsb_acquired evs :
  existsb acquired evs = true ↔ ∃ task_id, Lock_acquire task_id (Returns true) ∈ evs.
Proof.
  rewrite existsb_exists. split.
  - intros (e & Hin & He). destruct e as [?|? ?|task_id [[|]|?]|?|?|?]; try done.
    exists task_id. by apply list_elem_of_In.
  - intros (task_id & Hin). eexists. split; [by apply list_elem_of_In|done].
Qed.

(** X7 (agent_lock.py, [agent_working]).  When the lock is granted, the
    block runs and the lock is released on every way out: the outcome of the
    block, a return or an exception, is the outcome of the whole, and a
    block that leaves the guard alone ends with the guard in cooldown since
    the moment the block ended, still naming the task.  When the lock is
    refused, the block does not run at all: the statement raises, and
    nothing but the refused request is added to the trace. *)
Theorem scoped_acquisition {A} task_id (body : M A) w :
  let r := acquire_agent_lock (now w) task_id (lock w) in
  let w1 := add_event (Lock_acquire task_id r.1) (set_lock r.2 w) in
  let after := agent_working task_id body w in
  (r.1 = Returns true →
     after.1 = (body w1).1
     ∧ trace after.2 = trace (body w1).2 ++ [Lock_release task_id]
     ∧ (lock (body w1).2 = lock w1 →
        in_phase (lock after.2) Cooldown
        ∧ _cooldown_start_time (lock after.2) = Some (now (body w1).2)
        ∧ _current_task_id (lock after.2) = task_id))
  ∧ (r.1 = Returns false →
     after.1 = Raises (Exception ("Agent is busy, cannot process task " +:+ str_opt task_id))
     ∧ after.2 = w1
     ∧ (exclusive (lock w) → lock after.2 = lock w)).
Proof.
  intros r w1 after. subst after w1. unfold agent_working. fold r.
  pose proof (acquire_failed_unchanged (now w) task_id (lock w)) as Hfail. fold r in Hfail.
  destruct r as [o l] eqn:Hr. simpl in *. split; intros ->.
  - split; [done|]. split; [done|]. intros Hl. simpl. rewrite Hl. simpl.
    apply acquire_true_state in Hr as (Ew & Ec & Hid & _).
    unfold release_agent_lock. by rewrite bool_decide_eq_true_2.
  - split; [done|]. split; [done|]. intros Hex. simpl. by apply Hfail.
Qed.

(** The planner called under the lock, from an idle guard. *)
Lemma scoped_acquisition_witness :
  in_phase
    (lock (agent_working (Some "T1")
             (call_planner work_env (mkTaskData (report_task "item:added" (Some 4) []) None))
             idle_world).2)
    Cooldown.
Proof.
  destruct (scoped_acquisition (Some "T1")
              (call_planner work_env (mkTaskData (report_task "item:added" (Some 4) []) None))
              idle_world) as [Hgranted _].
  destruct (Hgranted eq_refl) as (_ & _ & Hguard).
  destruct (Hguard eq_refl) as (Hcooldown & _).
  exact Hcooldown.
Defined.

(** X8 (task_processor.py, [router] and the handlers).  Whatever the event
    and whatever the collaborators do, one routed event calls the planner at
    most once, and only inside the lock: a planner call comes after a
    granted request for the lock and before the release of the lock for the
    same task.  No hypothesis on the guard is needed. *)
Theorem planner_runs_once_under_the_lock env task_data w :
  ∃ evs, trace (router env task_data w).2 = trace w ++ evs
    ∧ (length (List.filter is_planner_call evs) ≤ 1)%nat
    ∧ ∀ pre planned post, evs = pre ++ Planner_call planned :: post →
        ∃ task_id, Lock_acquire task_id (Returns true) ∈ pre
                   ∧ Lock_release task_id ∈ post.
Proof.
  destruct (outer_router env task_data w) as (evs & Ht & Hs & _).
  exists evs. split; [done|]. split.
  - destruct Hs as [Hs|Hs]; by apply planner_calls_bounded in Hs.
  - intros pre planned post. by apply scoped_planner_under_lock.
Qed.

(** X9 (task_processor.py, [router] and the handlers).  One routed event
    never leaves the lock held: every granted request for the lock is
    followed by its release; if the lock was granted the guard ends in
    cooldown, and otherwise the guard is exactly as it was. *)
Theorem router_leaves_the_lock_free env task_data w :
  exclusive (lock w) →
  ∃ evs, trace (router env task_data w).2 = trace w ++ evs
    ∧ (∀ task_id, Lock_acquire task_id (Returns true) ∈ evs → Lock_release task_id ∈ evs)
    ∧ ((∃ task_id, Lock_acquire task_id (Returns true) ∈ evs) →
       in_phase (lock (router env task_data w).2) Cooldown)
    ∧ ((¬ ∃ task_id, Lock_acquire task_id (Returns true) ∈ evs) →
       lock (router env task_data w).2 = lock w).
Proof.
  intros Hex. destruct (outer_router env task_data w) as (evs & Ht & Hs & Hl).
  exists evs. split; [done|]. split; [intros task_id; by apply scoped_acquire_released|].
  specialize (Hl Hex). pose proof (existsb_acquired evs) as Hacq.
  destruct (existsb acquired evs); split; intros H; try done.
  - destruct H. by apply Hacq.
  - apply Hacq in H. done.
Qed.

Lemma router_leaves_the_lock_free_witness :
  ∃ evs, trace (router work_env (mkTaskData (report_task "item:added" (Some 4) []) None)
                  idle_world).2 = trace idle_world ++ evs
    ∧ (∀ task_id, Lock_acquire task_id (Returns true) ∈ evs → Lock_release task_id ∈ evs)
    ∧ ((∃ task_id, Lock_acquire task_id (Returns true) ∈ evs) →
       in_phase (lock (router work_env (mkTaskData (report_task "item:added" (Some 4) []) None)
                         idle_world).2) Cooldown)
    ∧ ((¬ ∃ task_id, Lock_acquire task_id (Returns true) ∈ evs) →
       lock (router work_env (mkTaskData (report_task "item:added" (Some 4) []) None)
               idle_world).2 = lock idle_world).
Proof.
  apply (router_leaves_the_lock_free work_env
           (mkTaskData (report_task "item:added" (Some 4) []) None) idle_world).
  reflexivity.
Defined.

(** *** Failures and quiet handlers *)

Lemma try_returns {A} (m : M A) (h : exn → M A) w :
  (∀ e w', ∃ a, (h e w').1 = Returns a) → ∃ a, (try_except m h w).1 = Returns a.
Proof.
  intros Hh. unfold try_except. destruct (m w) as [[a|e] w1]; [by exists a | apply Hh].
Qed.

Lemma quiet_no_lock_request {A} (m : M A) w evs task_id :
  quiet_at m w → trace (m w).2 = trace w ++ evs →
  ¬ reschedule_attempted task_id evs ∧ ¬ planner_called evs.
Proof.
  intros (_ & evs' & Ht & Hq) Ht'. rewrite Ht in Ht'. apply app_inv_head in Ht' as <-.
  rewrite Forall_forall in Hq. split.
  - intros [r Hin]. by apply Hq in Hin.
  - intros [planned Hin]. by apply Hq in Hin.
Qed.

(** X10 (task_processor.py, [handle_task_updated] and
    [handle_calendar_reschedule]).  The handlers of updates and of calendar
    events never raise: whatever the settings, the Todoist client, the lock
    or the planner raise becomes the message that the handler returns. *)
Theorem update_and_calendar_failures_become_messages env task_data :
  never_raises (handle_task_updated env task_data)
  ∧ never_raises (handle_calendar_reschedule env task_data).
Proof.
  split; intros w.
  - unfold handle_task_updated.
    destruct (has_manual_scheduled_label _); [by eexists|].
    destruct (old_item task_data) as [old|]; [|by eexists].
    destruct (has_changes _); [|by eexists].
    destruct (reschedule_decision env (now w) (cur task_data) old _).1; [|by eexists].
    apply try_returns. intros e w'. by eexists.
  - unfold handle_calendar_reschedule. apply try_returns. intros e w'. by eexists.
Qed.

Lemma manual_label_of_enhanced task_id task_content complete_task_data :
  has_manual_scheduled_label (enhance task_id task_content complete_task_data)
  = has_manual_scheduled_label complete_task_data.
Proof.
  unfold has_manual_scheduled_label, enhance. simpl.
  by destruct (labels complete_task_data) as [[|label labels]|].
Qed.

(** X11 (task_processor.py, [handle_task_added] and
    [handle_calendar_reschedule]).  A "manual scheduled" label keeps a task
    out of the scheduler.  For a new task with the label the handler returns
    a message, and neither asks for the lock nor calls the planner; the
    guard stays as it is.  For a calendar event the label that counts is the
    one of the task as Todoist returns it, not the one of the event: with
    it the handler returns "Calendar reschedule skipped" and is as quiet. *)
Theorem manual_label_keeps_the_scheduler_away env task_data w :
  (has_manual_scheduled_label (cur task_data) = true →
   quiet_at (handle_task_added env task_data) w
   ∧ ∃ msg, (handle_task_added env task_data w).1 = Returns (Some msg))
  ∧ (∀ complete_task_data,
       get_task_details env (id (cur task_data)) = Returns complete_task_data →
       has_manual_scheduled_label complete_task_data = true →
       quiet_at (handle_calendar_reschedule env task_data) w
       ∧ (handle_calendar_reschedule env task_data w).1
         = Returns (Some (Calendar_manually_scheduled (content (cur task_data))))).
Proof.
  split.
  - intros Hm. unfold handle_task_added. rewrite Hm. split.
    + apply quiet_bind; [apply quiet_categorize|].
      intros [result|]; [apply quiet_ret | apply quiet_log_ret].
    + unfold bind at 1.
      match goal with |- context [match ?m w with _ => _ end] => destruct (quiet_categorize env task_data w) as [_ _]; destruct (m w) as [[[result|]|e] w1] eqn:Hc end.
      * by eexists.
      * by eexists.
      * exfalso. revert Hc. destruct (truthy_str _); [|done].
        unfold try_except, bind, lift. destruct (autocategorize_task env _) as [r|e']; simpl.
        -- destruct (negb _); simpl; done.
        -- done.
  - intros c Hc Hm. unfold handle_calendar_reschedule, try_except, quiet_at.
    rewrite Hc, manual_label_of_enhanced, Hm. simpl. split; [|done].
    split; [done|]. eexists. split; [done|]. by repeat constructor.
Qed.

Lemma manual_label_keeps_the_scheduler_away_witness :
  quiet_at (handle_task_added work_env
              (mkTaskData (report_task "item:added" (Some 4) ["Manual Scheduled"]) None))
    idle_world
  ∧ ∃ msg, (handle_task_added work_env
              (mkTaskData (report_task "item:added" (Some 4) ["Manual Scheduled"]) None)
              idle_world).1 = Returns (Some msg).
Proof.
  apply (manual_label_keeps_the_scheduler_away work_env
           (mkTaskData (report_task "item:added" (Some 4) ["Manual Scheduled"]) None)
           idle_world).
  reflexivity.
Defined.

(** X12 (task_processor.py, [handle_task_completed], [handle_task_deleted],
    [handle_unknown_event]).  Completions, deletions and unknown events never
    ask for the lock and never call the planner, and they leave the guard as
    it is.  The completion handler raises exactly when the task has an id
    and removing its scheduling raises; it raises that exception, and the
    completion is then not logged: the trace is as before. *)
Theorem completions_and_deletions_stay_off_the_lock env task_data event_name w :
  quiet_at (handle_task_completed env task_data) w
  ∧ quiet_at (handle_task_deleted task_data) w
  ∧ quiet_at (handle_unknown_event task_data event_name) w
  ∧ (∀ e, (handle_task_completed env task_data w).1 = Raises e
          ↔ truthy_str (id (cur task_data)) = true
            ∧ remove_task_scheduling env (default "" (id (cur task_data))) = Raises e)
  ∧ (∀ e, (handle_task_completed env task_data w).1 = Raises e →
          (handle_task_completed env task_data w).2 = w).
Proof.
  split; [apply quiet_handle_task_completed|].
  split; [apply quiet_handle_task_deleted|].
  split; [apply quiet_handle_unknown_event|].
  unfold handle_task_completed, bind, lift.
  destruct (truthy_str (id (cur task_data))); simpl.
  - destruct (remove_task_scheduling env _) as [r|e']; simpl.
    + split; [|done]. intros e. split; [done | by intros [_ ?]].
    + split; [|done]. intros e. split; [by intros [= ->] | by intros [_ [= ->]]].
  - split; [|done]. intros e. split; [done | by intros [? _]].
Qed.

Lemma bind_returns {A B} (m : M A) (k : A → M B) w a w1 :
  m w = (Returns a, w1) → bind m k w = k a w1.
Proof. unfold bind. by intros ->. Qed.

Lemma bind_lift_returns {A B} (a : A) (k : A → M B) : bind (lift (Returns a)) k = k a.
Proof. reflexivity. Qed.

Lemma categorize_step env task_data w :
  ∃ evs, Forall quiet_event evs
    ∧ (if truthy_str (project_id (cur task_data)) then
         try_except
           (let* result := lift (autocategorize_task env (cur task_data)) in
            if negb (is_substring "not configured for auto-categorization" result)
            then log_task_action "categorized" (Text result) >> ret (Some result)
            else ret None)
           (fun e => log_task_action "failed" (Categorize_failed (exn_str e)) >> ret None)
       else ret None) w
      = (Returns (categorized env (cur task_data)),
         {| lock := lock w; now := now w; trace := trace w ++ evs |}).
Proof.
  unfold categorized. destruct w as [l n t]. simpl.
  destruct (truthy_str _).
  - unfold try_except, bind, lift, ret. simpl.
    destruct (autocategorize_task env _) as [r|e]; simpl.
    + destruct (is_substring _ r); simpl.
      * exists []. by rewrite app_nil_r.
      * eexists. split; [|done]. by repeat constructor.
    + eexists. split; [|done]. by repeat constructor.
  - exists []. by rewrite app_nil_r.
Qed.

Lemma schedule_under_lock_trace env task_id task_data done failed w :
  ∃ r post, trace (schedule_under_lock env task_id task_data done failed w).2
            = trace w ++ Lock_acquire task_id r :: post.
Proof.
  unfold schedule_under_lock, try_except.
  match goal with |- context [agent_working task_id ?body w] =>
    destruct (agent_working_trace task_id body w) as [evs He] end.
  { apply appends_bind; [apply appends_call_planner|]. intros a.
    apply appends_bind; [apply appends_log | intros; apply appends_ret]. }
  destruct (agent_working _ _ w) as [[a|e] w1]; simpl in *.
  - by eexists _, _.
  - rewrite He. eexists _, _. by rewrite <- app_assoc.
Qed.

Ltac quiet_leaf pre :=
  split; [done|]; simpl; eexists; split; [by rewrite <- app_assoc|];
  apply Forall_app; split; [done | by repeat constructor].

Lemma added_cases env task_data w :
  (categorized env (cur task_data) = None
   ∧ has_manual_scheduled_label (cur task_data) = false
   ∧ truthy_str (project_id (cur task_data)) = true
   ∧ (∃ s todos_list,
        load_settings env = Returns s
        ∧ project_mappings s !! default "" (project_id (cur task_data)) = Some todos_list
        ∧ todos_list ≠ ""
        ∧ (should_auto_schedule_by_priority env (cur task_data) todos_list).1 = true)
   ∧ ∃ pre r post,
       trace (handle_task_added env task_data w).2
       = trace w ++ pre ++ Lock_acquire (id (cur task_data)) r :: post)
  ∨ (¬ (categorized env (cur task_data) = None
        ∧ has_manual_scheduled_label (cur task_data) = false
        ∧ truthy_str (project_id (cur task_data)) = true
        ∧ ∃ s todos_list,
            load_settings env = Returns s
            ∧ project_mappings s !! default "" (project_id (cur task_data)) = Some todos_list
            ∧ todos_list ≠ ""
            ∧ (should_auto_schedule_by_priority env (cur task_data) todos_list).1 = true)
     ∧ quiet_at (handle_task_added env task_data) w).
Proof.
  unfold quiet_at, handle_task_added.
  destruct (categorize_step env task_data w) as (pre & Hpre & Hstep).
  rewrite !(bind_returns _ _ _ _ _ Hstep).
  destruct (categorized env (cur task_data)) as [result|] eqn:Hcat.
  { right. split; [by intros [? _]|]. split; [done|]. by exists pre. }
  destruct (has_manual_scheduled_label (cur task_data)) eqn:Hm.
  { right. split; [by intros (_ & ? & _)|]. quiet_leaf pre. }
  destruct (truthy_str (project_id (cur task_data))) eqn:Hp; simpl.
  2:{ right. split; [by intros (_ & _ & ? & _)|]. quiet_leaf pre. }
  unfold get_todos_list_from_project_id.
  destruct (load_settings env) as [s|e] eqn:Hs; simpl.
  2:{ right. split; [by intros (_ & _ & _ & ? & ? & ? & _)|]. split; [done|]. by exists pre. }
  rewrite !bind_lift_returns.
  destruct (project_mappings s !! default "" (project_id (cur task_data)))
    as [todos_list|] eqn:Hmap; simpl.
  2:{ right. split; [by intros (_ & _ & _ & ? & ? & ? & ? & _); simplify_eq|]. quiet_leaf pre. }
  destruct (String.eqb todos_list "") eqn:Hne; simpl.
  { apply String.eqb_eq in Hne as ->.
    right. split; [by intros (_ & _ & _ & ? & ? & ? & ? & ? & _); simplify_eq|]. quiet_leaf pre. }
  apply String.eqb_neq in Hne.
  destruct (should_auto_schedule_by_priority env (cur task_data) todos_list).1 eqn:Hgate; simpl.
  2:{ right. split; [intros (_ & _ & _ & ? & ? & ? & ? & ? & ?); simplify_eq; congruence|].
      quiet_leaf pre. }
  left. repeat (split; [done|]). split; [by exists s, todos_list|].
  destruct (schedule_under_lock_trace env (id (cur task_data)) task_data Added_scheduled
              Added_failed {| lock := lock w; now := now w; trace := trace w ++ pre |})
    as (r & post & Ht).
  exists pre, r, post. rewrite Ht. simpl. by rewrite <- app_assoc.
Qed.

(** X13 (task_processor.py, [handle_task_added]).  A new task reaches the
    scheduler only through every gate: the handler asks for the lock exactly
    when the task was not categorized, has no "manual scheduled" label, has
    a project that the settings map to a list, and passes the priority gate
    of that list.  In every other case it neither asks for the lock nor
    calls the planner. *)
Theorem added_task_asks_for_the_lock_after_the_gates env task_data w evs :
  trace (handle_task_added env task_data w).2 = trace w ++ evs →
  (reschedule_attempted (id (cur task_data)) evs
   ↔ categorized env (cur task_data) = None
     ∧ has_manual_scheduled_label (cur task_data) = false
     ∧ truthy_str (project_id (cur task_data)) = true
     ∧ ∃ s todos_list,
         load_settings env = Returns s
         ∧ project_mappings s !! default "" (project_id (cur task_data)) = Some todos_list
         ∧ todos_list ≠ ""
         ∧ (should_auto_schedule_by_priority env (cur task_data) todos_list).1 = true)
  ∧ (planner_called evs → reschedule_attempted (id (cur task_data)) evs).
Proof.
  intros Ht. destruct (added_cases env task_data w) as [(H1 & H2 & H3 & H4 & Hreq)|[Hn Hq]].
  - destruct Hreq as (pre & r & post & Ht'). rewrite Ht in Ht'.
    apply app_inv_head in Ht' as ->.
    assert (reschedule_attempted (id (cur task_data))
              (pre ++ Lock_acquire (id (cur task_data)) r :: post)).
    { exists r. rewrite elem_of_app. right. apply list_elem_of_here. }
    split; [|done]. split; [done|]. intros _. done.
  - destruct (quiet_no_lock_request _ w evs (id (cur task_data)) Hq Ht) as [Hno Hnp].
    split; [|done]. split; [done|]. intros H. by destruct Hn.
Qed.

Lemma added_task_asks_for_the_lock_after_the_gates_witness :
  reschedule_attempted (Some "T1")
    [Lock_acquire (Some "T1") (Returns true);
     Planner_call (mkTaskData (report_task "item:added" (Some 4) []) None);
     Task_action "rescheduled" (Added_scheduled "Task scheduled");
     Lock_release (Some "T1")]
  ↔ categorized work_env (report_task "item:added" (Some 4) []) = None
    ∧ has_manual_scheduled_label (report_task "item:added" (Some 4) []) = false
    ∧ truthy_str (Some "P1") = true
    ∧ ∃ s todos_list,
        load_settings work_env = Returns s
        ∧ project_mappings s !! "P1" = Some todos_list
        ∧ todos_list ≠ ""
        ∧ (should_auto_schedule_by_priority work_env
             (report_task "item:added" (Some 4) []) todos_list).1 = true.
Proof.
  apply (added_task_asks_for_the_lock_after_the_gates work_env
           (mkTaskData (report_task "item:added" (Some 4) []) None) idle_world).
  vm_compute. reflexivity.
Defined.

(** X14 (task_processor.py, [handle_task_added]).  The handler of new tasks
    lets one exception through: it raises exactly when the task was not
    categorized, has no "manual scheduled" label and has a project, and the
    settings cannot be loaded for the lookup of the project's list.  It
    raises what [load_settings] raised, before any request for the lock. *)
Theorem added_task_raises_when_settings_fail env task_data w e :
  ((handle_task_added env task_data w).1 = Raises e
   ↔ categorized env (cur task_data) = None
     ∧ has_manual_scheduled_label (cur task_data) = false
     ∧ truthy_str (project_id (cur task_data)) = true
     ∧ load_settings env = Raises e)
  ∧ ((handle_task_added env task_data w).1 = Raises e →
     quiet_at (handle_task_added env task_data) w).
Proof.
  assert (Hsched : ∀ w1, ∃ a, (schedule_under_lock env (id (cur task_data)) task_data
                                  Added_scheduled Added_failed w1).1 = Returns a).
  { intros w1. apply try_returns. intros e' w'. by eexists. }
  unfold quiet_at, handle_task_added.
  destruct (categorize_step env task_data w) as (pre & Hpre & Hstep).
  rewrite !(bind_returns _ _ _ _ _ Hstep).
  destruct (categorized env (cur task_data)) as [result|] eqn:Hcat.
  { split; [|done]. split; [done | by intros [? _]]. }
  destruct (has_manual_scheduled_label (cur task_data)) eqn:Hm.
  { split; [|done]. split; [done | by intros (_ & ? & _)]. }
  destruct (truthy_str (project_id (cur task_data))) eqn:Hp; simpl.
  2:{ split; [|done]. split; [done | by intros (_ & _ & ? & _)]. }
  unfold get_todos_list_from_project_id.
  destruct (load_settings env) as [s|e'] eqn:Hs; simpl.
  2:{ split.
      - split; [by intros [= ->] | by intros (_ & _ & _ & [= ->])].
      - intros _. split; [done|]. by exists pre. }
  rewrite !bind_lift_returns.
  split; [split; [|by intros (_ & _ & _ & ?)]|];
    (destruct (negb (truthy_str _)); [done|]);
    (destruct (negb _); [done|]);
    match goal with |- context [schedule_under_lock ?a ?b ?c ?d ?f ?w1] =>
      destruct (Hsched w1) as [a' Ha]; rewrite Ha end; done.
Qed.

Lemma added_task_raises_when_settings_fail_witness :
  (handle_task_added broken_env (mkTaskData (report_task "item:added" (Some 4) []) None)
     idle_world).1 = Raises (Exception "settings file is not valid JSON").
Proof.
  apply (added_task_raises_when_settings_fail broken_env
           (mkTaskData (report_task "item:added" (Some 4) []) None) idle_world).
  repeat split; reflexivity.
Defined.
(** X15 (task_processor.py, [handle_task_updated]).  The update handler
    returns [None] instead of a message in one situation only: a reschedule
    is warranted and the lock is granted, but the task has no project, or
    its project is not mapped to a list.  The planner is then not called,
    yet the lock was taken and released: the guard is left in cooldown. *)
Theorem update_without_a_list_returns_nothing env task_data w :
  ((handle_task_updated env task_data w).1 = Returns None
   ↔ has_manual_scheduled_label (cur task_data) = false
     ∧ ∃ old,
         old_item task_data = Some old
         ∧ has_changes (analyze_task_changes (cur task_data) old) = true
         ∧ (reschedule_decision env (now w) (cur task_data) old
              (bool_decide ("priority_changed"
                 ∈ significant_changes (analyze_task_changes (cur task_data) old)))).1 = true
         ∧ (acquire_agent_lock (now w) (id (cur task_data)) (lock w)).1 = Returns true
         ∧ (truthy_str (project_id (cur task_data)) = false
            ∨ ∃ s, load_settings env = Returns s
                   ∧ truthy_str (project_mappings s !! default "" (project_id (cur task_data)))
                     = false))
  ∧ ((handle_task_updated env task_data w).1 = Returns None →
     trace (handle_task_updated env task_data w).2
     = trace w ++ [Lock_acquire (id (cur task_data)) (Returns true);
                   Lock_release (id (cur task_data))]
     ∧ in_phase (lock (handle_task_updated env task_data w).2) Cooldown).
Proof.
  unfold handle_task_updated.
  destruct (has_manual_scheduled_label (cur task_data)) eqn:Hm.
  { split; [|done]. split; [done | by intros [? _]]. }
  destruct (old_item task_data) as [old|] eqn:Hold.
  2:{ split; [|done]. split; [done | by intros (_ & ? & ? & _)]. }
  destruct (has_changes (analyze_task_changes (cur task_data) old)) eqn:Hc.
  2:{ split; [|done]. split; [done|]. intros (_ & ? & ? & ? & _). simplify_eq. congruence. }
  destruct (reschedule_decision env (now w) (cur task_data) old _).1 eqn:Hd.
  2:{ split; [|done]. split; [done|]. intros (_ & ? & ? & ? & ? & _). simplify_eq. congruence. }
  unfold try_except, agent_working.
  destruct (acquire_agent_lock (now w) (id (cur task_data)) (lock w)) as [r l] eqn:Hacq.
  destruct r as [[|]|e]; simpl.
  2,3: split; [|done]; split; [done|]; intros (_ & ? & ? & ? & ? & ? & _); by simplify_eq.
  apply acquire_true_state in Hacq as (Ew & Ec & Hid & _).
  unfold reschedule_body.
  destruct (truthy_str (project_id (cur task_data))) eqn:Hp; simpl.
  2:{ unfold release_agent_lock. simpl. rewrite bool_decide_eq_true_2 by done. simpl.
      split; [|intros _; split; [by rewrite <- app_assoc | done]].
      split; [|done]. intros _. split; [done|]. exists old. repeat (split; [done|]). by left. }
  unfold get_todos_list_from_project_id.
  destruct (load_settings env) as [s|e] eqn:Hs; simpl.
  2:{ split; [|done]. split; [done|].
      intros (_ & ? & ? & ? & ? & ? & [?|(? & ? & ?)]); by simplify_eq. }
  rewrite !bind_lift_returns.
  destruct (truthy_str (project_mappings s !! default "" (project_id (cur task_data))))
    eqn:Hmap; simpl.
  2:{ unfold release_agent_lock. simpl. rewrite bool_decide_eq_true_2 by done. simpl.
      split; [|intros _; split; [by rewrite <- app_assoc | done]].
      split; [|done]. intros _. split; [done|]. exists old. repeat (split; [done|]).
      right. by exists s. }
  assert (Hno : ¬ (∃ old0, Some old = Some old0
         ∧ has_changes (analyze_task_changes (cur task_data) old0) = true
         ∧ (reschedule_decision env (now w) (cur task_data) old0
              (bool_decide ("priority_changed"
                 ∈ significant_changes (analyze_task_changes (cur task_data) old0)))).1 = true
         ∧ Returns true = Returns true
         ∧ (true = false
            ∨ ∃ s0, Returns s = Returns s0
                   ∧ truthy_str (project_mappings s0 !! default "" (project_id (cur task_data)))
                     = false))).
  { intros (? & ? & ? & ? & ? & [?|(? & ? & ?)]); simplify_eq. congruence. }
  destruct (negb _); simpl.
  { split; [|done]. split; [done | intros [_ H]; by destruct Hno]. }
  unfold bind, call_planner. simpl.
  destruct (schedule_initial_tasks_agent env _); simpl.
  - split; [|done]. split; [done | intros [_ H]; by destruct Hno].
  - split; [|done]. split; [done | intros [_ H]; by destruct Hno].
Qed.

(** A priority change on a task without a project, the guard idle. *)
Lemma update_without_a_list_returns_nothing_witness :
  (handle_task_updated work_env
     (mkTaskData (set_project_id None (report_task "item:updated" (Some 4) []))
                 (Some (set_project_id None (report_task "item:updated" (Some 1) []))))
     idle_world).1 = Returns None.
Proof.
  apply (update_without_a_list_returns_nothing work_env
           (mkTaskData (set_project_id None (report_task "item:updated" (Some 4) []))
                       (Some (set_project_id None (report_task "item:updated" (Some 1) []))))
           idle_world).
  split; [reflexivity|].
  exists (set_project_id None (report_task "item:updated" (Some 1) [])).
  split; [reflexivity|]. split; [vm_compute; reflexivity|].
  split; [vm_compute; reflexivity|]. split; [reflexivity|]. left. reflexivity.
Defined.

(** *** The change analysis as a whole *)

Lemma analyze_fold_fields current_data old_data fields : ∀ changes,
  fields_changed (fold_left (analyze_field current_data old_data) fields changes)
  = fields_changed changes
    ++ filter (fun field => get old_data field ≠ get current_data field) fields.*1.
Proof.
  induction fields as [|fd fields IH]; intros changes; simpl.
  - by rewrite app_nil_r.
  - rewrite IH, analyze_field_unfold. simpl. unfold field_changed.
    rewrite filter_cons. case_bool_decide; case_decide; try done.
    + by rewrite <- app_assoc.
    + by rewrite app_nil_r.
Qed.

Lemma analyze_field_same current_data old_data changes fd :
  field_changed current_data old_data fd = false →
  analyze_field current_data old_data changes fd = changes.
Proof. unfold analyze_field, field_changed. by intros ->. Qed.

Lemma analyze_fold_same current_data old_data fields : ∀ changes,
  existsb (field_changed current_data old_data) fields = false →
  fold_left (analyze_field current_data old_data) fields changes = changes.
Proof.
  induction fields as [|fd fields IH]; intros changes; simpl; [done|].
  intros [H1 H2]%orb_false_elim. by rewrite analyze_field_same, IH.
Qed.

Lemma analyze_fold_details current_data old_data fields : ∀ changes field,
  change_details (fold_left (analyze_field current_data old_data) fields changes) !! field
  = match list_find (fun fd : string * string => fd.1 = field) (reverse fields) with
    | Some (_, fd) =>
        if bool_decide (get old_data field ≠ get current_data field)
        then Some (mkDetail (get old_data field) (get current_data field) fd.2)
        else change_details changes !! field
    | None => change_details changes !! field
    end.
Proof.
  induction fields as [|fd fields IH] using rev_ind; intros changes field.
  - done.
  - rewrite fold_left_app, reverse_snoc. simpl.
    unfold analyze_field at 1. case_decide as Hfd.
    + subst field. simpl. case_bool_decide as Hne.
      * simpl. by rewrite lookup_insert_eq.
      * rewrite IH. destruct (list_find _ _) as [[? ?]|]; simpl; [|done].
        by rewrite bool_decide_eq_false_2 by (intros H; by apply H).
    + case_bool_decide as Hne.
      * simpl. rewrite lookup_insert_ne by done. rewrite IH.
        by destruct (list_find _ _) as [[? ?]|].
      * rewrite IH. by destruct (list_find _ _) as [[? ?]|].
Qed.

(** X16 (task_processor.py, [analyze_task_changes]).  The analysis lists
    exactly the tracked fields whose values differ, in the order in which
    they are tracked, and flags a change exactly when that list is not
    empty.  Its details have an entry for exactly the listed fields, with
    the old and the new value of the field.  Without a difference in a
    tracked field the result is the empty analysis: comparing a snapshot
    with itself reports nothing. *)
Theorem analysis_lists_the_fields_that_differ (current_data old_data : item) :
  let changes := analyze_task_changes current_data old_data in
  fields_changed changes
  = filter (fun field => get old_data field ≠ get current_data field) important_fields.*1
  ∧ (has_changes changes = true ↔ fields_changed changes ≠ [])
  ∧ (∀ field, field ∈ fields_changed changes ↔ is_Some (change_details changes !! field))
  ∧ (∀ field detail,
       change_details changes !! field = Some detail →
       old_value detail = get old_data field
       ∧ new_value detail = get current_data field
       ∧ (field, detail_description detail) ∈ important_fields)
  ∧ (has_changes changes = false → changes = no_changes)
  ∧ analyze_task_changes current_data current_data = no_changes.
Proof.
  intros changes.
  assert (Hf : fields_changed changes
               = filter (fun field => get old_data field ≠ get current_data field)
                   important_fields.*1).
  { apply (analyze_fold_fields current_data old_data important_fields no_changes). }
  assert (Hd : ∀ field, change_details changes !! field
     = match list_find (fun fd : string * string => fd.1 = field) (reverse important_fields) with
       | Some (_, fd) =>
           if bool_decide (get old_data field ≠ get current_data field)
           then Some (mkDetail (get old_data field) (get current_data field) fd.2)
           else None
       | None => None
       end).
  { intros field. unfold changes, analyze_task_changes.
    rewrite analyze_fold_details.
    destruct (list_find (fun fd : string * string => fd.1 = field) (reverse important_fields))
      as [[? ?]|]; by rewrite ?lookup_empty. }
  destruct (analyze_task_changes_unfold current_data old_data) as (Hh & _ & _).
  fold changes in Hh.
  split; [exact Hf|]. split; [|split; [|split; [|split]]].
  - rewrite Hh, Hf. rewrite existsb_exists. split.
    + intros (fd & Hin & Hc) Hnil. apply bool_decide_eq_true in Hc.
      assert (fd.1 ∈ filter (fun field => get old_data field ≠ get current_data field)
                       important_fields.*1) as Hm.
      { apply list_elem_of_filter. split; [done|]. apply list_elem_of_fmap.
        exists fd. split; [done | by apply list_elem_of_In]. }
      rewrite Hnil in Hm. by apply not_elem_of_nil in Hm.
    + intros Hne.
      destruct (filter _ _) as [|field rest] eqn:Hfilter; [done|].
      assert (field ∈ filter (fun field => get old_data field ≠ get current_data field)
                        important_fields.*1) as Hm by (rewrite Hfilter; apply list_elem_of_here).
      apply list_elem_of_filter in Hm as [Hdiff Hin].
      apply list_elem_of_fmap in Hin as (fd & -> & Hin).
      exists fd. split; [by apply list_elem_of_In|]. by apply bool_decide_eq_true.
  - intros field. rewrite Hf, Hd, list_elem_of_filter, list_elem_of_fmap. split.
    + intros (Hdiff & fd & -> & Hin).
      destruct (list_find _ _) as [[k fd']|] eqn:Hfind.
      * rewrite bool_decide_eq_true_2 by done. by eexists.
      * apply list_find_None in Hfind. rewrite Forall_forall in Hfind.
        destruct (Hfind fd); [by apply elem_of_reverse | done].
    + intros [detail Hsome].
      destruct (list_find _ _) as [[k fd']|] eqn:Hfind; [|done].
      case_bool_decide as Hdiff; [|done]. split; [done|].
      apply list_find_Some in Hfind as (Hk & Hfd & _).
      exists fd'. split; [done|]. apply elem_of_reverse. by eapply list_elem_of_lookup_2.
  - intros field detail. rewrite Hd.
    destruct (list_find _ _) as [[k fd']|] eqn:Hfind; [|done].
    case_bool_decide as Hdiff; [|done]. intros [= <-]. simpl.
    split; [done|]. split; [done|].
    apply list_find_Some in Hfind as (Hk & Hfd & _).
    apply elem_of_reverse. apply list_elem_of_lookup_2 with k. rewrite Hk.
    f_equal. destruct fd'; simpl in *; by subst.
  - intros Hno. rewrite Hh in Hno. unfold changes, analyze_task_changes.
    by apply analyze_fold_same.
  - unfold analyze_task_changes. apply analyze_fold_same.
    apply not_true_is_false. rewrite existsb_exists. intros (fd & _ & Hc).
    by apply bool_decide_eq_true in Hc.
Qed.

(** Two snapshots that differ in the event name only, which is not tracked. *)
Lemma analysis_lists_the_fields_that_differ_witness :
  analyze_task_changes (report_task "item:updated" (Some 2) [])
                       (report_task "item:added" (Some 2) []) = no_changes.
Proof.
  destruct (analysis_lists_the_fields_that_differ
              (report_task "item:updated" (Some 2) []) (report_task "item:added" (Some 2) []))
    as (_ & _ & _ & _ & Hnone & _).
  apply Hnone. vm_compute. reflexivity.
Defined.

(** *** The calendar handler *)

Lemma schedule_under_lock_planned env task_id task_data done failed w evs planned :
  trace (schedule_under_lock env task_id task_data done failed w).2 = trace w ++ evs →
  Planner_call planned ∈ evs → planned = task_data.
Proof.
  unfold schedule_under_lock, try_except, agent_working, bind, call_planner.
  destruct (acquire_agent_lock (now w) task_id (lock w)) as [[[|]|e] l]; simpl;
    [destruct (schedule_initial_tasks_agent env task_data); simpl| |];
    rewrite <- ?app_assoc; intros Ht; apply app_inv_head in Ht; subst evs; simpl;
    rewrite ?elem_of_cons, ?elem_of_nil; naive_solver.
Qed.

Lemma try_except_returns {A} (m : M A) (h : exn → M A) w a :
  (m w).1 = Returns a → try_except m h w = m w.
Proof. unfold try_except. destruct (m w) as [[a'|e] w']; simpl; [done | by intros ?]. Qed.

Lemma calendar_cases env task_data w :
  (∃ complete_task_data s todos_list,
     get_task_details env (id (cur task_data)) = Returns complete_task_data
     ∧ has_manual_scheduled_label complete_task_data = false
     ∧ truthy_str (project_id (enrich_project_id env
         (enhance (id (cur task_data)) (content (cur task_data)) complete_task_data))) = true
     ∧ load_settings env = Returns s
     ∧ project_mappings s
       !! default "" (project_id (enrich_project_id env
            (enhance (id (cur task_data)) (content (cur task_data)) complete_task_data)))
       = Some todos_list
     ∧ todos_list ≠ ""
     ∧ (should_auto_schedule_by_priority env
          (set_todos_list_override todos_list
             (enrich_project_id env
                (enhance (id (cur task_data)) (content (cur task_data)) complete_task_data)))
          todos_list).1 = true
     ∧ handle_calendar_reschedule env task_data w
       = schedule_under_lock env (id (cur task_data))
           (mkTaskData
              (set_todos_list_override todos_list
                 (enrich_project_id env
                    (enhance (id (cur task_data)) (content (cur task_data))
                       complete_task_data)))
              None)
           Calendar_rescheduled Calendar_failed w)
  ∨ (¬ (∃ complete_task_data s todos_list,
          get_task_details env (id (cur task_data)) = Returns complete_task_data
          ∧ has_manual_scheduled_label complete_task_data = false
          ∧ truthy_str (project_id (enrich_project_id env
              (enhance (id (cur task_data)) (content (cur task_data)) complete_task_data)))
            = true
          ∧ load_settings env = Returns s
          ∧ project_mappings s
            !! default "" (project_id (enrich_project_id env
                 (enhance (id (cur task_data)) (content (cur task_data)) complete_task_data)))
            = Some todos_list
          ∧ todos_list ≠ ""
          ∧ (should_auto_schedule_by_priority env
               (set_todos_list_override todos_list
                  (enrich_project_id env
                     (enhance (id (cur task_data)) (content (cur task_data))
                        complete_task_data)))
               todos_list).1 = true)
     ∧ quiet_at (handle_calendar_reschedule env task_data) w).
Proof.
  assert (Hleaf : ∀ action msg,
            quiet_at (try_except (bind (log_task_action action msg)
                                    (fun _ => ret (Some msg)))
                        (fun e => bind (log_task_action "failed" (Calendar_failed (exn_str e)))
                                    (fun _ => ret (Some (Calendar_failed (exn_str e)))))) w).
  { intros action msg. apply quiet_try; [apply quiet_log_ret|].
    intros e. apply quiet_log_ret. }
  unfold quiet_at, handle_calendar_reschedule.
  destruct (get_task_details env (id (cur task_data))) as [c|e] eqn:Hget.
  2:{ right. split; [by intros (? & ? & ? & ? & _)|]. destruct e; apply Hleaf. }
  rewrite manual_label_of_enhanced.
  destruct (has_manual_scheduled_label c) eqn:Hm.
  { right. split; [intros (? & ? & ? & ? & ? & _); simplify_eq; congruence|]. apply Hleaf. }
  destruct (truthy_str (project_id (enrich_project_id env
              (enhance (id (cur task_data)) (content (cur task_data)) c)))) eqn:Hp; simpl.
  2:{ right. split; [intros (? & ? & ? & ? & ? & ? & _); simplify_eq; congruence|].
      apply Hleaf. }
  unfold get_todos_list_from_project_id.
  destruct (load_settings env) as [s|e] eqn:Hs.
  2:{ right. split; [intros (? & ? & ? & ? & ? & ? & ? & _); simplify_eq|].
      unfold try_except, bind, lift. simpl. split; [done|].
      eexists. split; [done|]. by repeat constructor. }
  rewrite !bind_lift_returns.
  destruct (project_mappings s !! default "" (project_id (enrich_project_id env
              (enhance (id (cur task_data)) (content (cur task_data)) c))))
    as [todos_list|] eqn:Hmap; simpl.
  2:{ right. split; [intros (? & ? & ? & ? & ? & ? & ? & ? & _); simplify_eq|]. apply Hleaf. }
  destruct (String.eqb todos_list "") eqn:Hne; simpl.
  { apply String.eqb_eq in Hne as ->.
    right. split; [intros (? & ? & ? & ? & ? & ? & ? & ? & ? & _); simplify_eq|]. apply Hleaf. }
  apply String.eqb_neq in Hne.
  destruct (should_auto_schedule_by_priority env
              (set_todos_list_override todos_list
                 (enrich_project_id env
                    (enhance (id (cur task_data)) (content (cur task_data)) c)))
              todos_list).1 eqn:Hgate; simpl.
  2:{ right. split; [intros (? & ? & ? & ? & ? & ? & ? & ? & ? & ?); simplify_eq; congruence|].
      apply Hleaf. }
  left. exists c, s, todos_list. repeat (split; [done|]).
  match goal with |- try_except ?m ?h w = _ =>
    destruct (try_returns (agent_working (id (cur task_data))
                (bind (call_planner env (mkTaskData
                   (set_todos_list_override todos_list
                      (enrich_project_id env
                         (enhance (id (cur task_data)) (content (cur task_data)) c))) None))
                   (fun agent_result =>
                      bind (log_task_action "rescheduled" (Calendar_rescheduled agent_result))
                        (fun _ => ret (Some (Calendar_rescheduled agent_result))))))
                (fun e => bind (log_task_action "failed" (Calendar_failed (exn_str e)))
                            (fun _ => ret (Some (Calendar_failed (exn_str e))))) w) as [a Ha];
      [intros e w'; by eexists|]
  end.
  by apply try_except_returns with a.
Qed.

(** X28 (task_processor.py, [handle_calendar_reschedule]).  A calendar event
    reaches the scheduler only through every gate: the handler asks for the
    lock exactly when the task could be fetched from Todoist, the fetched
    task has no "manual scheduled" label, its project id (mapped to the new
    id when it is numeric and a mapping exists) is mapped by the settings to
    a list, and the task passes the priority gate of that list.  The
    planner, when it is called, gets the task as fetched from Todoist with
    the list set as override, not the payload of the event. *)
Theorem calendar_event_asks_for_the_lock_after_the_gates env task_data w evs :
  trace (handle_calendar_reschedule env task_data w).2 = trace w ++ evs →
  (reschedule_attempted (id (cur task_data)) evs
   ↔ ∃ complete_task_data s todos_list,
       get_task_details env (id (cur task_data)) = Returns complete_task_data
       ∧ has_manual_scheduled_label complete_task_data = false
       ∧ truthy_str (project_id (enrich_project_id env
           (enhance (id (cur task_data)) (content (cur task_data)) complete_task_data)))
         = true
       ∧ load_settings env = Returns s
       ∧ project_mappings s
         !! default "" (project_id (enrich_project_id env
              (enhance (id (cur task_data)) (content (cur task_data)) complete_task_data)))
         = Some todos_list
       ∧ todos_list ≠ ""
       ∧ (should_auto_schedule_by_priority env
            (set_todos_list_override todos_list
               (enrich_project_id env
                  (enhance (id (cur task_data)) (content (cur task_data))
                     complete_task_data)))
            todos_list).1 = true)
  ∧ (∀ planned,
       Planner_call planned ∈ evs →
       ∃ complete_task_data todos_list,
         get_task_details env (id (cur task_data)) = Returns complete_task_data
         ∧ planned
           = mkTaskData
               (set_todos_list_override todos_list
                  (enrich_project_id env
                     (enhance (id (cur task_data)) (content (cur task_data))
                        complete_task_data)))
               None).
Proof.
  intros Ht. destruct (calendar_cases env task_data w) as [Hyes|[Hno Hq]].
  - destruct Hyes as (c & s & todos_list & Hget & H1 & H2 & H3 & H4 & H5 & H6 & Heq).
    rewrite Heq in Ht. split.
    + split; [intros _; by exists c, s, todos_list|]. intros _.
      destruct (schedule_under_lock_trace env (id (cur task_data))
                  (mkTaskData
                     (set_todos_list_override todos_list
                        (enrich_project_id env
                           (enhance (id (cur task_data)) (content (cur task_data)) c)))
                     None)
                  Calendar_rescheduled Calendar_failed w) as (r & post & Ht').
      rewrite Ht in Ht'. apply app_inv_head in Ht' as ->. exists r. apply list_elem_of_here.
    + intros planned Hin. exists c, todos_list. split; [done|].
      by eapply schedule_under_lock_planned.
  - destruct (quiet_no_lock_request _ w evs (id (cur task_data)) Hq Ht) as [Hnl Hnp].
    split; [split; [done|]; intros H; by destruct Hno|].
    intros planned Hin. destruct Hnp. by exists planned.
Qed.

(** A calendar event for a task that Todoist returns with priority 4 in
    project "P1", while the payload of the event says priority 1, the guard
    idle: every gate is passed, the lock is asked for, and the planner gets
    the task as fetched, with "work" as its list. *)
Lemma calendar_event_asks_for_the_lock_after_the_gates_witness :
  reschedule_attempted (Some "T1")
    (trace (handle_calendar_reschedule known_task_env
              (mkTaskData (report_task "calendar:event_end" (Some 1) []) None)
              idle_world).2)
  ∧ ∃ complete_task_data todos_list,
      get_task_details known_task_env (Some "T1") = Returns complete_task_data
      ∧ mkTaskData
          (set_todos_list_override "work" (report_task "calendar:event_end" (Some 4) []))
          None
        = mkTaskData
            (set_todos_list_override todos_list
               (enrich_project_id known_task_env
                  (enhance (Some "T1") (Some "Write report") complete_task_data)))
            None.
Proof.
  destruct (calendar_event_asks_for_the_lock_after_the_gates known_task_env
              (mkTaskData (report_task "calendar:event_end" (Some 1) []) None) idle_world
              (trace (handle_calendar_reschedule known_task_env
                        (mkTaskData (report_task "calendar:event_end" (Some 1) []) None)
                        idle_world).2)) as [Hgates Hplanned]; [reflexivity|].
  split.
  - apply Hgates. exists (report_task "item:updated" (Some 4) []), work_settings, "work".
    split; [reflexivity|]. split; [reflexivity|]. split; [reflexivity|].
    split; [reflexivity|]. split; [reflexivity|]. split; [discriminate|].
    vm_compute. reflexivity.
  - apply Hplanned. apply list_elem_of_In. vm_compute. right. left. reflexivity.
Defined.

End task_processor_props.

(** * Further properties of the free-time computation *)
Module google_calendar_props.
Import google_calendar google_calendar_spec.

(** *** Merging is canonical *)

Lemma tuple_le_antisymm : AntiSymm (=) tuple_le.
Proof.
  intros [a1 a2] [b1 b2]. unfold tuple_le. simpl. intros H1 H2. f_equal; lia.
Qed.

Lemma merge_sort_permutation l l' :
  l' ≡ₚ l → merge_sort tuple_le l' = merge_sort tuple_le l.
Proof.
  intros Hp.
  apply (@StronglySorted_unique _ tuple_le tuple_le_antisymm).
  - apply (@StronglySorted_merge_sort _ tuple_le _ tuple_le_transitive tuple_le_total).
  - apply (@StronglySorted_merge_sort _ tuple_le _ tuple_le_transitive tuple_le_total).
  - by rewrite !merge_sort_Permutation.
Qed.

Lemma separated_starts_after l : ∀ p,
  separated (Some p) l → Forall (fun iv : interval => p < iv.1) l.
Proof.
  induction l as [|iv l IH]; intros p Hs; [done|].
  destruct Hs as (Hp & Hwf & Hs). simpl in Hp. constructor; [done|].
  eapply Forall_impl; [by apply IH|]. simpl. intros iv' H. lia.
Qed.

Lemma separated_sorted l : ∀ prev, separated prev l → StronglySorted tuple_le l.
Proof.
  induction l as [|iv l IH]; intros prev Hs; [constructor|].
  destruct Hs as (_ & Hwf & Hs). constructor; [by apply (IH (Some iv.2))|].
  eapply Forall_impl; [by apply separated_starts_after|].
  simpl. intros iv' H. left. lia.
Qed.

Lemma merge_sort_sorted l : StronglySorted tuple_le l → merge_sort tuple_le l = l.
Proof.
  intros Hs. apply (@StronglySorted_unique _ tuple_le tuple_le_antisymm); [|done|].
  - apply (@StronglySorted_merge_sort _ tuple_le _ tuple_le_transitive tuple_le_total).
  - apply merge_sort_Permutation.
Qed.

Lemma merge_from_separated_id rest : ∀ last : interval,
  separated (Some last.2) rest → merge_from last rest = last :: rest.
Proof.
  induction rest as [|iv rest IH]; intros last Hs; simpl; [done|].
  destruct Hs as (Hp & Hwf & Hs). simpl in Hp.
  rewrite bool_decide_eq_false_2 by lia. by rewrite IH.
Qed.

(** X17 (google_calendar.py, [get_free_intervals]: the sort and the merging
    loop).  The merged busy list does not depend on the order in which the
    accounts' events arrive, and it holds the same busy instants as the
    events.  For events that do not end before they start, the merged
    intervals are in chronological order with a gap between neighbours, and
    merging them again changes nothing. *)
Theorem merged_busy_is_canonical (busy_intervals : list interval) :
  (∀ fetched, fetched ≡ₚ busy_intervals → merge_busy fetched = merge_busy busy_intervals)
  ∧ (∀ t, covered t (merge_busy busy_intervals) ↔ covered t busy_intervals)
  ∧ (Forall (fun iv : interval => iv.1 ≤ iv.2) busy_intervals →
     separated None (merge_busy busy_intervals)
     ∧ merge_busy (merge_busy busy_intervals) = merge_busy busy_intervals).
Proof.
  split; [|split].
  - intros fetched Hp. unfold merge_busy. by rewrite (merge_sort_permutation _ _ Hp).
  - intros t. apply merge_busy_covers.
  - intros Hwf. pose proof (merge_busy_separated _ Hwf) as Hs. split; [done|].
    rewrite (merge_busy_unfold (merge_busy busy_intervals)).
    rewrite merge_sort_sorted by (by eapply separated_sorted).
    destruct (merge_busy busy_intervals) as [|first rest]; [done|].
    destruct Hs as (_ & _ & Hs). by apply merge_from_separated_id.
Qed.

Lemma merged_busy_is_canonical_witness :
  separated None (merge_busy [(570, 660); (540, 600); (700, 710)])
  ∧ merge_busy (merge_busy [(570, 660); (540, 600); (700, 710)])
    = merge_busy [(570, 660); (540, 600); (700, 710)].
Proof.
  apply (merged_busy_is_canonical [(570, 660); (540, 600); (700, 710)]).
  repeat constructor; simpl; lia.
Defined.

(** *** Dropping the past *)

Lemma future_interval_covers current_time (iv : interval) t :
  covered t (if bool_decide (iv.2 ≤ current_time) then []
             else
               let start_dt := if bool_decide (iv.1 < current_time) then current_time
                               else iv.1 in
               if bool_decide (start_dt < iv.2) then [(start_dt, iv.2)] else [])
  ↔ iv.1 ≤ t < iv.2 ∧ current_time ≤ t.
Proof.
  simpl. repeat case_bool_decide;
    rewrite ?covered_singleton; simpl;
    try (split; [intros Hc; by apply covered_nil in Hc | intros ?; exfalso; lia]); lia.
Qed.

Lemma future_kept_shape current_time free_intervals :
  Forall (fun kept : interval =>
            current_time ≤ kept.1 ∧ kept.1 < kept.2
            ∧ ∃ iv : interval, iv ∈ free_intervals ∧ iv.1 ≤ kept.1 ∧ kept.2 = iv.2)
    (future_intervals current_time free_intervals).
Proof.
  unfold future_intervals.
  induction free_intervals as [|iv l IH]; simpl; [done|].
  apply Forall_app. split.
  - repeat case_bool_decide; try done; constructor; try done; simpl;
      (split; [lia|]); (split; [lia|]); exists iv;
      (split; [apply list_elem_of_here | lia]).
  - eapply Forall_impl; [exact IH|]. simpl. intros kept (H1 & H2 & iv' & Hin & H3).
    split; [done|]. split; [done|]. exists iv'. split; [by apply list_elem_of_further | done].
Qed.

(** X18 (google_calendar.py, [get_filtered_free_intervals_for_list]: "Filter
    out past intervals").  Dropping the past keeps exactly the free instants
    that are not before the current time.  Every interval kept starts at or
    after the current time, is not empty, and is the end part of one of the
    free intervals; free intervals that lie in the future and are not empty
    pass unchanged. *)
Theorem future_intervals_contract (current_time : datetime) (free_intervals : list interval) :
  (∀ t, covered t (future_intervals current_time free_intervals)
        ↔ covered t free_intervals ∧ current_time ≤ t)
  ∧ Forall (fun kept : interval =>
              current_time ≤ kept.1 ∧ kept.1 < kept.2
              ∧ ∃ iv : interval, iv ∈ free_intervals ∧ iv.1 ≤ kept.1 ∧ kept.2 = iv.2)
      (future_intervals current_time free_intervals)
  ∧ (Forall (fun iv : interval => current_time ≤ iv.1 ∧ iv.1 < iv.2) free_intervals →
     future_intervals current_time free_intervals = free_intervals).
Proof.
  unfold future_intervals. split; [|split].
  - intros t. rewrite covered_flat_map. split.
    + intros (iv & Hin & Hc). apply future_interval_covers in Hc as [Ht Hn].
      split; [|done]. exists iv. split; [done | by apply contains_spec].
    + intros [(iv & Hin & Hc) Hn]. exists iv. split; [done|].
      apply future_interval_covers. split; [by apply contains_spec | done].
  - induction free_intervals as [|iv l IH]; simpl; [done|].
    apply Forall_app. split.
    + repeat case_bool_decide; try done; constructor; try done; simpl;
        (split; [lia|]); (split; [lia|]); exists iv;
        (split; [apply list_elem_of_here | lia]).
    + eapply Forall_impl; [exact IH|]. simpl. intros kept (H1 & H2 & iv' & Hin & H3).
      split; [done|]. split; [done|]. exists iv'. split; [by apply list_elem_of_further | done].
  - induction 1 as [|iv l [Hn Hp] _ IH]; simpl; [done|].
    rewrite IH. rewrite bool_decide_eq_false_2 by lia.
    rewrite (bool_decide_eq_false_2 (iv.1 < current_time)) by lia.
    rewrite bool_decide_eq_true_2 by done. simpl. by destruct iv.
Qed.

Lemma future_intervals_contract_witness :
  future_intervals 100 [(120, 180); (200, 260)] = [(120, 180); (200, 260)].
Proof.
  apply (future_intervals_contract 100 [(120, 180); (200, 260)]).
  repeat constructor; simpl; lia.
Defined.

(** *** The slots that are offered *)

Lemma free_iff_not_busy interval_start interval_end busy_intervals t :
  Forall (fun iv : interval => iv.1 ≤ iv.2) busy_intervals →
  interval_start ≤ t < interval_end →
  covered t (get_free_intervals interval_start interval_end busy_intervals)
  ↔ ¬ covered t busy_intervals.
Proof.
  intros Hwf [Hlo Hhi]. pose proof (merge_busy_separated _ Hwf) as Hs.
  unfold get_free_intervals. rewrite subtract_busy_walk.
  rewrite <- (merge_busy_covers t busy_intervals), !covered_count.
  destruct (walk_gaps_tiles _ None interval_start interval_end t Hs Hlo) as [_ Heq].
  specialize (Heq Hhi). lia.
Qed.

Lemma future_intervals_covers current_time free_intervals t :
  covered t (future_intervals current_time free_intervals)
  ↔ covered t free_intervals ∧ current_time ≤ t.
Proof.
  unfold future_intervals. rewrite covered_flat_map. split.
  - intros (iv & Hin & Hc). apply future_interval_covers in Hc as [Ht Hn].
    split; [|done]. exists iv. split; [done | by apply contains_spec].
  - intros [(iv & Hin & Hc) Hn]. exists iv. split; [done|].
    apply future_interval_covers. split; [by apply contains_spec | done].
Qed.

(** The free intervals that are left after the past is dropped: none is
    empty, none starts before the requested range or before the current
    time. *)
Lemma future_free_shape current_time interval_start interval_end busy_intervals :
  Forall (fun iv : interval => iv.1 < iv.2 ∧ interval_start ≤ iv.1 ∧ current_time ≤ iv.1)
    (future_intervals current_time
       (get_free_intervals interval_start interval_end busy_intervals)).
Proof.
  assert (Hfree : Forall (fun iv : interval => iv.1 < iv.2 ∧ interval_start ≤ iv.1)
                    (get_free_intervals interval_start interval_end busy_intervals)).
  { unfold get_free_intervals. rewrite subtract_busy_walk. apply Forall_and. split.
    - apply walk_gaps_positive.
    - apply walk_gaps_from. }
  pose proof (future_kept_shape current_time
                (get_free_intervals interval_start interval_end busy_intervals)) as Hparts.
  rewrite Forall_forall in Hparts, Hfree |- *. intros kept Hk.
  destruct (Hparts kept Hk) as (H1 & H2 & iv & Hin & H3 & H4).
  destruct (Hfree iv Hin). lia.
Qed.

(** X19 (google_calendar.py, [get_filtered_free_intervals_for_list] with
    [get_free_intervals]).  What the planner is offered, for busy events
    that do not end before they start and Activity Hours that [strptime]
    accepts.  The slots are filtered by Activity Hours exactly when there is
    no override and the list has Activity Hours with at least one day
    enabled.  An instant of the requested range, up to which the UTC offset
    of the zone has not changed since the start of the range, is offered
    exactly when it is not before the current time, no busy event holds it,
    and, when the slots are filtered, its local time lies in the window of
    its weekday. *)
Theorem offered_slots_contract
    (utcoffset : timezone)
    (configured_activity_hours : gmap string (gmap string day_hours))
    (current_time interval_start interval_end : datetime) (busy_intervals : list interval)
    (todos_list : string) (override_activity_hours : bool) :
  Forall (fun iv : interval => iv.1 ≤ iv.2) busy_intervals →
  (∀ activity_hours day dh,
     configured_activity_hours !! todos_list = Some activity_hours →
     activity_hours !! day = Some dh →
     valid_time (dh_start dh) ∧ valid_time (dh_end dh)) →
  let offered :=
    get_filtered_free_intervals_for_list utcoffset configured_activity_hours current_time
      interval_start interval_end busy_intervals todos_list override_activity_hours in
  (offered.2 = Filtered
   ↔ override_activity_hours = false
     ∧ ∃ activity_hours, configured_activity_hours !! todos_list = Some activity_hours
                         ∧ has_any_activity_hours activity_hours = true)
  ∧ (∀ t, interval_start ≤ t < interval_end →
       (∀ u, interval_start ≤ u ≤ t → utcoffset u = utcoffset t) →
       covered t offered.1
       ↔ current_time ≤ t
         ∧ ¬ covered t busy_intervals
         ∧ (offered.2 = Filtered →
            ∃ activity_hours, configured_activity_hours !! todos_list = Some activity_hours
                              ∧ in_activity_hours activity_hours (local_time utcoffset t))).
Proof.
  intros Hwf Hvalid offered. subst offered.
  unfold get_filtered_free_intervals_for_list, intervals_to_format.
  destruct override_activity_hours.
  { simpl. split; [split; [done | by intros [? _]]|].
    intros t Ht _. rewrite future_intervals_covers, free_iff_not_busy by done.
    split; [by intros [? ?] | by intros (? & ? & _)]. }
  destruct (configured_activity_hours !! todos_list) as [activity_hours|] eqn:Hcfg.
  2:{ simpl. split; [split; [done | by intros (_ & ? & ? & _)]|].
      intros t Ht _. rewrite future_intervals_covers, free_iff_not_busy by done.
      split; [by intros [? ?] | by intros (? & ? & _)]. }
  destruct (has_any_activity_hours activity_hours) eqn:Hany; simpl.
  - split; [split; [intros _; split; [done|]; by exists activity_hours | done]|].
    intros t Ht Hfixed.
    pose proof (future_free_shape current_time interval_start interval_end busy_intervals)
      as Hshape.
    rewrite Forall_forall in Hshape.
    rewrite filter_by_activity_hours_covers by (intros day dh; by apply Hvalid).
    unfold local_time. split.
    + intros (iv & Hin & Hiv & Hah).
      assert (Hc : covered t (future_intervals current_time
                     (get_free_intervals interval_start interval_end busy_intervals))).
      { exists iv. split; [done | by apply contains_spec]. }
      rewrite future_intervals_covers, free_iff_not_busy in Hc by done.
      destruct Hc as [Hfree Hnow]. split; [done|]. split; [done|].
      intros _. exists activity_hours. split; [done|].
      destruct (Hshape iv Hin) as (_ & Hlo & _).
      rewrite <- (Hfixed iv.1) by lia. done.
    + intros (Hnow & Hfree & Hah).
      destruct (Hah eq_refl) as (ah & [= <-] & Hin_hours).
      assert (Hc : covered t (future_intervals current_time
                     (get_free_intervals interval_start interval_end busy_intervals))).
      { rewrite future_intervals_covers, free_iff_not_busy by done. done. }
      destruct Hc as (iv & Hin & Hc). apply contains_spec in Hc.
      exists iv. split; [done|]. split; [done|].
      destruct (Hshape iv Hin) as (_ & Hlo & _).
      rewrite (Hfixed iv.1) by lia. done.
  - split; [split; [done|]; intros (_ & ah & [= <-] & ?); congruence|].
    intros t Ht _. rewrite future_intervals_covers, free_iff_not_busy by done.
    split; [by intros [? ?] | by intros (? & ? & _)].
Qed.

(** Asia/Jerusalem, Monday 24 March 2025, with Monday 09:00-17:00 as the
    Activity Hours of the list: of a range from 07:00 to 20:00 with a busy
    event from 11:00 to 12:00, asked for at 06:00, the instant 10:00 is
    offered. *)
Lemma offered_slots_contract_witness :
  covered 1742803200000000
    (get_filtered_free_intervals_for_list jerusalem_2025
       {["work" := {["monday" := mkDayHours (mkTime 9 0) (mkTime 17 0)]}]}
       1742788800000000 1742792400000000 1742839200000000
       [(1742806800000000, 1742810400000000)] "work" false).1.
Proof.
  destruct (offered_slots_contract jerusalem_2025
              {["work" := {["monday" := mkDayHours (mkTime 9 0) (mkTime 17 0)]}]}
              1742788800000000 1742792400000000 1742839200000000
              [(1742806800000000, 1742810400000000)] "work" false) as [_ Hoffered].
  - repeat constructor; simpl; lia.
  - intros activity_hours day dh Hcfg Hday.
    rewrite lookup_singleton_eq in Hcfg. injection Hcfg as <-.
    apply lookup_singleton_Some in Hday as [_ <-]. unfold valid_time. simpl. lia.
  - apply (Hoffered 1742803200000000).
    + lia.
    + intros u Hu. unfold jerusalem_2025, dst_start_2025.
      by rewrite !bool_decide_eq_true_2 by lia.
    + split; [lia|]. split.
      * intros (iv & Hin & Hc). apply list_elem_of_singleton in Hin as ->.
        apply contains_spec in Hc. simpl in Hc. lia.
      * intros _. exists {["monday" := mkDayHours (mkTime 9 0) (mkTime 17 0)]}.
        split; [apply lookup_singleton_eq|].
        exists (mkDayHours (mkTime 9 0) (mkTime 17 0)).
        split; vm_compute; [reflexivity | split; congruence].
Defined.

(** *** Chronological order *)

Lemma sorted_flat_map (f : interval → list interval) (l : list interval) :
  StronglySorted (fun a b : interval => a.2 ≤ b.1) l →
  (∀ iv, iv ∈ l →
         StronglySorted (fun a b : interval => a.2 ≤ b.1) (f iv)
         ∧ Forall (fun p : interval => iv.1 ≤ p.1 ∧ p.2 ≤ iv.2) (f iv)) →
  StronglySorted (fun a b : interval => a.2 ≤ b.1) (flat_map f l).
Proof.
  induction 1 as [|iv l Hs IH Hhd]; intros Hf; simpl; [constructor|].
  apply StronglySorted_app_2.
  - intros a b Ha Hb. apply list_elem_of_In, in_flat_map in Hb as (iv' & Hin' & Hb).
    apply list_elem_of_In in Hin', Hb.
    destruct (Hf iv) as [_ Hiv]; [apply list_elem_of_here|].
    destruct (Hf iv') as [_ Hiv']; [by apply list_elem_of_further|].
    rewrite Forall_forall in Hiv, Hiv', Hhd.
    specialize (Hiv a Ha). specialize (Hiv' b Hb). specialize (Hhd iv' Hin'). lia.
  - apply Hf, list_elem_of_here.
  - apply IH. intros iv' Hin'. by apply Hf, list_elem_of_further.
Qed.

Lemma walk_gaps_sorted busy : ∀ cursor interval_end,
  Forall (fun iv : interval => iv.1 ≤ iv.2) busy →
  StronglySorted (fun a b : interval => a.2 ≤ b.1) (walk_gaps cursor interval_end busy).
Proof.
  induction busy as [|b busy IH]; intros cursor interval_end Hwf; simpl.
  - case_bool_decide; repeat constructor.
  - inversion Hwf; subst. apply StronglySorted_app_2; [|case_bool_decide; repeat constructor|by apply IH].
    intros a c Ha Hc. case_bool_decide; [|by apply not_elem_of_nil in Ha].
    apply list_elem_of_singleton in Ha as ->. simpl.
    pose proof (walk_gaps_from busy (Z.max cursor b.2) interval_end) as Hfrom.
    rewrite Forall_forall in Hfrom. specialize (Hfrom c Hc). lia.
Qed.

Lemma sorted_shift offset (l : list interval) :
  StronglySorted (fun a b : interval => a.2 ≤ b.1) l →
  StronglySorted (fun a b : interval => a.2 ≤ b.1)
    ((fun seg : interval => (seg.1 - offset, seg.2 - offset)) <$> l).
Proof.
  induction 1 as [|iv l Hs IH Hhd]; simpl; constructor; [done|].
  apply Forall_fmap. eapply Forall_impl; [exact Hhd|]. simpl. intros b Hb. lia.
Qed.

Lemma split_by_days_sorted activity_hours fuel : ∀ current_dt end_dt,
  StronglySorted (fun a b : interval => a.2 ≤ b.1)
    (split_by_days fuel activity_hours current_dt end_dt).
Proof.
  induction fuel as [|fuel IH]; intros current_dt end_dt; simpl; [constructor|].
  case_bool_decide; [|constructor]. apply StronglySorted_app_2; [| |apply IH].
  - intros a b Ha Hb.
    pose proof (split_by_days_shape activity_hours fuel (next_midnight current_dt)
                  (next_midnight current_dt) end_dt (Z.le_refl _)) as Hrest.
    rewrite Forall_forall in Hrest. destruct (Hrest b Hb) as (_ & Hb1 & _).
    revert Ha. unfold day_segment.
    destruct (activity_hours !! day_name current_dt) as [dh|];
      [|intros Ha; by apply not_elem_of_nil in Ha].
    case_bool_decide; [|intros Ha; by apply not_elem_of_nil in Ha].
    intros ->%list_elem_of_singleton. simpl.
    rewrite next_midnight_eq in Hb1. unfold end_of_day in *. lia.
  - unfold day_segment. destruct (activity_hours !! day_name current_dt) as [dh|];
      [|constructor].
    case_bool_decide; repeat constructor.
Qed.

(** X20 (google_calendar.py, [get_free_intervals] and
    [get_filtered_free_intervals_for_list]).  For busy events that do not
    end before they start, the offered slots come in chronological order
    and do not overlap: each one ends before or when the next one starts.
    None is empty, and none starts before the requested range or before
    the current time.  This holds whatever the UTC offsets of the zone. *)
Theorem offered_slots_are_chronological
    (utcoffset : timezone)
    (configured_activity_hours : gmap string (gmap string day_hours))
    (current_time interval_start interval_end : datetime) (busy_intervals : list interval)
    (todos_list : string) (override_activity_hours : bool) :
  Forall (fun iv : interval => iv.1 ≤ iv.2) busy_intervals →
  let offered :=
    (get_filtered_free_intervals_for_list utcoffset configured_activity_hours current_time
       interval_start interval_end busy_intervals todos_list override_activity_hours).1 in
  StronglySorted (fun a b : interval => a.2 ≤ b.1) offered
  ∧ Forall (fun iv : interval =>
              iv.1 < iv.2 ∧ interval_start ≤ iv.1 ∧ current_time ≤ iv.1) offered.
Proof.
  intros Hwf offered. subst offered.
  pose proof (merge_busy_separated _ Hwf) as Hsep.
  apply separated_ordered in Hsep.
  assert (Hfree : StronglySorted (fun a b : interval => a.2 ≤ b.1)
                    (get_free_intervals interval_start interval_end busy_intervals)).
  { unfold get_free_intervals. rewrite subtract_busy_walk. by apply walk_gaps_sorted. }
  pose proof (future_free_shape current_time interval_start interval_end busy_intervals)
    as Hfut'.
  set (free := get_free_intervals interval_start interval_end busy_intervals) in *.
  assert (Hfut : StronglySorted (fun a b : interval => a.2 ≤ b.1)
                   (future_intervals current_time free)).
  { apply sorted_flat_map; [done|]. intros iv _. split.
    - repeat (case_bool_decide; simpl); repeat constructor.
    - repeat (case_bool_decide; simpl); repeat constructor; simpl; lia. }
  unfold get_filtered_free_intervals_for_list, intervals_to_format. fold free.
  destruct override_activity_hours; [done|].
  destruct (configured_activity_hours !! todos_list) as [activity_hours|]; [|done].
  destruct (has_any_activity_hours activity_hours); [|done]. simpl. split.
  - unfold filter_by_activity_hours. apply sorted_flat_map; [done|].
    intros iv _. split.
    + unfold filter_interval. cbv zeta. apply sorted_shift, split_by_days_sorted.
    + eapply Forall_impl; [apply filter_interval_shape|].
      simpl. intros seg Hseg. lia.
  - pose proof (filter_by_activity_hours_shape utcoffset activity_hours
                  (future_intervals current_time free)) as Hshape.
    rewrite Forall_forall in Hshape, Hfut' |- *. intros seg Hseg.
    destruct (Hshape seg Hseg) as (H1 & iv & Hin & H2 & H3 & _).
    destruct (Hfut' iv Hin) as (? & ? & ?). lia.
Qed.

Lemma offered_slots_are_chronological_witness :
  StronglySorted (fun a b : interval => a.2 ≤ b.1)
    (get_filtered_free_intervals_for_list jerusalem_2025 ∅ 10 0 100 [(20, 30); (25, 40)]
       "work" false).1.
Proof.
  apply (offered_slots_are_chronological jerusalem_2025 ∅ 10 0 100 [(20, 30); (25, 40)]
           "work" false).
  repeat constructor; simpl; lia.
Defined.

End google_calendar_props.

(** * Properties of the webhook in front of the router *)
Module webhook_server_props.
Import agent_lock agent_lock_spec agent_lock_props task_processor task_processor_spec
  task_processor_props webhook_server.

Lemma set_lock_same w : set_lock (lock w) w = w.
Proof. by destruct w. Qed.

Lemma busy_true_unchanged now g :
  exclusive g → (is_agent_working now g).1 = true →
  (is_agent_working now g).2 = g ∧ (in_phase g Working ∨ in_phase g Cooldown).
Proof.
  unfold exclusive, is_agent_working.
  destruct (_is_agent_working g) eqn:Ew, (_is_cooldown g) eqn:Ec; simpl; intros He; try done.
  - destruct (elapsed_exceeds _ _ _); simpl; [done|]. intros _. split; [done|]. by left.
  - destruct (elapsed_exceeds _ _ _); simpl; [done|]. intros _. split; [done|]. by right.
Qed.

Lemma busy_false_idle now g :
  exclusive g → (is_agent_working now g).1 = false →
  in_phase (is_agent_working now g).2 Idle.
Proof.
  unfold exclusive, is_agent_working.
  destruct (_is_agent_working g) eqn:Ew, (_is_cooldown g) eqn:Ec; simpl; intros He; try done.
  - by destruct (elapsed_exceeds _ _ _).
  - by destruct (elapsed_exceeds _ _ _).
Qed.

Lemma router_returns env task_data w : ∃ result, (router env task_data w).1 = Returns result.
Proof.
  unfold router. destruct (negb _); [by eexists|].
  unfold bind at 1. simpl. apply try_returns. intros e w'. by eexists.
Qed.

Lemma truthy_str_some (s : string) : s ≠ "" → truthy_str (Some s) = true.
Proof. intros H. simpl. by rewrite (proj2 (String.eqb_neq s "") H). Qed.

(** X21 (webhook_server.py, [webhook_receiver]).  While the guard is busy a
    Todoist webhook is turned away, not queued: the answer is 202 "blocked",
    the router is not called, and the world of the handlers (guard, trace)
    is as before; the one effect is a WEBHOOK_BLOCKED entry in the recent
    events.  In cooldown the reason is "agent_cooldown" with a retry after
    5 seconds and a remaining time that is not negative; while the agent
    works it is "agent_busy" with a retry after 30 seconds. *)
Theorem busy_guard_blocks_the_webhook env data sv event_name task :
  guard_ok (lock (state sv)) →
  data_event_name data = Some event_name → event_name ≠ "" →
  event_data data = Event_data task →
  (is_agent_working (now (state sv)) (lock (state sv))).1 = true →
  let lock_status := get_status (now (state sv)) (lock (state sv)) in
  ∃ blocked_msg reason retry,
    webhook_receiver env data sv
    = (Blocked blocked_msg reason lock_status retry,
       {| state := state sv;
          recent_events :=
            save_to_recent_events
              (WEBHOOK_BLOCKED (now (state sv)) (id task) (content task) reason lock_status)
              (recent_events sv) |})
    ∧ ((in_phase (lock (state sv)) Cooldown ∧ reason = "agent_cooldown" ∧ retry = 5
        ∧ ∃ remaining,
            blocked_msg = Cooldown_active (_current_task_id (lock (state sv))) (id task) remaining
            ∧ (0 <= remaining)%Q)
       ∨ (in_phase (lock (state sv)) Working ∧ reason = "agent_busy" ∧ retry = 30
          ∧ blocked_msg = Busy_working (_current_task_id (lock (state sv))) (id task))).
Proof.
  intros Hg Hname Hne Hdata Hbusy lock_status. subst lock_status.
  destruct (busy_true_unchanged _ _ (ok_exclusive _ Hg) Hbusy) as [Hsame Hphase].
  unfold webhook_receiver. rewrite Hname, (truthy_str_some _ Hne), Hdata. simpl.
  rewrite Hbusy, Hsame. simpl. rewrite set_lock_same.
  destruct Hphase as [[Ew Ec]|[Ew Ec]]; rewrite Ec.
  - eexists _, _, _. split; [reflexivity|]. right. done.
  - destruct (ok_cooldown _ Hg Ec) as (t & Ht & Hnz).
    rewrite Ht. simpl. rewrite (proj2 (Qeq_bool_false t) Hnz). simpl.
    eexists _, _, _. split; [reflexivity|]. left. split; [done|]. split; [done|].
    split; [done|]. eexists. split; [done|].
    rewrite (ok_cooldown_seconds _ Hg).
    by destruct (Qmax_bounds 0 (3 - (now (state sv) - t))) as [H0 H1].
Qed.

(** One second after task T1 was released, a webhook for a new task. *)
Lemma busy_guard_blocks_the_webhook_witness :
  status_code
    (webhook_receiver work_env (added_payload (Some 4))
       {| state := {| lock := run [Acquire 1000 (Some "T1"); Release 1020 (Some "T1")] init;
                      now := 1021; trace := [] |};
          recent_events := [] |}).1 = 202.
Proof.
  destruct (busy_guard_blocks_the_webhook work_env (added_payload (Some 4))
              {| state := {| lock := run [Acquire 1000 (Some "T1"); Release 1020 (Some "T1")] init;
                             now := 1021; trace := [] |};
                 recent_events := [] |}
              "item:added" (report_task "item:added" (Some 4) []))
    as (blocked_msg & reason & retry & Heq & _).
  - apply reachable_ok. exists [Acquire 1000 (Some "T1"); Release 1020 (Some "T1")].
    split; [|reflexivity]. repeat constructor.
  - reflexivity.
  - discriminate.
  - reflexivity.
  - reflexivity.
  - rewrite Heq. reflexivity.
Defined.

(** X22 (webhook_server.py, [webhook_receiver]).  With the guard free, a
    well-formed webhook goes to the router: the answer is 200 with the
    router's result inside, whatever status that result has, and the time
    that the router took; the recent events are not touched.  The router
    starts from an idle guard: a stale lock or cooldown was cleared by the
    check. *)
Theorem free_guard_passes_the_webhook_to_the_router env data sv event_name task :
  exclusive (lock (state sv)) →
  data_event_name data = Some event_name → event_name ≠ "" →
  event_data data = Event_data task →
  (is_agent_working (now (state sv)) (lock (state sv))).1 = false →
  let task_data := extract_task_data task event_name (data_old_item data) in
  let w := set_lock (is_agent_working (now (state sv)) (lock (state sv))).2 (state sv) in
  in_phase (lock w) Idle
  ∧ ∃ result,
      (router env task_data w).1 = Returns result
      ∧ webhook_receiver env data sv
        = (Processed event_name (id task) result
             (now (router env task_data w).2 - now (state sv))%Q,
           {| state := (router env task_data w).2; recent_events := recent_events sv |}).
Proof.
  intros Hex Hname Hne Hdata Hfree task_data w.
  split; [by apply busy_false_idle|].
  destruct (router_returns env task_data w) as [result Hr]. exists result. split; [done|].
  unfold webhook_receiver. rewrite Hname, (truthy_str_some _ Hne), Hdata. simpl.
  rewrite Hfree. fold task_data. fold w.
  destruct (router env task_data w) as [o w'] eqn:Hrun. simpl in *. by subst o.
Qed.

Lemma free_guard_passes_the_webhook_to_the_router_witness :
  status_code
    (webhook_receiver broken_env (added_payload (Some 4))
       {| state := idle_world; recent_events := [] |}).1 = 200.
Proof.
  destruct (free_guard_passes_the_webhook_to_the_router broken_env (added_payload (Some 4))
              {| state := idle_world; recent_events := [] |}
              "item:added" (report_task "item:added" (Some 4) []))
    as (_ & result & _ & Heq).
  - reflexivity.
  - reflexivity.
  - discriminate.
  - reflexivity.
  - reflexivity.
  - rewrite Heq. reflexivity.
Defined.

Ltac status_table :=
  repeat split; try naive_solver;
  try (intros;
       repeat match goal with
              | H : ∃ _, _ |- _ => destruct H
              | H : _ ∧ _ |- _ => destruct H
              | H : _ ∨ _ |- _ => destruct H
              end;
       simplify_eq; congruence).

(** X23 (webhook_server.py, [webhook_receiver]).  The answers of the
    Todoist endpoint, for a guard that the process can be in and a request
    whose body is text.  When the body is a JSON object (with an event name
    that is a string or missing, and "event_data_extra" an object or
    missing), the status code is
    - 400 exactly when the event name or the event data is missing or falsy;
    - 500 exactly when the event name is there and the event data is truthy
      but not a dict, a list for one: [extract_task_data] raises on it;
    - 202 exactly when the event name is there, the event data is a dict and
      the guard is busy;
    - 200 exactly when they are there and the guard is free.
    A body that is not JSON is answered with 400.  A 400 or a 500 leaves the
    guard and the trace as they are and saves one WEBHOOK_ERROR entry.  A
    body that is JSON but not an object makes the handler raise, and nothing
    is saved. *)
Theorem webhook_status_codes env body sv :
  guard_ok (lock (state sv)) →
  let answer := post_webhook_todoist env body sv in
  let busy := (is_agent_working (now (state sv)) (lock (state sv))).1 in
  match answer.1 with
  | Raises e =>
      (∃ type_name, body = Not_an_object type_name ∧ e = no_attribute_get type_name)
      ∧ answer.2 = sv
  | Returns r =>
      (∀ type_name, body ≠ Not_an_object type_name)
      ∧ (status_code r = 400
         ↔ (∃ error, body = Invalid_json error)
           ∨ ∃ data, body = Object data
               ∧ (truthy_str (data_event_name data) = false
                  ∨ event_data data = No_event_data))
      ∧ (status_code r = 500
         ↔ ∃ data type_name, body = Object data
             ∧ truthy_str (data_event_name data) = true
             ∧ event_data data = Not_a_dict type_name)
      ∧ (status_code r = 202
         ↔ ∃ data task, body = Object data
             ∧ truthy_str (data_event_name data) = true
             ∧ event_data data = Event_data task
             ∧ busy = true)
      ∧ (status_code r = 200
         ↔ ∃ data task, body = Object data
             ∧ truthy_str (data_event_name data) = true
             ∧ event_data data = Event_data task
             ∧ busy = false)
      ∧ (status_code r = 400 ∨ status_code r = 500 →
         state answer.2 = state sv
         ∧ ∃ error, recent_events answer.2
                    = save_to_recent_events (WEBHOOK_ERROR (now (state sv)) None None error)
                        (recent_events sv))
  end.
Proof.
  intros Hg answer busy. subst answer busy.
  destruct body as [error|type_name|data]; simpl.
  - split; [done|]. status_table.
  - split; [by exists type_name | done].
  - split; [done|]. unfold webhook_receiver.
    destruct (truthy_str (data_event_name data)) eqn:Hname; simpl.
    2:{ status_table. }
    destruct (event_data data) as [|task|type_name] eqn:Hdata; simpl.
    { status_table. }
    2:{ status_table. }
    destruct (is_agent_working (now (state sv)) (lock (state sv))) as [b l] eqn:Hq. simpl.
    destruct b.
    + assert (Hbusy : (is_agent_working (now (state sv)) (lock (state sv))).1 = true)
        by (by rewrite Hq).
      destruct (busy_true_unchanged _ _ (ok_exclusive _ Hg) Hbusy) as [Hsame Hphase].
      rewrite Hq in Hsame. simpl in Hsame. subst l.
      destruct Hphase as [[Ew Ec]|[Ew Ec]]; rewrite Ec.
      * simpl. status_table.
      * destruct (ok_cooldown _ Hg Ec) as (t & Ht & Hnz).
        rewrite Ht. simpl. rewrite (proj2 (Qeq_bool_false t) Hnz). simpl.
        status_table.
    + destruct (router_returns env
                  (extract_task_data task (default "" (data_event_name data))
                     (data_old_item data))
                  (set_lock l (state sv))) as [result Hr].
      destruct (router env _ _) as [o w'] eqn:Hrun. simpl in Hr. subst o. simpl.
      status_table.
Qed.

(** A webhook whose "event_data" is a list: the answer is 500. *)
Lemma webhook_status_codes_witness :
  ∃ r, (post_webhook_todoist work_env
          (Object {| data_event_name := Some "item:added";
                     event_data := Not_a_dict "list";
                     data_old_item := None |})
          {| state := idle_world; recent_events := [] |}).1 = Returns r
       ∧ status_code r = 500.
Proof.
  pose proof (webhook_status_codes work_env
                (Object {| data_event_name := Some "item:added";
                           event_data := Not_a_dict "list";
                           data_old_item := None |})
                {| state := idle_world; recent_events := [] |} init_ok) as Hcodes.
  simpl in Hcodes. destruct Hcodes as (_ & _ & H500 & _).
  eexists. split; [reflexivity|]. apply H500. eexists _, _. done.
Defined.

(** The three malformed requests, answered: text that is not JSON, a JSON
    list as the body, and an object whose "event_data" is a list. *)
Example malformed_requests :
  (post_webhook_todoist work_env (Invalid_json "Expecting value: line 1 column 1 (char 0)")
     {| state := idle_world; recent_events := [] |})
  = (Returns (Json_error 400
                "Invalid JSON format: Expecting value: line 1 column 1 (char 0)"),
     {| state := idle_world;
        recent_events :=
          [WEBHOOK_ERROR 1000 None None
             "Invalid JSON format: Expecting value: line 1 column 1 (char 0)"] |})
  ∧ (post_webhook_todoist work_env (Not_an_object "list")
       {| state := idle_world; recent_events := [] |})
    = (Raises (AttributeError "'list' object has no attribute 'get'"),
       {| state := idle_world; recent_events := [] |})
  ∧ (post_webhook_todoist work_env
       (Object {| data_event_name := Some "item:added";
                  event_data := Not_a_dict "list";
                  data_old_item := None |})
       {| state := idle_world; recent_events := [] |})
    = (Returns (Json_error 500
                  "Processing error: 'list' object has no attribute 'get'"),
       {| state := idle_world;
          recent_events :=
            [WEBHOOK_ERROR 1000 None None
               "Processing error: 'list' object has no attribute 'get'"] |}).
Proof. repeat split; vm_compute; reflexivity. Qed.

(** X24 (webhook_server.py, [save_to_recent_events]).  The file of recent
    events never holds more than 100 entries.  The entry just saved is the
    last one; before it come the newest entries that were on file, in their
    order: all of them while there were fewer than 100, the last 99
    otherwise. *)
Theorem recent_events_keep_the_last_hundred log_entry recent_events :
  (length (save_to_recent_events log_entry recent_events)
   = Nat.min 100 (length recent_events + 1))%nat
  ∧ last (save_to_recent_events log_entry recent_events) = Some log_entry
  ∧ save_to_recent_events log_entry recent_events
    = drop (length recent_events - 99) recent_events ++ [log_entry]
  ∧ ((length recent_events < 100)%nat →
     save_to_recent_events log_entry recent_events = recent_events ++ [log_entry]).
Proof.
  unfold save_to_recent_events.
  assert (Hdrop : drop (length (recent_events ++ [log_entry]) - 100)
                    (recent_events ++ [log_entry])
                  = drop (length recent_events - 99) recent_events ++ [log_entry]).
  { rewrite length_app. simpl.
    replace (length recent_events + 1 - 100)%nat with (length recent_events - 99)%nat by lia.
    rewrite drop_app_le by lia. done. }
  rewrite Hdrop. split; [|split; [|split]].
  - rewrite length_app, length_drop. cbn [length]. lia.
  - apply last_snoc.
  - done.
  - intros Hlt. replace (length recent_events - 99)%nat with 0%nat by lia. done.
Qed.

Lemma recent_events_keep_the_last_hundred_witness :
  save_to_recent_events (WEBHOOK_ERROR 1 None None "error") []
  = [WEBHOOK_ERROR 1 None None "error"].
Proof.
  apply (recent_events_keep_the_last_hundred (WEBHOOK_ERROR 1 None None "error") []).
  simpl. lia.
Defined.

(** *** The task id of a URL *)

Lemma append_cons c (s t : string) : String c s +:+ t = String c (s +:+ t).
Proof. reflexivity. Qed.

Lemma append_nil (t : string) : "" +:+ t = t.
Proof. reflexivity. Qed.

Lemma take_alnum_app (task_id rest : string) :
  forallb is_alnum (String.list_ascii_of_string task_id) = true →
  take_alnum rest = "" →
  take_alnum (task_id +:+ rest) = task_id.
Proof.
  induction task_id as [|c task_id IH]; simpl; [done|].
  intros [Hc Hrest]%andb_true_iff Hr. rewrite Hc. by rewrite IH.
Qed.

Lemma take_alnum_is_alnum (s : string) :
  forallb is_alnum (String.list_ascii_of_string (take_alnum s)) = true.
Proof.
  induction s as [|c s IH]; simpl; [done|].
  destruct (is_alnum c) eqn:Hc; simpl; [|done]. by rewrite Hc.
Qed.

Lemma after_prefix_app (prefix s rest : string) :
  after_prefix prefix s = Some rest → s = prefix +:+ rest.
Proof.
  revert s. induction prefix as [|p prefix IH]; intros s; simpl.
  - by intros [= ->].
  - destruct s as [|c s]; [done|]. destruct (Ascii.eqb p c) eqn:E; [|done].
    apply Ascii.eqb_eq in E as ->. intros H. by rewrite (IH s H).
Qed.

(** X25 (webhook_server.py, [extract_task_id_from_url]).  For a Todoist
    task URL of the documented form, the id is read back: with a task id of
    letters and digits, followed by nothing or by a character that is
    neither, the function returns the id.  Whatever the text, an id that is
    returned is not empty, is made of letters and digits, and stands in the
    text right after "/task/". *)
Theorem task_id_is_read_back_from_the_url :
  (∀ task_id rest : string,
     task_id ≠ "" →
     forallb is_alnum (String.list_ascii_of_string task_id) = true →
     take_alnum rest = "" →
     extract_task_id_from_url ("https://app.todoist.com/app/task/" +:+ task_id +:+ rest)
     = Some task_id)
  ∧ (∀ task_url task_id : string,
       extract_task_id_from_url task_url = Some task_id →
       task_id ≠ ""
       ∧ forallb is_alnum (String.list_ascii_of_string task_id) = true
       ∧ ∃ before after, task_url = before +:+ "/task/" +:+ task_id +:+ after).
Proof.
  split.
  - intros task_id rest Hne Halnum Hrest.
    rewrite !append_cons, append_nil.
    cbn -[take_alnum String.eqb]. unfold match_here. cbn -[take_alnum String.eqb].
    rewrite (take_alnum_app _ _ Halnum Hrest).
    by rewrite (proj2 (String.eqb_neq task_id "") Hne).
  - intros task_url. induction task_url as [|c task_url IH]; intros task_id.
    + cbn. done.
    + cbn [extract_task_id_from_url].
      destruct (String.eqb (match_here (String c task_url)) "") eqn:Hm; cbn [negb].
      * intros H. destruct (IH _ H) as (H1 & H2 & before & after & ->).
        split; [done|]. split; [done|]. by exists (String c before), after.
      * intros [= <-]. apply String.eqb_neq in Hm. split; [done|].
        unfold match_here in *.
        destruct (after_prefix "/task/" (String c task_url)) as [rest|] eqn:Hp; [|done].
        split; [apply take_alnum_is_alnum|].
        apply after_prefix_app in Hp. rewrite Hp. exists "".
        assert (Hsplit : ∀ r, ∃ after, r = take_alnum r +:+ after).
        { induction r as [|a r [after IHr]]; [by exists ""|]. simpl.
          destruct (is_alnum a); [|by exists (String a r)].
          exists after. rewrite append_cons. by rewrite <- IHr. }
        destruct (Hsplit rest) as [after Hafter]. exists after.
        rewrite append_nil. by rewrite <- Hafter.
Qed.

Lemma task_id_is_read_back_from_the_url_witness :
  extract_task_id_from_url "https://app.todoist.com/app/task/6c4V3gm4qcjpwjwM?x=1"
  = Some "6c4V3gm4qcjpwjwM".
Proof.
  apply (proj1 task_id_is_read_back_from_the_url "6c4V3gm4qcjpwjwM" "?x=1");
    [discriminate | reflexivity | reflexivity].
Defined.

(** X26 (webhook_server.py, [get_agent_status]).  The status endpoint takes
    the status first and asks whether the guard is busy second.  When it
    says that webhooks are not accepted, the status shows the lock, and the
    guard is left as it was.  It can say that webhooks are accepted next to
    a status that shows the lock: exactly when the lock or the cooldown is
    stale; the guard is idle after the call in any case where webhooks are
    accepted. *)
Theorem status_endpoint_and_stale_lock (w : world) :
  guard_ok (lock w) →
  let answer := get_agent_status w in
  let agent_status := answer.1.1 in
  let is_accepting_webhooks := answer.1.2 in
  (is_accepting_webhooks = false → is_locked agent_status = true ∧ answer.2 = w)
  ∧ (is_accepting_webhooks = true → in_phase (lock answer.2) Idle)
  ∧ (is_accepting_webhooks = true ∧ is_locked agent_status = true
     ↔ (in_phase (lock w) Working
        ∧ ∃ t, _agent_start_time (lock w) = Some t ∧ (300 < now w - t)%Q)
       ∨ (in_phase (lock w) Cooldown
          ∧ ∃ t, _cooldown_start_time (lock w) = Some t ∧ (3 < now w - t)%Q)).
Proof.
  intros Hg answer agent_status is_accepting_webhooks.
  subst answer agent_status is_accepting_webhooks.
  destruct Hg as [He Hw Hc Ht Hs]. unfold exclusive in He.
  unfold get_agent_status, is_agent_working. simpl. rewrite Ht, Hs.
  destruct (_is_agent_working (lock w)) eqn:Ew, (_is_cooldown (lock w)) eqn:Ec;
    simpl in *; [done| | |].
  - destruct (Hw eq_refl) as (t & Hst & Hnz). rewrite Hst.
    destruct (elapsed_exceeds (now w) (Some t) 300) eqn:E; simpl.
    + apply (elapsed_exceeds_some _ _ _ Hnz) in E.
      split; [done|]. split; [done|]. split; [|done]. intros _. left.
      split; [done|]. by exists t.
    + split; [intros _; split; [done|]; apply set_lock_same|].
      split; [done|]. split; [by intros [? _]|].
      intros [(_ & t' & [= <-] & Hlt)|[[? ?] _]]; [|done].
      apply (elapsed_exceeds_some _ _ _ Hnz) in Hlt. congruence.
  - destruct (Hc eq_refl) as (t & Hst & Hnz). rewrite Hst.
    destruct (elapsed_exceeds (now w) (Some t) 3) eqn:E; simpl.
    + apply (elapsed_exceeds_some _ _ _ Hnz) in E.
      split; [done|]. split; [done|]. split; [|done]. intros _. right.
      split; [done|]. by exists t.
    + split; [intros _; split; [done|]; apply set_lock_same|].
      split; [done|]. split; [by intros [? _]|].
      intros [[[? ?] _]|(_ & t' & [= <-] & Hlt)]; [done|].
      apply (elapsed_exceeds_some _ _ _ Hnz) in Hlt. congruence.
  - split; [done|]. split; [done|]. split; [by intros [_ ?]|].
    intros [[[? ?] _]|[[? ?] _]]; done.
Qed.

Lemma status_endpoint_and_stale_lock_witness :
  in_phase
    (lock (get_agent_status
             {| lock := run [Acquire 1000 (Some "T1")] init; now := 2000; trace := [] |}).2)
    Idle.
Proof.
  apply (status_endpoint_and_stale_lock
           {| lock := run [Acquire 1000 (Some "T1")] init; now := 2000; trace := [] |}).
  - apply reachable_ok. exists [Acquire 1000 (Some "T1")].
    split; [|reflexivity]. repeat constructor.
  - reflexivity.
Defined.

End webhook_server_props.

(** * Properties of the scheduling tool *)
Module master_agent_props.
Import task_processor master_agent.

Lemma manual_label_some (data : item) (l : list string) :
  labels data = Some l →
  has_manual_scheduled_label data = true
  ↔ ∃ label, label ∈ l ∧ label ∈ manual_scheduled_variants.
Proof.
  intros Hl. unfold has_manual_scheduled_label. rewrite Hl.
  assert (H : existsb (fun label => bool_decide (label ∈ manual_scheduled_variants)) l = true
              ↔ ∃ label, label ∈ l ∧ label ∈ manual_scheduled_variants).
  { rewrite existsb_exists. split.
    - intros (label & Hin & Hv). exists label. split; [by apply list_elem_of_In|].
      by apply bool_decide_eq_true in Hv.
    - intros (label & Hin & Hv). exists label. split; [by apply list_elem_of_In|].
      by apply bool_decide_eq_true. }
  destruct l as [|label l]; [|exact H]. split; [done|].
  intros (label & Hin & _). by apply not_elem_of_nil in Hin.
Qed.

Ltac no_labels_set :=
  split;
  [split;
   [intros (? & ? & ?); simplify_eq
   |intros (? & ? & ? & ? & ? & ?); simplify_eq; try congruence; try contradiction]
  |intros ? ? ?; simplify_eq].

(** X27 (master_agent.py, [update_todo_schedule_tool]).  The tool asks
    Todoist to set labels exactly when the schedule update answered with
    "successfully" (in any case of letters), the labels of the task could
    be fetched, and "AI Scheduled" is not among them.  The labels it sets
    are the task's labels in their order, without "Manual Scheduled", with
    "AI Scheduled" at the end.  Only that exact spelling is removed: the
    task still counts as manually scheduled for the webhook handlers
    exactly when it carried one of the other spellings that
    [has_manual_scheduled_label] accepts. *)
Theorem ai_label_replaces_only_the_exact_manual_label
    (api : Todoist) (task_id new_start_timestamp : string) (duration_minutes : Z) :
  let answer := update_todo_schedule_tool api task_id new_start_timestamp duration_minutes in
  ((∃ text new_labels, answer = Returns (text, Some new_labels))
   ↔ ∃ schedule_result existing_labels,
       update_todo_schedule api task_id new_start_timestamp duration_minutes
       = Returns schedule_result
       ∧ is_substring "successfully" (lower schedule_result) = true
       ∧ get_task_labels api task_id = Returns existing_labels
       ∧ "AI Scheduled" ∉ existing_labels)
  ∧ (∀ text new_labels,
       answer = Returns (text, Some new_labels) →
       ∃ existing_labels,
         get_task_labels api task_id = Returns existing_labels
         ∧ new_labels
           = filter (fun label => label ≠ "Manual Scheduled") existing_labels
               ++ ["AI Scheduled"]
         ∧ "AI Scheduled" ∈ new_labels
         ∧ ("Manual Scheduled" ∉ new_labels)
         ∧ (∀ data : item,
              labels data = Some new_labels →
              (has_manual_scheduled_label data = true
               ↔ ∃ label, label ∈ existing_labels
                          ∧ label ∈ manual_scheduled_variants
                          ∧ label ≠ "Manual Scheduled"))).
Proof.
  intros answer. subst answer. unfold update_todo_schedule_tool.
  destruct (update_todo_schedule api task_id new_start_timestamp duration_minutes)
    as [schedule_result|e]; [|no_labels_set].
  destruct (is_substring "successfully" (lower schedule_result)) eqn:Hok; [|no_labels_set].
  destruct (get_task_labels api task_id) as [existing_labels|e]; [|no_labels_set].
  case_bool_decide as Hai; [|no_labels_set].
  assert (Hnew : filter (fun label : string => label ≠ "Manual Scheduled")
                   (existing_labels ++ ["AI Scheduled"])
                 = filter (fun label : string => label ≠ "Manual Scheduled") existing_labels
                     ++ ["AI Scheduled"]).
  { by rewrite filter_app. }
  split.
  - split; [intros _; by exists schedule_result, existing_labels|]. intros _.
    destruct (set_todo_labels api task_id _); by eexists _, _.
  - intros text new_labels Heq.
    assert (new_labels = filter (fun label : string => label ≠ "Manual Scheduled")
                           existing_labels ++ ["AI Scheduled"]) as ->.
    { rewrite <- Hnew. destruct (set_todo_labels api task_id _); by simplify_eq. }
    exists existing_labels. split; [done|]. split; [done|].
    split; [rewrite elem_of_app, list_elem_of_singleton; by right|].
    split.
    { rewrite elem_of_app, list_elem_of_filter, list_elem_of_singleton.
      intros [[? _]|?]; done. }
    intros data Hl. rewrite (manual_label_some data _ Hl). split.
    + intros (label & Hin & Hv). exists label.
      apply elem_of_app in Hin as [Hin|Hin].
      * apply list_elem_of_filter in Hin as [Hne Hin]. done.
      * apply list_elem_of_singleton in Hin as ->. exfalso. revert Hv.
        unfold manual_scheduled_variants. rewrite !elem_of_cons, elem_of_nil.
        intros [?|[?|[?|[?|[?|?]]]]]; done.
    + intros (label & Hin & Hv & Hne). exists label. split; [|done].
      apply elem_of_app. left. by apply list_elem_of_filter.
Qed.

(** A task labelled "manual scheduled", and a Todoist that refuses the
    labels: the tool still asked for both labels. *)
Lemma ai_label_replaces_only_the_exact_manual_label_witness :
  ∃ existing_labels,
    Returns ["manual scheduled"] = Returns existing_labels
    ∧ ["manual scheduled"; "AI Scheduled"]
      = filter (fun label => label ≠ "Manual Scheduled") existing_labels ++ ["AI Scheduled"]
    ∧ "AI Scheduled" ∈ ["manual scheduled"; "AI Scheduled"]
    ∧ ("Manual Scheduled" ∉ ["manual scheduled"; "AI Scheduled"])
    ∧ (∀ data : item,
         labels data = Some ["manual scheduled"; "AI Scheduled"] →
         (has_manual_scheduled_label data = true
          ↔ ∃ label, label ∈ existing_labels
                     ∧ label ∈ manual_scheduled_variants
                     ∧ label ≠ "Manual Scheduled")).
Proof.
  apply (proj2 (ai_label_replaces_only_the_exact_manual_label
                  {| update_todo_schedule := fun _ _ _ => Returns "Todo 'T1' updated successfully.";
                     get_task_labels := fun _ => Returns ["manual scheduled"];
                     set_todo_labels := fun _ _ => Returns "Failed to update labels: 500" |}
                  "T1" "2025-05-29T13:00:00" 30)
           "Todo 'T1' updated successfully. AI Scheduled label applied."
           ["manual scheduled"; "AI Scheduled"]).
  vm_compute. reflexivity.
Defined.

End master_agent_props.
